(** * sssm: declared / reflected schema trees and the alignment engine

    A shallow embedding of [sssm/db_entities/attributes.py],
    [sssm/db_entities/declared.py], [sssm/db_entities/reflected.py],
    [sssm/util.py] and [sssm/align.py].

    Python objects become records, methods become functions that take the
    receiver explicitly, and every effect of the program (statements sent to
    the cursor, commits, [input()] prompts, log records, raised exceptions)
    is threaded through a state-and-exception monad over [World]. *)

From Stdlib Require Import String Ascii List ZArith Bool Arith Lia DecimalString.
Import ListNotations.
Local Open Scope string_scope.
Local Open Scope list_scope.

(* ===================================================================== *)
(** ** Entity types and the attribute registry                            *)
(* ===================================================================== *)

(** The [object_type] class attribute of the concrete entity classes. *)
Inductive ObjType :=
| Servers | Logins | Databases | Schemas | Users | Tables
| Columns | PrimaryKeys | Indexes | ForeignKeys | Partitions.

Definition object_type_name (t : ObjType) : string :=
  match t with
  | Servers => "servers" | Logins => "logins" | Databases => "databases"
  | Schemas => "schemas" | Users => "users" | Tables => "tables"
  | Columns => "columns" | PrimaryKeys => "primary_keys"
  | Indexes => "indexes" | ForeignKeys => "foreign_keys"
  | Partitions => "partitions"
  end.

Definition ObjType_eqb (a b : ObjType) : bool :=
  match a, b with
  | Servers, Servers | Logins, Logins | Databases, Databases
  | Schemas, Schemas | Users, Users | Tables, Tables | Columns, Columns
  | PrimaryKeys, PrimaryKeys | Indexes, Indexes
  | ForeignKeys, ForeignKeys | Partitions, Partitions => true
  | _, _ => false
  end.

(** [attributes.valid_attributes] *)
Definition valid_attributes (t : ObjType) : list string :=
  match t with
  | Logins => ["type_desc"; "server_roles"; "password"]
  | Databases => ["recovery_model_desc"; "data_size"; "log_size"; "owner";
                  "data_file_path"; "log_file_path"]
  | Columns => ["data_type"; "char_max_len"; "datetime_precision";
                "numeric_precision"; "numeric_scale"; "nullable"; "identity"]
  | ForeignKeys => ["foreign_schema"; "foreign_table"; "foreign_column"; "column"]
  | PrimaryKeys => ["columns"; "clustered"; "compression"]
  | Indexes => ["columns"; "clustered"; "compression"; "included_columns"; "unique"]
  | Users => ["login_name"; "db_roles"]
  | Partitions => ["column"]
  | Tables => []
  | Schemas => []
  | Servers => []
  end.

(** [child_types] of the declared classes (declared.py). *)
Definition declared_child_types (t : ObjType) : list ObjType :=
  match t with
  | Tables => [Columns; PrimaryKeys; Indexes; Partitions]
  | Schemas => [Tables]
  | Databases => [Schemas; Users]
  | Servers => [Logins; Databases]
  | _ => []
  end.

(** [child_types] of the reflected classes (reflected.py). *)
Definition reflected_child_types (t : ObjType) : list ObjType :=
  match t with
  | Tables => [PrimaryKeys; Indexes; Columns; Partitions]
  | Schemas => [Tables]
  | Databases => [Schemas; Users]
  | Servers => [Logins; Databases]
  | _ => []
  end.

(* ===================================================================== *)
(** ** Python values                                                      *)
(* ===================================================================== *)

(** Attribute values and row fields.  A [datetime] is kept as the ordinal
    of its calendar day, the only part the program uses ([.date()]). *)
Inductive Value :=
| VNone
| VBool (b : bool)
| VInt (z : Z)
| VStr (s : string)
| VTuple (items : list string)
| VSet (items : list string)
| VDateTime (day : Z).

Definition str_in (s : string) (l : list string) : bool :=
  existsb (String.eqb s) l.

Fixpoint strs_eqb (a b : list string) : bool :=
  match a, b with
  | [], [] => true
  | x :: a', y :: b' => String.eqb x y && strs_eqb a' b'
  | _, _ => false
  end.

Definition subset_strs (a b : list string) : bool :=
  forallb (fun x => str_in x b) a.

(** Python [==] on values: [True == 1], tuples compare element-wise, sets
    compare as sets, values of unrelated types are unequal. *)
Definition py_eq (a b : Value) : bool :=
  match a, b with
  | VNone, VNone => true
  | VBool x, VBool y => Bool.eqb x y
  | VBool x, VInt z | VInt z, VBool x => Z.eqb (if x then 1 else 0) z
  | VInt x, VInt y => Z.eqb x y
  | VStr x, VStr y => String.eqb x y
  | VTuple x, VTuple y => strs_eqb x y
  | VSet x, VSet y => subset_strs x y && subset_strs y x
  | VDateTime x, VDateTime y => Z.eqb x y
  | _, _ => false
  end.

(** Python truthiness, [bool(v)]. *)
Definition truthy (v : Value) : bool :=
  match v with
  | VNone => false
  | VBool b => b
  | VInt z => negb (Z.eqb z 0)
  | VStr s => negb (String.eqb s "")
  | VTuple l | VSet l => match l with [] => false | _ => true end
  | VDateTime _ => true
  end.

(* ===================================================================== *)
(** ** Text                                                               *)
(* ===================================================================== *)

(** A Python [str] is a sequence of code points.  The model keeps it in
    UTF-8, the way the string literals of this file are read: a character
    is a lead byte followed by its continuation bytes.  [len], slicing and
    iteration count characters, not bytes, and [str.lower()] maps code
    points. *)

Definition is_continuation (c : ascii) : bool :=
  let n := N_of_ascii c in (128 <=? n)%N && (n <? 192)%N.

(** [len(s)] *)
Fixpoint py_len (s : string) : nat :=
  match s with
  | EmptyString => 0
  | String c s' => if is_continuation c then py_len s' else S (py_len s')
  end.

(** [s[:n]] *)
Fixpoint slice_to (n : nat) (s : string) : string :=
  match s with
  | EmptyString => EmptyString
  | String c s' =>
      if is_continuation c then String c (slice_to n s')
      else match n with
           | 0 => EmptyString
           | S n' => String c (slice_to n' s')
           end
  end.

Definition starts_with_continuation (s : string) : bool :=
  match s with
  | EmptyString => false
  | String c _ => is_continuation c
  end.

(** [list(s)]: the characters of [s], each as a string. *)
Fixpoint chars_of (s : string) : list string :=
  match s with
  | EmptyString => []
  | String c s' =>
      match chars_of s' with
      | g :: l =>
          if starts_with_continuation g then String c g :: l
          else String c EmptyString :: g :: l
      | [] => [String c EmptyString]
      end
  end.

Fixpoint add_continuations (acc : N) (s : string) : N :=
  match s with
  | EmptyString => acc
  | String b s' => add_continuations (acc * 64 + N.land (N_of_ascii b) 63)%N s'
  end.

(** [ord(c)] of a character. *)
Definition code_point (c : string) : N :=
  match c with
  | EmptyString => 0
  | String lead tail =>
      let n := N_of_ascii lead in
      let first := if (n <? 128)%N then n
                   else if (n <? 224)%N then N.land n 31
                   else if (n <? 240)%N then N.land n 15
                   else N.land n 7 in
      add_continuations first tail
  end.

(** [chr(n)] in UTF-8. *)
Definition chr (n : N) : string :=
  let byte (k : N) := ascii_of_N k in
  let cont (k : N) := byte (128 + N.land k 63)%N in
  if (n <? 128)%N then String (byte n) EmptyString
  else if (n <? 2048)%N then
    String (byte (192 + N.shiftr n 6)%N) (String (cont n) EmptyString)
  else if (n <? 65536)%N then
    String (byte (224 + N.shiftr n 12)%N)
           (String (cont (N.shiftr n 6)) (String (cont n) EmptyString))
  else
    String (byte (240 + N.shiftr n 18)%N)
           (String (cont (N.shiftr n 12))
                   (String (cont (N.shiftr n 6)) (String (cont n) EmptyString))).

(** The simple lower-case mappings of the Unicode character database, as
    CPython 3.11 (Unicode 14.0) has them: [(first, last, step, target)]
    maps [first + k * step], up to [last], to [target + k * step]. *)
Definition lower_ranges : list (N * N * N * N) :=
  [
   (65, 90, 1, 97); (192, 214, 1, 224); (216, 222, 1, 248);
   (256, 302, 2, 257); (306, 310, 2, 307); (313, 327, 2, 314);
   (330, 374, 2, 331); (376, 376, 1, 255); (377, 381, 2, 378);
   (385, 385, 1, 595); (386, 388, 2, 387); (390, 390, 1, 596);
   (391, 391, 1, 392); (393, 394, 1, 598); (395, 395, 1, 396);
   (398, 398, 1, 477); (399, 399, 1, 601); (400, 400, 1, 603);
   (401, 401, 1, 402); (403, 403, 1, 608); (404, 404, 1, 611);
   (406, 406, 1, 617); (407, 407, 1, 616); (408, 408, 1, 409);
   (412, 412, 1, 623); (413, 413, 1, 626); (415, 415, 1, 629);
   (416, 420, 2, 417); (422, 422, 1, 640); (423, 423, 1, 424);
   (425, 425, 1, 643); (428, 428, 1, 429); (430, 430, 1, 648);
   (431, 431, 1, 432); (433, 434, 1, 650); (435, 437, 2, 436);
   (439, 439, 1, 658); (440, 440, 1, 441); (444, 444, 1, 445);
   (452, 452, 1, 454); (453, 453, 1, 454); (455, 455, 1, 457);
   (456, 456, 1, 457); (458, 458, 1, 460); (459, 475, 2, 460);
   (478, 494, 2, 479); (497, 497, 1, 499); (498, 500, 2, 499);
   (502, 502, 1, 405); (503, 503, 1, 447); (504, 542, 2, 505);
   (544, 544, 1, 414); (546, 562, 2, 547); (570, 570, 1, 11365);
   (571, 571, 1, 572); (573, 573, 1, 410); (574, 574, 1, 11366);
   (577, 577, 1, 578); (579, 579, 1, 384); (580, 580, 1, 649);
   (581, 581, 1, 652); (582, 590, 2, 583); (880, 882, 2, 881);
   (886, 886, 1, 887); (895, 895, 1, 1011); (902, 902, 1, 940);
   (904, 906, 1, 941); (908, 908, 1, 972); (910, 911, 1, 973);
   (913, 929, 1, 945); (932, 939, 1, 964); (975, 975, 1, 983);
   (984, 1006, 2, 985); (1012, 1012, 1, 952); (1015, 1015, 1, 1016);
   (1017, 1017, 1, 1010); (1018, 1018, 1, 1019); (1021, 1023, 1, 891);
   (1024, 1039, 1, 1104); (1040, 1071, 1, 1072); (1120, 1152, 2, 1121);
   (1162, 1214, 2, 1163); (1216, 1216, 1, 1231); (1217, 1229, 2, 1218);
   (1232, 1326, 2, 1233); (1329, 1366, 1, 1377); (4256, 4293, 1, 11520);
   (4295, 4295, 1, 11559); (4301, 4301, 1, 11565); (5024, 5103, 1, 43888);
   (5104, 5109, 1, 5112); (7312, 7354, 1, 4304); (7357, 7359, 1, 4349);
   (7680, 7828, 2, 7681); (7838, 7838, 1, 223); (7840, 7934, 2, 7841);
   (7944, 7951, 1, 7936); (7960, 7965, 1, 7952); (7976, 7983, 1, 7968);
   (7992, 7999, 1, 7984); (8008, 8013, 1, 8000); (8025, 8031, 2, 8017);
   (8040, 8047, 1, 8032); (8072, 8079, 1, 8064); (8088, 8095, 1, 8080);
   (8104, 8111, 1, 8096); (8120, 8121, 1, 8112); (8122, 8123, 1, 8048);
   (8124, 8124, 1, 8115); (8136, 8139, 1, 8050); (8140, 8140, 1, 8131);
   (8152, 8153, 1, 8144); (8154, 8155, 1, 8054); (8168, 8169, 1, 8160);
   (8170, 8171, 1, 8058); (8172, 8172, 1, 8165); (8184, 8185, 1, 8056);
   (8186, 8187, 1, 8060); (8188, 8188, 1, 8179); (8486, 8486, 1, 969);
   (8490, 8490, 1, 107); (8491, 8491, 1, 229); (8498, 8498, 1, 8526);
   (8544, 8559, 1, 8560); (8579, 8579, 1, 8580); (9398, 9423, 1, 9424);
   (11264, 11311, 1, 11312); (11360, 11360, 1, 11361); (11362, 11362, 1, 619);
   (11363, 11363, 1, 7549); (11364, 11364, 1, 637); (11367, 11371, 2, 11368);
   (11373, 11373, 1, 593); (11374, 11374, 1, 625); (11375, 11375, 1, 592);
   (11376, 11376, 1, 594); (11378, 11378, 1, 11379); (11381, 11381, 1, 11382);
   (11390, 11391, 1, 575); (11392, 11490, 2, 11393); (11499, 11501, 2, 11500);
   (11506, 11506, 1, 11507); (42560, 42604, 2, 42561); (42624, 42650, 2, 42625);
   (42786, 42798, 2, 42787); (42802, 42862, 2, 42803); (42873, 42875, 2, 42874);
   (42877, 42877, 1, 7545); (42878, 42886, 2, 42879); (42891, 42891, 1, 42892);
   (42893, 42893, 1, 613); (42896, 42898, 2, 42897); (42902, 42920, 2, 42903);
   (42922, 42922, 1, 614); (42923, 42923, 1, 604); (42924, 42924, 1, 609);
   (42925, 42925, 1, 620); (42926, 42926, 1, 618); (42928, 42928, 1, 670);
   (42929, 42929, 1, 647); (42930, 42930, 1, 669); (42931, 42931, 1, 43859);
   (42932, 42946, 2, 42933); (42948, 42948, 1, 42900); (42949, 42949, 1, 642);
   (42950, 42950, 1, 7566); (42951, 42953, 2, 42952); (42960, 42960, 1, 42961);
   (42966, 42968, 2, 42967); (42997, 42997, 1, 42998); (65313, 65338, 1, 65345);
   (66560, 66599, 1, 66600); (66736, 66771, 1, 66776); (66928, 66964, 2, 66967);
   (66929, 66937, 2, 66968); (66941, 66953, 2, 66980); (66957, 66961, 2, 66996);
   (66965, 66965, 1, 67004); (68736, 68786, 1, 68800); (71840, 71871, 1, 71872);
   (93760, 93791, 1, 93792); (125184, 125217, 1, 125218)
  ]%N.

(** Ranges of the code points that are cased and not case-ignorable, and
    of those that are case-ignorable (same database). *)
Definition cased_ranges : list (N * N) :=
  [
   (65, 90); (97, 122); (170, 170); (181, 181); (186, 186);
   (192, 214); (216, 246); (248, 442); (444, 447); (452, 659);
   (661, 687); (880, 883); (886, 887); (891, 893); (895, 895);
   (902, 902); (904, 906); (908, 908); (910, 929); (931, 1013);
   (1015, 1153); (1162, 1327); (1329, 1366); (1376, 1416); (4256, 4293);
   (4295, 4295); (4301, 4301); (4304, 4346); (4349, 4351); (5024, 5109);
   (5112, 5117); (7296, 7304); (7312, 7354); (7357, 7359); (7424, 7467);
   (7531, 7543); (7545, 7578); (7680, 7957); (7960, 7965); (7968, 8005);
   (8008, 8013); (8016, 8023); (8025, 8025); (8027, 8027); (8029, 8029);
   (8031, 8061); (8064, 8116); (8118, 8124); (8126, 8126); (8130, 8132);
   (8134, 8140); (8144, 8147); (8150, 8155); (8160, 8172); (8178, 8180);
   (8182, 8188); (8450, 8450); (8455, 8455); (8458, 8467); (8469, 8469);
   (8473, 8477); (8484, 8484); (8486, 8486); (8488, 8488); (8490, 8493);
   (8495, 8500); (8505, 8505); (8508, 8511); (8517, 8521); (8526, 8526);
   (8544, 8575); (8579, 8580); (9398, 9449); (11264, 11387); (11390, 11492);
   (11499, 11502); (11506, 11507); (11520, 11557); (11559, 11559); (11565, 11565);
   (42560, 42605); (42624, 42651); (42786, 42863); (42865, 42887); (42891, 42894);
   (42896, 42954); (42960, 42961); (42963, 42963); (42965, 42969); (42997, 42998);
   (43002, 43002); (43824, 43866); (43872, 43880); (43888, 43967); (64256, 64262);
   (64275, 64279); (65313, 65338); (65345, 65370); (66560, 66639); (66736, 66771);
   (66776, 66811); (66928, 66938); (66940, 66954); (66956, 66962); (66964, 66965);
   (66967, 66977); (66979, 66993); (66995, 67001); (67003, 67004); (68736, 68786);
   (68800, 68850); (71840, 71903); (93760, 93823); (119808, 119892); (119894, 119964);
   (119966, 119967); (119970, 119970); (119973, 119974); (119977, 119980); (119982, 119993);
   (119995, 119995); (119997, 120003); (120005, 120069); (120071, 120074); (120077, 120084);
   (120086, 120092); (120094, 120121); (120123, 120126); (120128, 120132); (120134, 120134);
   (120138, 120144); (120146, 120485); (120488, 120512); (120514, 120538); (120540, 120570);
   (120572, 120596); (120598, 120628); (120630, 120654); (120656, 120686); (120688, 120712);
   (120714, 120744); (120746, 120770); (120772, 120779); (122624, 122633); (122635, 122654);
   (125184, 125251); (127280, 127305); (127312, 127337); (127344, 127369)
  ]%N.

Definition case_ignorable_ranges : list (N * N) :=
  [
   (39, 39); (46, 46); (58, 58); (94, 94); (96, 96);
   (168, 168); (173, 173); (175, 175); (180, 180); (183, 184);
   (688, 879); (884, 885); (890, 890); (900, 901); (903, 903);
   (1155, 1161); (1369, 1369); (1375, 1375); (1425, 1469); (1471, 1471);
   (1473, 1474); (1476, 1477); (1479, 1479); (1524, 1524); (1536, 1541);
   (1552, 1562); (1564, 1564); (1600, 1600); (1611, 1631); (1648, 1648);
   (1750, 1757); (1759, 1768); (1770, 1773); (1807, 1807); (1809, 1809);
   (1840, 1866); (1958, 1968); (2027, 2037); (2042, 2042); (2045, 2045);
   (2070, 2093); (2137, 2139); (2184, 2184); (2192, 2193); (2200, 2207);
   (2249, 2306); (2362, 2362); (2364, 2364); (2369, 2376); (2381, 2381);
   (2385, 2391); (2402, 2403); (2417, 2417); (2433, 2433); (2492, 2492);
   (2497, 2500); (2509, 2509); (2530, 2531); (2558, 2558); (2561, 2562);
   (2620, 2620); (2625, 2626); (2631, 2632); (2635, 2637); (2641, 2641);
   (2672, 2673); (2677, 2677); (2689, 2690); (2748, 2748); (2753, 2757);
   (2759, 2760); (2765, 2765); (2786, 2787); (2810, 2815); (2817, 2817);
   (2876, 2876); (2879, 2879); (2881, 2884); (2893, 2893); (2901, 2902);
   (2914, 2915); (2946, 2946); (3008, 3008); (3021, 3021); (3072, 3072);
   (3076, 3076); (3132, 3132); (3134, 3136); (3142, 3144); (3146, 3149);
   (3157, 3158); (3170, 3171); (3201, 3201); (3260, 3260); (3263, 3263);
   (3270, 3270); (3276, 3277); (3298, 3299); (3328, 3329); (3387, 3388);
   (3393, 3396); (3405, 3405); (3426, 3427); (3457, 3457); (3530, 3530);
   (3538, 3540); (3542, 3542); (3633, 3633); (3636, 3642); (3654, 3662);
   (3761, 3761); (3764, 3772); (3782, 3782); (3784, 3789); (3864, 3865);
   (3893, 3893); (3895, 3895); (3897, 3897); (3953, 3966); (3968, 3972);
   (3974, 3975); (3981, 3991); (3993, 4028); (4038, 4038); (4141, 4144);
   (4146, 4151); (4153, 4154); (4157, 4158); (4184, 4185); (4190, 4192);
   (4209, 4212); (4226, 4226); (4229, 4230); (4237, 4237); (4253, 4253);
   (4348, 4348); (4957, 4959); (5906, 5908); (5938, 5939); (5970, 5971);
   (6002, 6003); (6068, 6069); (6071, 6077); (6086, 6086); (6089, 6099);
   (6103, 6103); (6109, 6109); (6155, 6159); (6211, 6211); (6277, 6278);
   (6313, 6313); (6432, 6434); (6439, 6440); (6450, 6450); (6457, 6459);
   (6679, 6680); (6683, 6683); (6742, 6742); (6744, 6750); (6752, 6752);
   (6754, 6754); (6757, 6764); (6771, 6780); (6783, 6783); (6823, 6823);
   (6832, 6862); (6912, 6915); (6964, 6964); (6966, 6970); (6972, 6972);
   (6978, 6978); (7019, 7027); (7040, 7041); (7074, 7077); (7080, 7081);
   (7083, 7085); (7142, 7142); (7144, 7145); (7149, 7149); (7151, 7153);
   (7212, 7219); (7222, 7223); (7288, 7293); (7376, 7378); (7380, 7392);
   (7394, 7400); (7405, 7405); (7412, 7412); (7416, 7417); (7468, 7530);
   (7544, 7544); (7579, 7679); (8125, 8125); (8127, 8129); (8141, 8143);
   (8157, 8159); (8173, 8175); (8189, 8190); (8203, 8207); (8216, 8217);
   (8228, 8228); (8231, 8231); (8234, 8238); (8288, 8292); (8294, 8303);
   (8305, 8305); (8319, 8319); (8336, 8348); (8400, 8432); (11388, 11389);
   (11503, 11505); (11631, 11631); (11647, 11647); (11744, 11775); (11823, 11823);
   (12293, 12293); (12330, 12333); (12337, 12341); (12347, 12347); (12441, 12446);
   (12540, 12542); (40981, 40981); (42232, 42237); (42508, 42508); (42607, 42610);
   (42612, 42621); (42623, 42623); (42652, 42655); (42736, 42737); (42752, 42785);
   (42864, 42864); (42888, 42890); (42994, 42996); (43000, 43001); (43010, 43010);
   (43014, 43014); (43019, 43019); (43045, 43046); (43052, 43052); (43204, 43205);
   (43232, 43249); (43263, 43263); (43302, 43309); (43335, 43345); (43392, 43394);
   (43443, 43443); (43446, 43449); (43452, 43453); (43471, 43471); (43493, 43494);
   (43561, 43566); (43569, 43570); (43573, 43574); (43587, 43587); (43596, 43596);
   (43632, 43632); (43644, 43644); (43696, 43696); (43698, 43700); (43703, 43704);
   (43710, 43711); (43713, 43713); (43741, 43741); (43756, 43757); (43763, 43764);
   (43766, 43766); (43867, 43871); (43881, 43883); (44005, 44005); (44008, 44008);
   (44013, 44013); (64286, 64286); (64434, 64450); (65024, 65039); (65043, 65043);
   (65056, 65071); (65106, 65106); (65109, 65109); (65279, 65279); (65287, 65287);
   (65294, 65294); (65306, 65306); (65342, 65342); (65344, 65344); (65392, 65392);
   (65438, 65439); (65507, 65507); (65529, 65531); (66045, 66045); (66272, 66272);
   (66422, 66426); (67456, 67461); (67463, 67504); (67506, 67514); (68097, 68099);
   (68101, 68102); (68108, 68111); (68152, 68154); (68159, 68159); (68325, 68326);
   (68900, 68903); (69291, 69292); (69446, 69456); (69506, 69509); (69633, 69633);
   (69688, 69702); (69744, 69744); (69747, 69748); (69759, 69761); (69811, 69814);
   (69817, 69818); (69821, 69821); (69826, 69826); (69837, 69837); (69888, 69890);
   (69927, 69931); (69933, 69940); (70003, 70003); (70016, 70017); (70070, 70078);
   (70089, 70092); (70095, 70095); (70191, 70193); (70196, 70196); (70198, 70199);
   (70206, 70206); (70367, 70367); (70371, 70378); (70400, 70401); (70459, 70460);
   (70464, 70464); (70502, 70508); (70512, 70516); (70712, 70719); (70722, 70724);
   (70726, 70726); (70750, 70750); (70835, 70840); (70842, 70842); (70847, 70848);
   (70850, 70851); (71090, 71093); (71100, 71101); (71103, 71104); (71132, 71133);
   (71219, 71226); (71229, 71229); (71231, 71232); (71339, 71339); (71341, 71341);
   (71344, 71349); (71351, 71351); (71453, 71455); (71458, 71461); (71463, 71467);
   (71727, 71735); (71737, 71738); (71995, 71996); (71998, 71998); (72003, 72003);
   (72148, 72151); (72154, 72155); (72160, 72160); (72193, 72202); (72243, 72248);
   (72251, 72254); (72263, 72263); (72273, 72278); (72281, 72283); (72330, 72342);
   (72344, 72345); (72752, 72758); (72760, 72765); (72767, 72767); (72850, 72871);
   (72874, 72880); (72882, 72883); (72885, 72886); (73009, 73014); (73018, 73018);
   (73020, 73021); (73023, 73029); (73031, 73031); (73104, 73105); (73109, 73109);
   (73111, 73111); (73459, 73460); (78896, 78904); (92912, 92916); (92976, 92982);
   (92992, 92995); (94031, 94031); (94095, 94111); (94176, 94177); (94179, 94180);
   (110576, 110579); (110581, 110587); (110589, 110590); (113821, 113822); (113824, 113827);
   (118528, 118573); (118576, 118598); (119143, 119145); (119155, 119170); (119173, 119179);
   (119210, 119213); (119362, 119364); (121344, 121398); (121403, 121452); (121461, 121461);
   (121476, 121476); (121499, 121503); (121505, 121519); (122880, 122886); (122888, 122904);
   (122907, 122913); (122915, 122916); (122918, 122922); (123184, 123197); (123566, 123566);
   (123628, 123631); (125136, 125142); (125252, 125259); (127995, 127999); (917505, 917505);
   (917536, 917631); (917760, 917999)
  ]%N.

Definition in_ranges (n : N) (l : list (N * N)) : bool :=
  existsb (fun '(a, b) => (a <=? n)%N && (n <=? b)%N) l.

Definition lower_simple (n : N) : N :=
  match find (fun '(a, b, step, _) =>
                (a <=? n)%N && (n <=? b)%N && (((n - a) mod step) =? 0)%N)
             lower_ranges with
  | Some (a, _, _, target) => (target + (n - a))%N
  | None => n
  end.

(** The first code point that is not case-ignorable. *)
Definition first_attended (l : list N) : option N :=
  find (fun n => negb (in_ranges n case_ignorable_ranges)) l.

(** Whether a capital sigma stands at the end of a word: a cased letter
    before it and none after it, case-ignorable characters skipped. *)
Definition final_sigma (before_reversed after : list N) : bool :=
  match first_attended before_reversed with
  | Some c =>
      in_ranges c cased_ranges
      && match first_attended after with
         | Some c' => negb (in_ranges c' cased_ranges)
         | None => true
         end
  | None => false
  end.

Fixpoint lower_points (before_reversed l : list N) : list N :=
  match l with
  | [] => []
  | n :: l' =>
      (if (n <? 128)%N then
         [if (65 <=? n)%N && (n <=? 90)%N then (n + 32)%N else n]
       else if (n =? 931)%N then
         [if final_sigma before_reversed l' then 962%N else 963%N]
       else if (n =? 304)%N then [105; 775]%N
       else [lower_simple n])
      ++ lower_points (n :: before_reversed) l'
  end.

(** [str.lower()] *)
Definition lower (s : string) : string :=
  String.concat "" (map chr (lower_points [] (map code_point (chars_of s)))).


(** ['{}'.format(v)] for the values that reach statement text: [None], a
    boolean, an integer or text, which [is_scalar] collects.  A tuple, a
    set or a datetime, which Python renders through [repr] and [str], does
    not reach it in the program; their text here is not Python's, and
    what is proved of rendered text is proved of scalars. *)
Definition format_value (v : Value) : string :=
  match v with
  | VNone => "None"
  | VBool true => "True"
  | VBool false => "False"
  | VInt z => NilZero.string_of_int (Z.to_int z)
  | VStr s => s
  | VTuple l => "(" ++ String.concat ", " l ++ ")"
  | VSet l => "{" ++ String.concat ", " l ++ "}"
  | VDateTime d => NilZero.string_of_int (Z.to_int d)
  end.

Definition is_scalar (v : Value) : bool :=
  match v with
  | VNone | VBool _ | VInt _ | VStr _ => true
  | _ => false
  end.

(** A result row: named fields in column order. *)
Definition Row := list (string * Value).

Fixpoint assoc {A : Type} (k : string) (l : list (string * A)) : option A :=
  match l with
  | [] => None
  | (k', v) :: l' => if String.eqb k k' then Some v else assoc k l'
  end.

Fixpoint assoc_remove {A : Type} (k : string) (l : list (string * A))
  : list (string * A) :=
  match l with
  | [] => []
  | (k', v) :: l' =>
      if String.eqb k k' then assoc_remove k l' else (k', v) :: assoc_remove k l'
  end.

(** [d[k] = v] on an insertion-ordered dict. *)
Fixpoint assoc_set {A : Type} (k : string) (v : A) (l : list (string * A))
  : list (string * A) :=
  match l with
  | [] => [(k, v)]
  | (k', v') :: l' =>
      if String.eqb k k' then (k, v) :: l' else (k', v') :: assoc_set k v l'
  end.

(* ===================================================================== *)
(** ** Exceptions                                                         *)
(* ===================================================================== *)

(** The exception classes of [sssm/exceptions.py] that the modelled code
    raises, the builtin ones it can run into, [DriverError] for an exception
    raised by the cursor itself and [RecursionLimit] for an exhausted
    recursion budget of [align_entity]. *)
Inductive Exn :=
| DBError
| DBObjectDoesntExistError
| DBNotAlteredAttributeError
| InvalidDBEntityChildError
| AttributeError
| NotImplementedError
| AssertionError
| ValueError
| TypeError
| KeyError
| IndexError
| EOFError
| PyException
| DriverError
| RecursionLimit.

Inductive Outcome (A : Type) :=
| Ok (a : A)
| Raise (e : Exn).
Arguments Ok {A} a.
Arguments Raise {A} e.

(** [except DBObjectDoesntExistError]: the class has no subclasses. *)
Definition is_DoesntExist (e : Exn) : bool :=
  match e with DBObjectDoesntExistError => true | _ => false end.

(* ===================================================================== *)
(** ** The declared tree (declared.py)                                    *)
(* ===================================================================== *)

(** The stored [ignore_extra_children]: [None], a bool, or a set of child
    type names (a list or tuple argument is turned into a set). *)
Inductive Ignore :=
| IgnoreNone
| IgnoreBool (b : bool)
| IgnoreSet (names : list string).

(** A [DeclaredEntity] instance.  [d_children] is the [children] dict
    (child type to list, in insertion order); [d_attrs] holds the instance
    attributes set from the registry names. *)
#[warnings="-register-all"]
Inductive Declared := mkDeclared {
  d_type : ObjType;
  d_name : string;
  d_old_name : option string;
  d_ignore : Ignore;
  d_children : list (ObjType * list Declared);
  d_attrs : list (string * Value)
}.

Definition set_d_name (d : Declared) (n : string) : Declared :=
  mkDeclared (d_type d) n (d_old_name d) (d_ignore d) (d_children d) (d_attrs d).

Definition set_d_children (d : Declared) (c : list (ObjType * list Declared))
  : Declared :=
  mkDeclared (d_type d) (d_name d) (d_old_name d) (d_ignore d) c (d_attrs d).

Fixpoint children_get (t : ObjType) (c : list (ObjType * list Declared))
  : option (list Declared) :=
  match c with
  | [] => None
  | (t', l) :: c' => if ObjType_eqb t t' then Some l else children_get t c'
  end.

Fixpoint children_set (t : ObjType) (l : list Declared)
         (c : list (ObjType * list Declared)) : list (ObjType * list Declared) :=
  match c with
  | [] => [(t, l)]
  | (t', l') :: c' =>
      if ObjType_eqb t t' then (t, l) :: c' else (t', l') :: children_set t l c'
  end.

(** [DeclaredEntity.ignore_extra_children_type] *)
Definition ignore_extra_children_type (d : Declared) (child_type : ObjType)
  : bool :=
  match d_ignore d with
  | IgnoreSet names => str_in (object_type_name child_type) names
  | IgnoreBool b => b
  | IgnoreNone => false
  end.

(** [DeclaredEntity.add_child] *)
Definition add_child (d : Declared) (declared_child : Declared)
  : Outcome Declared :=
  if negb (existsb (ObjType_eqb (d_type declared_child))
                   (declared_child_types (d_type d)))
  then Raise InvalidDBEntityChildError
  else
    let t := d_type declared_child in
    let existing :=
      match children_get t (d_children d) with
      | Some l => l
      | None => []
      end in
    Ok (set_d_children d (children_set t (existing ++ [declared_child])
                                       (d_children d))).

(** [DeclaredEntity.get_children] : the list, or [None]. *)
Definition declared_get_children (d : Declared) (child_type : ObjType)
  : option (list Declared) :=
  children_get child_type (d_children d).

(** [DeclaredEntity.get_child]: iterating [None] is a [TypeError]; the
    [for ... else] raises [InvalidDBEntityChildError]. *)
Definition declared_get_child (d : Declared) (child_type : ObjType)
           (child_name : string) : Outcome Declared :=
  match declared_get_children d child_type with
  | None => Raise TypeError
  | Some l =>
      match find (fun c => String.eqb (d_name c) child_name) l with
      | Some c => Ok c
      | None => Raise InvalidDBEntityChildError
      end
  end.

(** Attribute lookup [getattr(declared_obj, attr_name)] for the name of
    a registry attribute, which is what every call of the program passes:
    the value stored by the attribute loop of [__init__], and
    [AttributeError] when the node has none.  The other attributes of the
    object ([name], [old_name], [children], [ignore_extra_children]) are
    fields of [Declared] and are read as such. *)
Definition declared_getattr (d : Declared) (attr : string) : Outcome Value :=
  match assoc attr (d_attrs d) with
  | Some v => Ok v
  | None => Raise AttributeError
  end.

(** [str(declared_obj)]: only the attribute lookups of the [__str__]
    overrides matter here; a missing one raises. *)
Definition declared_str (d : Declared) : Outcome unit :=
  let need (attrs : list string) : Outcome unit :=
    fold_left (fun acc a =>
                 match acc with
                 | Raise e => Raise e
                 | Ok _ => match declared_getattr d a with
                           | Ok _ => Ok tt
                           | Raise e => Raise e
                           end
                 end) attrs (Ok tt) in
  match d_type d with
  | ForeignKeys => need ["column"; "foreign_schema"; "foreign_table"; "foreign_column"]
  | PrimaryKeys => need ["columns"]
  | Indexes => need ["columns"; "included_columns"]
  | Partitions => need ["column"]
  | Users => if String.eqb (d_name d) "" then need ["login_name"] else Ok tt
  | _ => Ok tt
  end.

(** [DeclaredEntity.display_details]: the dict comprehension reads every
    registry attribute, then the node is formatted. *)
Definition declared_display_details (d : Declared) : Outcome unit :=
  match fold_left (fun acc a =>
                     match acc with
                     | Raise e => Raise e
                     | Ok _ => match declared_getattr d a with
                               | Ok _ => Ok tt
                               | Raise e => Raise e
                               end
                     end) (valid_attributes (d_type d)) (Ok tt) with
  | Raise e => Raise e
  | Ok _ => declared_str d
  end.

(** *** Construction *)

(** A keyword argument of [DeclaredEntity.__init__]: an attribute value, a
    single child node or a list of child nodes. *)
Inductive KwArg :=
| KwValue (v : Value)
| KwNode (d : Declared)
| KwNodes (l : list Declared).

Fixpoint add_children (d : Declared) (l : list Declared) : Outcome Declared :=
  match l with
  | [] => Ok d
  | c :: l' =>
      match add_child d c with
      | Ok d' => add_children d' l'
      | Raise e => Raise e
      end
  end.

(** The loop over [self.child_types]: pops each child-type keyword and adds
    the nodes given under it.  A value that is neither a node nor a list of
    nodes is wrapped in a list and refused by [add_child]. *)
Fixpoint init_children (d : Declared) (cts : list ObjType)
         (kwargs : list (string * KwArg))
  : Outcome (Declared * list (string * KwArg)) :=
  match cts with
  | [] => Ok (d, kwargs)
  | ct :: cts' =>
      let key := object_type_name ct in
      let rest := assoc_remove key kwargs in
      match assoc key kwargs with
      | None | Some (KwValue VNone) => init_children d cts' rest
      | Some (KwValue (VTuple [])) => init_children d cts' rest
      | Some (KwValue _) => Raise InvalidDBEntityChildError
      | Some (KwNode c) =>
          match add_children d [c] with
          | Ok d' => init_children d' cts' rest
          | Raise e => Raise e
          end
      | Some (KwNodes l) =>
          match add_children d l with
          | Ok d' => init_children d' cts' rest
          | Raise e => Raise e
          end
      end
  end.

(** The loop [setattr(self, attr_name, kwargs.pop(attr_name))].  Attribute
    values are [Value]s; a node given under an attribute name has no
    counterpart among them and is refused with [TypeError]. *)
Fixpoint init_attributes (attrs : list (string * Value)) (names : list string)
         (kwargs : list (string * KwArg))
  : Outcome (list (string * Value) * list (string * KwArg)) :=
  match names with
  | [] => Ok (attrs, kwargs)
  | a :: names' =>
      match assoc a kwargs with
      | None => Raise KeyError
      | Some (KwValue v) =>
          init_attributes (assoc_set a v attrs) names' (assoc_remove a kwargs)
      | Some _ => Raise TypeError
      end
  end.

(** [DeclaredEntity.__init__] for the class with [object_type = cls]. *)
Definition DeclaredEntity_init (cls : ObjType) (name : option string)
           (old_name : option string) (ignore_extra_children : Ignore)
           (kwargs : list (string * KwArg)) : Outcome Declared :=
  match name with
  | None => Raise DBError
  | Some name =>
      let self := mkDeclared cls (slice_to 128 name) old_name
                             ignore_extra_children [] [] in
      match init_children self (declared_child_types cls) kwargs with
      | Raise e => Raise e
      | Ok (self, kwargs) =>
          match init_attributes [] (valid_attributes cls) kwargs with
          | Raise e => Raise e
          | Ok (attrs, kwargs) =>
              match kwargs with
              | [] => Ok (mkDeclared (d_type self) (d_name self) (d_old_name self)
                                     (d_ignore self) (d_children self) attrs)
              | _ :: _ => Raise ValueError
              end
          end
      end
  end.

(** *** Lookup by a chain of names *)

(** [DeclaredEntity.get_child_by_name].  The loop header reads
    [self.child_objects].  No class of declared.py binds that name and
    [__init__] binds only [name], [old_name], [ignore_extra_children],
    [children], [valid_attributes] and the registry attributes, so the
    lookup can only find an instance attribute of that name.  When there is
    none the lookup raises [AttributeError].  When there is one, the loop
    iterates over an attribute value: an empty one falls through to the
    [else] branch, a non-empty one yields strings, on which
    [child_class.object_type] raises, and a scalar is not iterable. *)
Definition declared_get_child_by_name (d : Declared) (name : string)
  : Outcome Declared :=
  match assoc "child_objects" (d_attrs d) with
  | None => Raise AttributeError
  | Some (VTuple []) | Some (VSet []) | Some (VStr EmptyString) =>
      Raise DBObjectDoesntExistError
  | Some (VTuple _) | Some (VSet _) | Some (VStr _) => Raise AttributeError
  | Some _ => Raise TypeError
  end.

(** [DeclaredEntity.get_object_by_id], called with a chain of names *)
Fixpoint declared_get_object_by_id (d : Declared) (object_names : list string)
  : Outcome Declared :=
  match object_names with
  | [] => Raise IndexError
  | n :: rest =>
      match declared_get_child_by_name d n with
      | Raise e => Raise e
      | Ok child_obj =>
          match rest with
          | [] => Ok child_obj
          | _ :: _ => declared_get_object_by_id child_obj rest
          end
      end
  end.

(** What the specification asks of the chain lookup, in its own words: at
    each step try every allowed child type of the current node for a child
    with the given name, return it when one matches, and fail with the
    not-found error when none does. *)
Fixpoint spec_get_child_by_name (d : Declared) (cts : list ObjType)
         (name : string) : Outcome Declared :=
  match cts with
  | [] => Raise DBObjectDoesntExistError
  | ct :: cts' =>
      match declared_get_children d ct with
      | None => spec_get_child_by_name d cts' name
      | Some l =>
          match find (fun c => String.eqb (d_name c) name) l with
          | Some c => Ok c
          | None => spec_get_child_by_name d cts' name
          end
      end
  end.

Fixpoint spec_get_object_by_id (d : Declared) (object_names : list string)
  : Outcome Declared :=
  match object_names with
  | [] => Raise IndexError
  | n :: rest =>
      match spec_get_child_by_name d (declared_child_types (d_type d)) n with
      | Raise e => Raise e
      | Ok child_obj =>
          match rest with
          | [] => Ok child_obj
          | _ :: _ => spec_get_object_by_id child_obj rest
          end
      end
  end.

(* ===================================================================== *)
(** ** Reflected nodes, statements, events and the world                  *)
(* ===================================================================== *)

(** What identifies a reflected node: its class, its [name] and its
    [parent] chain ([None] only for the server root). *)
#[warnings="-register-all"]
Inductive Handle := mkHandle {
  h_type : ObjType;
  h_name : string;
  h_parent : option Handle
}.

(** A [ReflectedEntity] instance: identity plus the two caches
    [_attributes] and [_detail_result].  The parent is held through its
    identity: no method reached from a child reads or writes a cache of its
    parent, and [rename] is only ever applied to a node without live
    children objects. *)
Record Reflected := mkReflected {
  r_id : Handle;
  r_attributes : list (string * Value);
  r_detail_result : option Row
}.

Definition r_type (r : Reflected) : ObjType := h_type (r_id r).
Definition r_name (r : Reflected) : string := h_name (r_id r).
Definition r_parent (r : Reflected) : option Handle := h_parent (r_id r).

(** A parent seen from a child: the same node, caches not consulted. *)
Definition of_handle (h : Handle) : Reflected := mkReflected h [] None.

Definition set_r_name (r : Reflected) (n : string) : Reflected :=
  mkReflected (mkHandle (r_type r) n (r_parent r))
              (r_attributes r) (r_detail_result r).

Fixpoint depth (h : Handle) : nat :=
  match h_parent h with
  | None => 0
  | Some p => S (depth p)
  end.

(** An argument substituted into a statement template of sql.py: a piece of
    text, a value, or the day ordinals of the partition boundary list. *)
Inductive Arg :=
| AStr (s : string)
| AVal (v : Value)
| ADays (days : list Z).

(** [sql.TEMPLATE.format(k=v, ...)], sent with extra keyword arguments of
    [execute] ([autocommit], [enforce_db]).  The text is opaque to the
    engine, so a statement is its template name and arguments. *)
Record Sql := mkSql {
  sql_template : string;
  sql_args : list (string * Arg);
  sql_kwargs : list string
}.

Definition fmt (template : string) (args : list (string * Arg)) : Sql :=
  mkSql template args [].

(** The questions put to [input()]. *)
Inductive Prompt :=
| PromptSetAttribute (r : Handle) (attr : string) (new_value : Value)
| PromptRename (r : Handle) (new_name : string)
| PromptDelete (r : Handle)
| PromptMoveDatabaseFile
| PromptFileMoved.

(** The log records, one constructor per [log.*] call of align.py and
    reflected.py; the payload keeps the nodes the text is about. *)
Inductive Msg :=
(* align.py *)
| MsgAligning (d : Declared) (r : Handle)
| MsgAttributeDiffers (r : Handle) (attr : string) (current wanted : Value)
| MsgAligningChildren (rp : Handle) (ct : ObjType) (dp : Declared)
| MsgCheckingChildren (rp : Handle) (ct : ObjType)
| MsgFoundChild (rp : Handle) (c : Handle)
| MsgChildMatches (rp : Handle) (c : Handle)
| MsgChildNotDeclared (rp : Handle) (c : Handle)
(* reflected.py *)
| MsgUnableToCreate (d : Declared)
| MsgNoSetter (r : Handle) (attr : string)
| MsgSetting (r : Handle) (attr : string) (new_value : Value)
| MsgCreating (parent : Handle) (d : Declared)
| MsgRenaming (r : Handle) (new_name : string)
| MsgDeleting (r : Handle)
| MsgDeleteNotAllowed (r : Handle)
| MsgRecreatingIndex (r : Handle)
| MsgComparing (r : Handle) (d : Declared)
| MsgIndexMatches (d : Declared) (r : Handle)
| MsgDroppingUniqueConstraint
| MsgColumnNotAltered (name : string)
| MsgColumnNotDeleted (name : string)
| MsgFoundUser
| MsgUserIsOwner.

(** Points of the program that leave no record of their own: the
    comparison of one attribute (the [if] of [align_entity]), the start of
    the loop body for one declared child in [align_child_type], and the
    assignment [declared_object.name = ps_name] that ends
    [ReflectedPartition._create_ex], the one statement of the program that
    writes to a declared node after its construction. *)
Inductive Step :=
| StepCompare (r : Handle) (attr : string)
| StepDeclaredChild (rp : Handle) (ct : ObjType) (declared_child : Declared)
| StepAssignName (declared_object : Declared) (name : string).

(** What a run does, in order. *)
Inductive Event :=
| EvExecute (q : Sql)
| EvCommit
| EvAutoCommit (on : bool)
| EvInput (p : Prompt)
| EvLog (m : Msg)
| EvStep (s : Step).

(** The state a run threads: the cursor (the backend driver, which answers
    a statement knowing everything the run did before; [None] is an
    exception raised by the driver), the answers waiting on standard input,
    [date.today()] as a day ordinal, the interpreter's budget for nested
    calls, and the events so far. *)
Record World := mkWorld {
  cursor : list Event -> Sql -> option (list Row);
  stdin : list string;
  today : Z;
  recursion_limit : nat;
  trace : list Event
}.

Definition add_event (e : Event) (w : World) : World :=
  mkWorld (cursor w) (stdin w) (today w) (recursion_limit w) (trace w ++ [e]).

(** *** The monad *)

Definition M (A : Type) : Type := World -> Outcome A * World.

Definition ret {A} (a : A) : M A := fun w => (Ok a, w).

Definition raise {A} (e : Exn) : M A := fun w => (Raise e, w).

Definition bind {A B} (m : M A) (f : A -> M B) : M B :=
  fun w =>
    match m w with
    | (Ok a, w') => f a w'
    | (Raise e, w') => (Raise e, w')
    end.

(** [try: m except <catches>: handler] *)
Definition try_except {A} (m : M A) (catches : Exn -> bool) (handler : M A)
  : M A :=
  fun w =>
    match m w with
    | (Ok a, w') => (Ok a, w')
    | (Raise e, w') => if catches e then handler w' else (Raise e, w')
    end.

Definition lift {A} (o : Outcome A) : M A :=
  match o with
  | Ok a => ret a
  | Raise e => raise e
  end.

Definition emit (e : Event) : M unit := fun w => (Ok tt, add_event e w).

Definition log (m : Msg) : M unit := emit (EvLog m).

Declare Scope py_scope.
Delimit Scope py_scope with py.
Notation "x <- c1 ;; c2" := (bind c1 (fun x => c2))
  (at level 61, c1 at next level, right associativity) : py_scope.
Notation "' pat <- c1 ;; c2" := (bind c1 (fun x => match x with pat => c2 end))
  (at level 61, pat pattern, c1 at next level, right associativity) : py_scope.
Notation "c1 ;; c2" := (bind c1 (fun _ => c2))
  (at level 61, right associativity) : py_scope.
Local Open Scope py_scope.

(** [for x in l: body(x)] *)
Fixpoint for_each {A} (l : list A) (body : A -> M unit) : M unit :=
  match l with
  | [] => ret tt
  | x :: l' => body x ;; for_each l' body
  end.

(** [[f(x) for x in l]] *)
Fixpoint map_m {A B} (f : A -> M B) (l : list A) : M (list B) :=
  match l with
  | [] => ret []
  | x :: l' => y <- f x ;; ys <- map_m f l' ;; ret (y :: ys)
  end.

(** [input(prompt)]: shows the prompt, then reads one line. *)
Definition input (p : Prompt) : M string :=
  fun w =>
    match stdin w with
    | [] => (Raise EOFError, add_event (EvInput p) w)
    | a :: rest =>
        (Ok a, add_event (EvInput p)
                 (mkWorld (cursor w) rest (today w) (recursion_limit w) (trace w)))
    end.

Definition date_today : M Z := fun w => (Ok (today w), w).

(** [self.cur.execute(sql_str, **kwargs)] *)
Definition cur_execute (q : Sql) : M (list Row) :=
  fun w =>
    match cursor w (trace w) q with
    | Some rows => (Ok rows, add_event (EvExecute q) w)
    | None => (Raise DriverError, add_event (EvExecute q) w)
    end.

Definition cur_commit : M unit := emit EvCommit.

(** [ReflectedEntity.ex] *)
Definition ex (sql_str : Sql) (commit : bool) : M (list Row) :=
  cur <- cur_execute sql_str ;;
  (if commit then cur_commit else ret tt) ;;
  ret cur.

Definition with_kwargs (q : Sql) (kw : list string) : Sql :=
  mkSql (sql_template q) (sql_args q) kw.

(** [cursor.fetchone()] *)
Definition fetchone (rows : list Row) : option Row := hd_error rows.

(** [row.field]; on [None] (no row) and on a missing field this is an
    [AttributeError]. *)
Definition field (row : option Row) (name : string) : M Value :=
  match row with
  | None => raise AttributeError
  | Some r =>
      match assoc name r with
      | Some v => ret v
      | None => raise AttributeError
      end
  end.

(** [value.lower()] *)
Definition value_lower (v : Value) : M Value :=
  match v with
  | VStr s => ret (VStr (lower s))
  | _ => raise AttributeError
  end.

(** [v in <set of strings>]; an unhashable value raises. *)
Definition value_in (v : Value) (l : list string) : M bool :=
  match v with
  | VStr s => ret (str_in s l)
  | VSet _ => raise TypeError
  | _ => ret false
  end.

(** [self.parent], then [.name] on it *)
Definition parent_of (h : Handle) : M Handle :=
  match h_parent h with
  | Some p => ret p
  | None => raise AttributeError
  end.

(** [ReflectedEntity.full_name], with the default [max_ancestor]. *)
Fixpoint full_name_list (h : Handle) : list string :=
  match h_type h with
  | Databases => [h_name h]
  | _ =>
      match h_parent h with
      | Some p => full_name_list p ++ [h_name h]
      | None => [h_name h]
      end
  end.

Definition full_name (h : Handle) : string :=
  String.concat "." (full_name_list h).

(* ===================================================================== *)
(** ** The reflected classes (reflected.py)                               *)
(* ===================================================================== *)

(** [util.*_TYPES] *)
Definition INT_TYPES := ["bigint"; "int"; "smallint"; "tinyint"].
Definition NUMERIC_TYPES := ["decimal"; "numeric"].
Definition MONEY_TYPES := ["money"; "smallmoney"].
Definition APPROX_NUMBER_TYPES := ["float"; "real"].
Definition DATETIME_NO_PRECISION_TYPES := ["date"; "datetime"; "smalldatetime"].
Definition DATETIME_PRECISION_TYPES := ["time"; "datetime2"; "datetimeoffset"].
Definition CHAR_TYPES :=
  ["char"; "varchar"; "nchar"; "nvarchar"; "binary"; "varbinary"].

(** [cls(parent, name)]: [ReflectedEntity.__init__], with the [extra_init]
    of [ReflectedDatabase].  Names are text; any other non-null name is
    outside the model and refused. *)
Definition new_reflected (cls : ObjType) (parent : Handle) (name : Value)
  : M Reflected :=
  match name with
  | VNone => raise DBError
  | VStr s =>
      match cls with
      | Databases => cur_execute (fmt "USE" [("name", AStr s)]) ;; ret tt
      | _ => ret tt
      end ;;
      ret (mkReflected (mkHandle cls s (Some parent)) [] None)
  | _ => raise TypeError
  end.

(** The [schema=parent.parent.name, table=parent.name] arguments. *)
Definition table_args (schema_key table_key : string) (parent : Handle)
  : M (list (string * Arg)) :=
  gp <- parent_of parent ;;
  ret [(schema_key, AStr (h_name gp)); (table_key, AStr (h_name parent))].

(** The same through [self.parent]. *)
Definition self_table_args (r : Reflected) : M (list (string * Arg)) :=
  p <- parent_of (r_id r) ;;
  table_args "schema" "table" p.

Definition fields_of (rows : list Row) (name : string) : M (list Value) :=
  map_m (fun row => field (Some row) name) rows.

(** [cls._list_names_ex(parent)] *)
Definition list_names_ex (cls : ObjType) (parent : Handle) : M (list Value) :=
  match cls with
  | PrimaryKeys =>
      a <- table_args "schema" "table" parent ;;
      cur <- ex (fmt "TABLE_PK_NAME" a) false ;;
      match fetchone cur with
      | Some row => n <- field (Some row) "name" ;; ret [n]
      | None => ret []
      end
  | Indexes =>
      a <- table_args "schema" "table" parent ;;
      cur <- ex (fmt "TABLE_INDEX_NAMES" a) false ;;
      fields_of cur "name"
  | ForeignKeys =>
      a <- table_args "schema" "table" parent ;;
      cur <- ex (fmt "TABLE_FOREIGN_KEYS" a) false ;;
      fields_of cur "name"
  | Columns =>
      a <- table_args "schema" "table" parent ;;
      cur <- ex (fmt "table_column_details" a) false ;;
      map_m (fun row => n <- field (Some row) "name" ;; value_lower n) cur
  | Partitions =>
      a <- table_args "schema" "table" parent ;;
      cur <- ex (fmt "table_partition_names" a) false ;;
      fields_of cur "ps_name"
  | Tables =>
      cur <- ex (fmt "list_tables_in_schema" [("schema", AStr (h_name parent))]) false ;;
      fields_of cur "name"
  | Schemas =>
      cur <- ex (fmt "LIST_SCHEMAS" [("db_name", AStr (h_name parent))]) false ;;
      fields_of cur "name"
  | Users =>
      cur <- ex (fmt "LIST_USERS" []) false ;;
      fields_of cur "name"
  | Databases =>
      cur <- ex (fmt "LIST_DATABASES" []) false ;;
      fields_of cur "name"
  | Logins =>
      cur <- ex (fmt "LIST_LOGINS" []) false ;;
      fields_of cur "name"
  | Servers => raise NotImplementedError
  end.

Definition has_row (rows : list Row) : bool :=
  match fetchone rows with Some _ => true | None => false end.

(** [cls._name_exists_ex(parent, name)] *)
Definition name_exists_ex (cls : ObjType) (parent : Handle) (name : string)
  : M bool :=
  match cls with
  | PrimaryKeys =>
      a <- table_args "schema" "table" parent ;;
      cur <- ex (fmt "PK_EXISTS" (("index_name", AStr name) :: a)) false ;;
      ret (has_row cur)
  | Indexes =>
      a <- table_args "schema" "table" parent ;;
      cur <- ex (fmt "INDEX_EXISTS" (("index_name", AStr name) :: a)) false ;;
      ret (has_row cur)
  | Columns =>
      a <- table_args "schema" "table" parent ;;
      cur <- ex (fmt "COLUMN_EXISTS" (a ++ [("column_name", AStr name)])) false ;;
      ret (has_row cur)
  | Partitions =>
      a <- table_args "schema" "table" parent ;;
      cur <- ex (fmt "partition_name_exists_on_table"
                     (a ++ [("ps_name", AStr name)])) false ;;
      ret (has_row cur)
  | Tables =>
      a <- table_args "db_name" "schema" parent ;;
      cur <- ex (fmt "TABLE_EXISTS" (a ++ [("table", AStr name)])) false ;;
      ret (has_row cur)
  | Schemas =>
      cur <- ex (fmt "SCHEMA_EXISTS" [("schema", AStr name)]) false ;;
      ret (has_row cur)
  | Users =>
      cur <- ex (fmt "USER_EXISTS" [("user_name", AStr name)]) false ;;
      ret (has_row cur)
  | Databases =>
      cur <- ex (fmt "DB_EXISTS" [("db_name", AStr name)]) false ;;
      ret (has_row cur)
  | Logins =>
      cur <- ex (fmt "LOGIN_EXISTS" [("login_name", AStr name)]) false ;;
      ret (has_row cur)
  | ForeignKeys | Servers => raise NotImplementedError
  end.

(** [self._get_details_ex()] *)
Definition get_details_ex (r : Reflected) : M (option Row) :=
  match r_type r with
  | PrimaryKeys | Indexes =>
      a <- self_table_args r ;;
      cur <- ex (fmt "named_index_details" (a ++ [("index_name", AStr (r_name r))])) false ;;
      ret (fetchone cur)
  | ForeignKeys =>
      a <- self_table_args r ;;
      cur <- ex (fmt "FK_DETAILS" (a ++ [("fk_name", AStr (r_name r))])) false ;;
      ret (fetchone cur)
  | Columns =>
      a <- self_table_args r ;;
      cur <- ex (fmt "column_detail" (a ++ [("column_name", AStr (r_name r))])) false ;;
      ret (fetchone cur)
  | Partitions =>
      a <- self_table_args r ;;
      cur <- ex (fmt "table_partition_details_for_scheme"
                     (a ++ [("ps_name", AStr (r_name r))])) false ;;
      ret (fetchone cur)
  | Tables =>
      p <- parent_of (r_id r) ;;
      cur <- ex (fmt "table_details" [("schema", AStr (h_name p));
                                      ("table", AStr (r_name r))]) false ;;
      ret (fetchone cur)
  | Users =>
      cur <- ex (fmt "USER_DETAIL" [("user_name", AStr (r_name r))]) false ;;
      ret (fetchone cur)
  | Databases =>
      cur <- ex (fmt "DATABASE_DETAIL" [("db_name", AStr (r_name r))]) false ;;
      ret (fetchone cur)
  | Logins =>
      cur <- ex (fmt "LOGIN_DETAIL" [("name", AStr (r_name r))]) false ;;
      ret (fetchone cur)
  | Schemas | Servers => raise NotImplementedError
  end.

(** *** Attribute getters *)

Definition lowered_field (name : string) (row : Row) : M string :=
  v <- field (Some row) name ;;
  match v with
  | VStr s => ret (lower s)
  | _ => raise AttributeError
  end.

(** [ReflectedPrimaryKey.get_attr_columns] *)
Definition get_attr_columns (r : Reflected) : M Value :=
  a <- self_table_args r ;;
  cur <- ex (fmt "index_nonpartition_columns"
                 (a ++ [("index_name", AStr (r_name r))])) false ;;
  non_partition_columns <- map_m (lowered_field "column_name") cur ;;
  match non_partition_columns with
  | _ :: _ => ret (VTuple non_partition_columns)
  | [] =>
      a <- self_table_args r ;;
      cur <- ex (fmt "index_all_columns"
                     (a ++ [("index_name", AStr (r_name r))])) false ;;
      index_column_names <- map_m (lowered_field "column_name") cur ;;
      match index_column_names with
      | [] => raise PyException
      | _ :: _ => ret (VTuple index_column_names)
      end
  end.

(** [ReflectedIndex.get_attr_included_columns] *)
Definition get_attr_included_columns (r : Reflected) : M Value :=
  a <- self_table_args r ;;
  cur <- ex (fmt "index_included_columns"
                 (a ++ [("index_name", AStr (r_name r))])) false ;;
  included_columns <- map_m (lowered_field "column_name") cur ;;
  match included_columns with
  | [] => ret VNone
  | _ :: _ => ret (VSet included_columns)
  end.

(** The [ReflectedColumn] getters that keep a precision only for the data
    types that carry it. *)
Definition column_precision (types : list string) (name : string) (detail : Row)
  : M Value :=
  t <- field (Some detail) "data_type" ;;
  b <- value_in t types ;;
  if b then field (Some detail) name else ret VNone.

(** [int(v) if v else 0]; the text of a number is parsed as a decimal. *)
Definition int_or_zero (v : Value) : M Value :=
  if negb (truthy v) then ret (VInt 0)
  else
    match v with
    | VInt z => ret (VInt z)
    | VBool b => ret (VInt (if b then 1 else 0))
    | VStr s =>
        match NilZero.int_of_string s with
        | Some i => ret (VInt (Z.of_int i))
        | None => raise ValueError
        end
    | _ => raise TypeError
    end.

Definition ALL_SERVER_ROLES :=
  ["sysadmin"; "securityadmin"; "serveradmin"; "setupadmin"; "processadmin";
   "diskadmin"; "dbcreator"; "bulkadmin"].

(** Text elements of a collection built from row fields. *)
Definition as_text (v : Value) : M string :=
  match v with
  | VStr s => ret s
  | _ => raise TypeError
  end.

(** [getattr(self, 'get_attr_' + attribute_name, None)] applied to the
    detail row, when the class defines that method. *)
Definition getter (cls : ObjType) (attr : string)
  : option (Reflected -> Row -> M Value) :=
  match cls with
  | PrimaryKeys | Indexes =>
      if String.eqb attr "columns" then Some (fun r _ => get_attr_columns r)
      else if String.eqb attr "clustered" then
        Some (fun _ detail =>
                t <- field (Some detail) "type_desc" ;;
                ret (VBool (py_eq t (VStr "CLUSTERED"))))
      else if String.eqb attr "included_columns" then
        match cls with
        | Indexes => Some (fun r _ => get_attr_included_columns r)
        | _ => None
        end
      else None
  | Columns =>
      if String.eqb attr "nullable" then
        Some (fun _ detail => v <- field (Some detail) "nullable" ;;
                              ret (VBool (truthy v)))
      else if String.eqb attr "identity" then
        Some (fun _ detail => v <- field (Some detail) "identity" ;;
                              ret (VBool (truthy v)))
      else if String.eqb attr "numeric_precision" then
        Some (fun _ => column_precision (NUMERIC_TYPES ++ APPROX_NUMBER_TYPES)
                                        "numeric_precision")
      else if String.eqb attr "numeric_scale" then
        Some (fun _ => column_precision NUMERIC_TYPES "numeric_scale")
      else if String.eqb attr "datetime_precision" then
        Some (fun _ => column_precision DATETIME_PRECISION_TYPES
                                        "datetime_precision")
      else if String.eqb attr "char_max_len" then
        Some (fun _ => column_precision CHAR_TYPES "char_max_len")
      else None
  | Partitions =>
      if String.eqb attr "column" then
        Some (fun _ detail => s <- lowered_field "column_name" detail ;;
                              ret (VStr s))
      else None
  | Users =>
      if String.eqb attr "db_roles" then
        Some (fun r _ =>
                cur <- ex (fmt "get_user_roles"
                               [("user_name", AStr (r_name r))]) false ;;
                roles <- map_m (fun row => v <- field (Some row) "role_name" ;;
                                           as_text v) cur ;;
                ret (VSet roles))
      else None
  | Databases =>
      if String.eqb attr "data_size" then
        Some (fun r _ =>
                cur <- ex (fmt "db_sizes" [("db_name", AStr (r_name r))]) false ;;
                ds <- field (fetchone cur) "row_size_mb" ;;
                int_or_zero ds)
      else if String.eqb attr "log_size" then
        Some (fun r _ =>
                cur <- ex (fmt "db_sizes" [("db_name", AStr (r_name r))]) false ;;
                ls <- field (fetchone cur) "log_size_mb" ;;
                int_or_zero ls)
      else if String.eqb attr "data_file_path" then
        Some (fun r _ =>
                cur <- ex (fmt "db_file_info" [("db_name", AStr (r_name r));
                                               ("file_type", AStr "ROWS")]) false ;;
                field (fetchone cur) "physical_name")
      else if String.eqb attr "log_file_path" then
        Some (fun r _ =>
                cur <- ex (fmt "db_file_info" [("db_name", AStr (r_name r));
                                               ("file_type", AStr "LOG")]) false ;;
                field (fetchone cur) "physical_name")
      else None
  | Logins =>
      if String.eqb attr "server_roles" then
        Some (fun _ detail =>
                flags <- map_m (fun role => v <- field (Some detail) role ;;
                                            ret (role, py_eq v (VInt 1)))
                               ALL_SERVER_ROLES ;;
                ret (VSet (map fst (filter snd flags))))
      else if String.eqb attr "password" then
        Some (fun _ _ => ret (VStr "dummypassword"))
      else None
  | _ => None
  end.

(** [ReflectedEntity.read_attribute] *)
Definition read_attribute (r : Reflected) (detail_result : Row)
           (attribute_name : string) : M Value :=
  match getter (r_type r) attribute_name with
  | Some method => method r detail_result
  | None => field (Some detail_result) attribute_name
  end.

(** [ReflectedEntity.__getattr__], given the way details are fetched. *)
Definition getattr_with (get_details : Reflected -> M Row) (r : Reflected)
           (item : string) : M (Value * Reflected) :=
  if negb (str_in item (valid_attributes (r_type r))) then raise AttributeError
  else
    detail <- match r_detail_result r with
              | Some d => ret d
              | None => get_details r
              end ;;
    let r1 := mkReflected (r_id r) (r_attributes r) (Some detail) in
    match assoc item (r_attributes r1) with
    | Some v => ret (v, r1)
    | None =>
        v <- read_attribute r1 detail item ;;
        ret (v, mkReflected (r_id r1) (assoc_set item v (r_attributes r1))
                            (Some detail))
    end.

(** [str(self)]: [ReflectedPrimaryKey.__str__] and [ReflectedIndex.__str__]
    read attributes; the other classes only use names. *)
Definition str_with (get_details : Reflected -> M Row) (r : Reflected)
  : M Reflected :=
  match r_type r with
  | PrimaryKeys =>
      '(_, r1) <- getattr_with get_details r "columns" ;;
      ret r1
  | Indexes =>
      '(_, r1) <- getattr_with get_details r "columns" ;;
      '(inc, r2) <- getattr_with get_details r1 "included_columns" ;;
      if truthy inc then
        '(_, r3) <- getattr_with get_details r2 "included_columns" ;;
        ret r3
      else ret r2
  | _ => ret r
  end.

(** [ReflectedEntity.get_details].  The message of the error formats
    [self]; for a primary key or index that reads [self.columns], which
    enters [get_details] again, as long as the interpreter allows. *)
Fixpoint get_details_fuel (fuel : nat) (r : Reflected) : M Row :=
  details <- get_details_ex r ;;
  match details with
  | Some row => ret row
  | None =>
      match r_type r with
      | PrimaryKeys | Indexes =>
          match fuel with
          | 0 => raise RecursionLimit
          | S fuel' => str_with (get_details_fuel fuel') r ;; raise DBError
          end
      | _ => raise DBError
      end
  end.

Definition get_details (r : Reflected) : M Row :=
  fun w => get_details_fuel (recursion_limit w) r w.

Definition getattr_reflected : Reflected -> string -> M (Value * Reflected) :=
  getattr_with get_details.

Definition str_reflected : Reflected -> M Reflected := str_with get_details.

Fixpoint read_all (r : Reflected) (attrs : list string) : M Reflected :=
  match attrs with
  | [] => ret r
  | a :: attrs' => '(_, r1) <- getattr_reflected r a ;; read_all r1 attrs'
  end.

(** [ReflectedEntity.display_details] *)
Definition reflected_display_details (r : Reflected) : M Reflected :=
  r1 <- read_all r (valid_attributes (r_type r)) ;;
  str_reflected r1.

(** [ReflectedEntity.reset_attribute] *)
Definition reset_attribute (r : Reflected) (attribute_name : string)
  : Reflected :=
  mkReflected (r_id r) (assoc_remove attribute_name (r_attributes r)) None.

(** [ReflectedEntity.reset_all_attributes] *)
Definition reset_all_attributes (r : Reflected) : Reflected :=
  mkReflected (r_id r) [] None.

(** *** Finding live nodes *)

(** [cls.system_names] *)
Definition system_names (cls : ObjType) : list string :=
  match cls with
  | Schemas => ["sys"; "guest"; "INFORMATION_SCHEMA"]
  | Users => ["dbo"; "guest"; "sys"; "INFORMATION_SCHEMA"]
  | Databases => ["master"; "tempdb"; "model"; "msdb"; "ReportServer";
                  "ReportServerTempDB"]
  | Logins => ["##MS_PolicyTsqlExecutionLogin##"; "GCT";
               "##MS_PolicyEventProcessingLogin##"; "sa"]
  | _ => []
  end.

Definition is_system_name (cls : ObjType) (name : Value) : bool :=
  match name with
  | VStr s => str_in s (system_names cls)
  | _ => false
  end.

(** [cls.all_for_parent(parent)] *)
Definition all_for_parent (cls : ObjType) (parent : Handle)
  : M (list Reflected) :=
  names <- list_names_ex cls parent ;;
  map_m (new_reflected cls parent)
        (filter (fun name => negb (is_system_name cls name)) names).

(** [self.get_child_class_from_name(child_type)] *)
Definition get_child_class_from_name (self : Handle) (child_type : ObjType)
  : M ObjType :=
  if existsb (ObjType_eqb child_type) (reflected_child_types (h_type self))
  then ret child_type
  else raise InvalidDBEntityChildError.

(** [self.get_children(child_type)] *)
Definition get_children (self : Handle) (child_type : ObjType)
  : M (list Reflected) :=
  child_class <- get_child_class_from_name self child_type ;;
  all_for_parent child_class self.

(** [cls.by_name(parent, name)] *)
Definition by_name (cls : ObjType) (parent : Handle) (name : string)
  : M Reflected :=
  if String.eqb name "" then raise DBObjectDoesntExistError
  else
    found <- name_exists_ex cls parent name ;;
    if found then new_reflected cls parent (VStr name)
    else raise DBObjectDoesntExistError.

(** [self.get_child(child_type, name)] *)
Definition get_child (self : Handle) (child_type : ObjType) (name : string)
  : M Reflected :=
  child_class <- get_child_class_from_name self child_type ;;
  by_name child_class self name.

Fixpoint first_child_by_name (self : Handle) (cts : list ObjType)
         (name : string) : M Reflected :=
  match cts with
  | [] => raise DBObjectDoesntExistError
  | child_class :: cts' =>
      try_except (get_child self child_class name) is_DoesntExist
                 (first_child_by_name self cts' name)
  end.

(** [ReflectedEntity.get_child_by_name] *)
Definition reflected_get_child_by_name (self : Handle) (name : string)
  : M Reflected :=
  first_child_by_name self (reflected_child_types (h_type self)) name.

(** *** Equality against a declared node *)

(** The default [ReflectedEntity.equate_declared]. *)
Definition equate_by_name (r : Reflected) (d : Declared) : bool :=
  String.eqb (lower (r_name r)) (lower (d_name d))
  || match d_old_name d with
     | Some old => negb (String.eqb old "")
                   && String.eqb (lower (r_name r)) (lower old)
     | None => false
     end.

(** [ReflectedPrimaryKey.equate_declared] *)
Definition equate_columns (r : Reflected) (d : Declared) : M (bool * Reflected) :=
  r1 <- str_reflected r ;;
  lift (declared_str d) ;;
  log (MsgComparing (r_id r) d) ;;
  '(columns, r2) <- getattr_reflected r1 "columns" ;;
  declared_columns <- lift (declared_getattr d "columns") ;;
  ret (py_eq columns declared_columns, r2).

(** [self.<attr> == declared_obj.<attr>] *)
Definition equate_attribute (attr : string) (r : Reflected) (d : Declared)
  : M (bool * Reflected) :=
  '(mine, r1) <- getattr_reflected r attr ;;
  theirs <- lift (declared_getattr d attr) ;;
  ret (py_eq mine theirs, r1).

(** [self.equate_declared(declared_obj)], by class. *)
Definition equate_declared (r : Reflected) (d : Declared) : M (bool * Reflected) :=
  match r_type r with
  | PrimaryKeys => equate_columns r d
  | Indexes =>
      '(same_columns, r1) <- equate_columns r d ;;
      if same_columns then equate_attribute "included_columns" r1 d
      else ret (false, r1)
  | Partitions => equate_attribute "column" r d
  | Users => equate_attribute "login_name" r d
  | _ => ret (equate_by_name r d, r)
  end.

(** [ReflectedEntity.__eq__] against a declared node: the truth value of
    [self.object_type and self.object_type == other.object_type and
    self.equate_declared(other)]. *)
Definition reflected_eq (r : Reflected) (d : Declared) : M (bool * Reflected) :=
  if ObjType_eqb (r_type r) (d_type d) then equate_declared r d
  else ret (false, r).

(** [DeclaredEntity.__eq__] against a reflected node: [return other == self]. *)
Definition declared_eq (d : Declared) (r : Reflected) : M (bool * Reflected) :=
  reflected_eq r d.

(** *** Matching a declared node: [from_declared] *)

(** The strings a value yields when iterated. *)
Definition iter_strs (v : Value) : M (list string) :=
  match v with
  | VTuple l | VSet l => ret l
  | VStr s => ret (chars_of s)
  | _ => raise TypeError
  end.

(** [sep.join(v)] *)
Definition join_value (sep : string) (v : Value) : M string :=
  l <- iter_strs v ;;
  ret (String.concat sep l).

Fixpoint all_fields_match (fk_detail : option Row) (d : Declared)
         (attrs : list string) : M bool :=
  match attrs with
  | [] => ret true
  | attr :: attrs' =>
      mine <- field fk_detail attr ;;
      theirs <- lift (declared_getattr d attr) ;;
      if py_eq mine theirs then all_fields_match fk_detail d attrs'
      else ret false
  end.

Fixpoint find_foreign_key (parent : Handle) (d : Declared) (names : list Value)
  : M Reflected :=
  match names with
  | [] => lift (declared_str d) ;; raise DBObjectDoesntExistError
  | fk_name :: names' =>
      a <- table_args "schema" "table" parent ;;
      cur <- ex (fmt "FK_DETAILS" (a ++ [("fk_name", AVal fk_name)])) false ;;
      same <- all_fields_match (fetchone cur) d
                ["column"; "foreign_schema"; "foreign_table"; "foreign_column"] ;;
      if same then new_reflected ForeignKeys parent fk_name
      else find_foreign_key parent d names'
  end.

Fixpoint find_index (d : Declared) (indexes : list Reflected) : M Reflected :=
  match indexes with
  | [] => lift (declared_str d) ;; raise DBObjectDoesntExistError
  | index :: indexes' =>
      '(same, index1) <- reflected_eq index d ;;
      if same then
        lift (declared_str d) ;;
        index2 <- str_reflected index1 ;;
        log (MsgIndexMatches d (r_id index)) ;;
        ret index2
      else find_index d indexes'
  end.

(** [cls.from_declared(parent, declared_obj)] *)
Definition from_declared (cls : ObjType) (parent : Handle) (d : Declared)
  : M Reflected :=
  match cls with
  | PrimaryKeys =>
      a <- table_args "schema_name" "table_name" parent ;;
      pk_details <- ex (fmt "TABLE_PK_COLUMNS" a) false ;;
      live <- map_m (lowered_field "column_name") pk_details ;;
      declared_columns <- lift (declared_getattr d "columns") ;;
      wanted <- iter_strs declared_columns ;;
      if strs_eqb live (map lower wanted) then
        match pk_details with
        | [] => raise IndexError
        | first :: _ =>
            pk_name <- field (Some first) "pk_name" ;;
            new_reflected cls parent pk_name
        end
      else lift (declared_str d) ;; raise DBObjectDoesntExistError
  | Indexes =>
      indexes <- all_for_parent cls parent ;;
      find_index d indexes
  | ForeignKeys =>
      names <- list_names_ex cls parent ;;
      find_foreign_key parent d names
  | Partitions =>
      a <- table_args "schema" "table" parent ;;
      column <- lift (declared_getattr d "column") ;;
      cur <- ex (fmt "table_partition_details_for_column"
                     (a ++ [("column_name", AVal column)])) false ;;
      match fetchone cur with
      | Some partition_detail =>
          ps_name <- field (Some partition_detail) "ps_name" ;;
          new_reflected cls parent ps_name
      | None => lift (declared_str d) ;; raise DBObjectDoesntExistError
      end
  | Users =>
      login_name <- lift (declared_getattr d "login_name") ;;
      cur <- ex (fmt "USER_FOR_LOGIN" [("login_name", AVal login_name)]) false ;;
      match fetchone cur with
      | Some login_user =>
          field (Some login_user) "name" ;;
          field (Some login_user) "login_name" ;;
          log MsgFoundUser ;;
          name <- field (Some login_user) "name" ;;
          new_reflected cls parent name
      | None => raise DBObjectDoesntExistError
      end
  | _ => by_name cls parent (d_name d)
  end.

(** [self.get_child_from_declared(declared_child)] *)
Definition get_child_from_declared (self : Handle) (d : Declared) : M Reflected :=
  child_class <- get_child_class_from_name self (d_type d) ;;
  from_declared child_class self d.

(** *** Column definitions (util.py) *)

(** [util.data_type_representation] *)
Definition data_type_representation (data_type char_max_len datetime_precision
                                     numeric_precision numeric_scale : Value)
  : M string :=
  plain <- value_in data_type
             (INT_TYPES ++ MONEY_TYPES ++ DATETIME_NO_PRECISION_TYPES) ;;
  if plain then ret (format_value data_type)
  else
    numeric <- value_in data_type (NUMERIC_TYPES ++ APPROX_NUMBER_TYPES) ;;
    if numeric then
      match numeric_precision with
      | VNone => raise ValueError
      | _ =>
          exact <- value_in data_type NUMERIC_TYPES ;;
          match exact, numeric_scale with
          | true, VNone | false, _ =>
              ret (format_value data_type ++ "("
                   ++ format_value numeric_precision ++ ")")%string
          | true, _ =>
              ret (format_value data_type ++ "("
                   ++ format_value numeric_precision ++ ","
                   ++ format_value numeric_scale ++ ")")%string
          end
      end
    else
      timed <- value_in data_type DATETIME_PRECISION_TYPES ;;
      if timed then
        ret (format_value data_type ++ "("
             ++ format_value datetime_precision ++ ")")%string
      else
        chars <- value_in data_type CHAR_TYPES ;;
        if chars then
          match char_max_len with
          | VNone => raise ValueError
          | _ => ret (format_value data_type ++ "("
                      ++ format_value char_max_len ++ ")")%string
          end
        else raise ValueError.

(** [util.column_sql_representation] *)
Definition column_sql_representation (name : string)
           (data_type identity nullable char_max_len datetime_precision
            numeric_precision numeric_scale : Value) : M string :=
  type_text <- data_type_representation data_type char_max_len
                 datetime_precision numeric_precision numeric_scale ;;
  ret (String.concat " "
         ([name; type_text]
          ++ (if truthy identity then ["IDENTITY(1,1)"] else [])
          ++ [if truthy nullable then "NULL" else "NOT NULL"])).

(** [Column.sql_representation] of a declared column; the other declared
    classes have no such method. *)
Definition declared_sql_representation (d : Declared) : M string :=
  match d_type d with
  | Columns =>
      data_type <- lift (declared_getattr d "data_type") ;;
      identity <- lift (declared_getattr d "identity") ;;
      nullable <- lift (declared_getattr d "nullable") ;;
      char_max_len <- lift (declared_getattr d "char_max_len") ;;
      datetime_precision <- lift (declared_getattr d "datetime_precision") ;;
      numeric_precision <- lift (declared_getattr d "numeric_precision") ;;
      numeric_scale <- lift (declared_getattr d "numeric_scale") ;;
      column_sql_representation (d_name d) data_type identity nullable
        char_max_len datetime_precision numeric_precision numeric_scale
  | _ => raise AttributeError
  end.

(** [ReflectedColumn.data_type_representation] *)
Definition reflected_data_type_representation (r : Reflected)
  : M (string * Reflected) :=
  '(data_type, r) <- getattr_reflected r "data_type" ;;
  '(char_max_len, r) <- getattr_reflected r "char_max_len" ;;
  '(datetime_precision, r) <- getattr_reflected r "datetime_precision" ;;
  '(numeric_precision, r) <- getattr_reflected r "numeric_precision" ;;
  '(numeric_scale, r) <- getattr_reflected r "numeric_scale" ;;
  text <- data_type_representation data_type char_max_len datetime_precision
            numeric_precision numeric_scale ;;
  ret (text, r).

(** *** Creating and re-creating indexes and primary keys *)

(** The [from_obj] argument of [create_helper]: a declared or a reflected
    index. *)
Inductive FromObj :=
| FromDeclared (d : Declared)
| FromReflected (r : Reflected).

Definition from_name (o : FromObj) : string :=
  match o with
  | FromDeclared d => d_name d
  | FromReflected r => r_name r
  end.

Definition from_getattr (o : FromObj) (attr : string) : M (Value * FromObj) :=
  match o with
  | FromDeclared d => v <- lift (declared_getattr d attr) ;; ret (v, o)
  | FromReflected r =>
      '(v, r1) <- getattr_reflected r attr ;; ret (v, FromReflected r1)
  end.

(** [name or from_obj.name] *)
Definition name_or (name : option string) (from_obj : FromObj) : string :=
  match name with
  | Some n => if String.eqb n "" then from_name from_obj else n
  | None => from_name from_obj
  end.

(** [cls.create_helper(parent, from_obj, name, drop_existing, create_on)]
    of [ReflectedPrimaryKey] and [ReflectedIndex]. *)
Definition create_helper (cls : ObjType) (parent : Handle) (from_obj : FromObj)
           (name : option string) (drop_existing : bool)
           (create_on : option string) : M FromObj :=
  let name := name_or name from_obj in
  match cls with
  | Indexes =>
      '(included, from_obj) <- from_getattr from_obj "included_columns" ;;
      include_str <-
        (if truthy included then
           '(included, _) <- from_getattr from_obj "included_columns" ;;
           joined <- join_value ", " included ;;
           ret ("INCLUDE (" ++ joined ++ ")")%string
         else ret "") ;;
      create_on <-
        match create_on with
        | Some target => ret target
        | None =>
            table_partitions <- get_children parent Partitions ;;
            match table_partitions with
            | partition :: _ =>
                '(column, _) <- getattr_reflected partition "column" ;;
                ret (r_name partition ++ "(" ++ format_value column ++ ")")%string
            | [] => ret "[PRIMARY]"
            end
        end ;;
      a <- table_args "schema" "table" parent ;;
      '(columns, from_obj) <- from_getattr from_obj "columns" ;;
      joined <- join_value ", " columns ;;
      '(unique, from_obj) <- from_getattr from_obj "unique" ;;
      '(clustered, from_obj) <- from_getattr from_obj "clustered" ;;
      '(compression, from_obj) <- from_getattr from_obj "compression" ;;
      ex (fmt "CREATE_INDEX"
              (a ++ [("name", AStr name); ("columns", AStr joined);
                     ("unique", AStr (if truthy unique then "UNIQUE" else ""));
                     ("clustering", AStr (if truthy clustered then "CLUSTERED"
                                          else "NONCLUSTERED"));
                     ("drop_existing", AStr (if drop_existing then "ON"
                                             else "OFF"));
                     ("include", AStr include_str);
                     ("compression", AVal compression);
                     ("create_on", AStr create_on)])) false ;;
      ret from_obj
  | PrimaryKeys =>
      a <- table_args "schema" "table" parent ;;
      '(columns, from_obj) <- from_getattr from_obj "columns" ;;
      joined <- join_value ", " columns ;;
      '(clustered, from_obj) <- from_getattr from_obj "clustered" ;;
      '(compression, from_obj) <- from_getattr from_obj "compression" ;;
      ex (fmt "CREATE_PK"
              (a ++ [("pk_name", AStr name); ("columns", AStr joined);
                     ("clustering", AStr (if truthy clustered then "CLUSTERED"
                                          else "NONCLUSTERED"));
                     ("compression", AVal compression)])) false ;;
      ret from_obj
  | _ => raise AttributeError
  end.

(** [self.recreate_new_attributes(declared_obj)] *)
Definition recreate_new_attributes (r : Reflected) (d : Declared) : M unit :=
  parent <- parent_of (r_id r) ;;
  create_helper (r_type r) parent (FromDeclared d) (Some (r_name r)) true None ;;
  ret tt.

(** [self.recreate_new_filegroup(create_on)] *)
Definition recreate_new_filegroup (r : Reflected) (create_on : string)
  : M unit :=
  r1 <- str_reflected r ;;
  log (MsgRecreatingIndex (r_id r)) ;;
  parent <- parent_of (r_id r1) ;;
  create_helper (r_type r1) parent (FromReflected r1) None true (Some create_on) ;;
  ret tt.

(** *** [ReflectedTable] helpers; on any other class the method is missing *)

Definition table_method {A} (self : Handle) (body : M A) : M A :=
  match h_type self with
  | Tables => body
  | _ => raise AttributeError
  end.

Fixpoint filter_m {A} (keep : A -> M (bool * A)) (l : list A) : M (list A) :=
  match l with
  | [] => ret []
  | x :: l' =>
      '(b, x1) <- keep x ;;
      rest <- filter_m keep l' ;;
      ret (if b then x1 :: rest else rest)
  end.

(** [index.includes_column(column_name)] *)
Definition includes_column (column_name : string) (index : Reflected)
  : M (bool * Reflected) :=
  '(columns, index1) <- getattr_reflected index "columns" ;;
  members <- iter_strs columns ;;
  ret (str_in column_name members, index1).

(** [ReflectedTable.get_indexes_for_column] *)
Definition get_indexes_for_column (self : Handle) (column_name : string)
  : M (list Reflected) :=
  table_method self (
    indexes <- get_children self Indexes ;;
    filter_m (includes_column column_name) indexes).

Definition is_clustered (index : Reflected) : M (bool * Reflected) :=
  '(clustered, index1) <- getattr_reflected index "clustered" ;;
  ret (truthy clustered, index1).

Fixpoint first_clustered (indexes : list Reflected) : M (option Reflected) :=
  match indexes with
  | [] => ret None
  | index :: indexes' =>
      '(b, index1) <- is_clustered index ;;
      if b then ret (Some index1) else first_clustered indexes'
  end.

(** [ReflectedTable.get_clustered_index] *)
Definition get_clustered_index (self : Handle) : M (option Reflected) :=
  table_method self (
    indexes <- get_children self Indexes ;;
    first_clustered indexes).

(** [ReflectedTable.get_nonclustered_indexes] *)
Definition get_nonclustered_indexes (self : Handle) : M (list Reflected) :=
  table_method self (
    indexes <- get_children self Indexes ;;
    filter_m (fun index => '(b, index1) <- is_clustered index ;;
                           ret (negb b, index1)) indexes).

(** [ReflectedTable.recreate_indexes_on_filegroup] *)
Definition recreate_indexes_on_filegroup (self : Handle) (filegroup : string)
  : M unit :=
  table_method self (
    clustered <- get_clustered_index self ;;
    match clustered with
    | None => raise AttributeError
    | Some index => recreate_new_filegroup index filegroup
    end ;;
    others <- get_nonclustered_indexes self ;;
    for_each others (fun index => recreate_new_filegroup index filegroup) ;;
    cur_commit).

(** [ReflectedTable.get_pk_fields] *)
Definition get_pk_fields (self : Handle) : M Value :=
  table_method self (
    pks <- get_children self PrimaryKeys ;;
    match pks with
    | pk :: _ => '(columns, _) <- getattr_reflected pk "columns" ;; ret columns
    | [] => ret VNone
    end).

(** *** Deleting *)

(** [self.can_delete()] *)
Definition can_delete (r : Reflected) : bool :=
  match r_type r with
  | Databases => false
  | _ => true
  end.

(** [ReflectedEntity.delete], given the class's [_delete_ex].  The result
    is what the Python method returns: [False] when the deletion is declined
    or not allowed, and [None] after the object was dropped (the method then
    ends without a [return]). *)
Definition delete_with (delete_ex : Reflected -> M Reflected) (r : Reflected)
  : M (Value * Reflected) :=
  if can_delete r then
    answer <- input (PromptDelete (r_id r)) ;;
    if String.eqb answer "y" then
      log (MsgDeleting (r_id r)) ;;
      r1 <- delete_ex r ;;
      cur_commit ;;
      ret (VNone, r1)
    else ret (VBool false, r)
  else
    r1 <- str_reflected r ;;
    log (MsgDeleteNotAllowed (r_id r)) ;;
    ret (VBool false, r1).

(** [self._delete_ex()] of every class but [ReflectedColumn]. *)
Definition delete_ex_base (r : Reflected) : M Reflected :=
  match r_type r with
  | PrimaryKeys | ForeignKeys =>
      a <- self_table_args r ;;
      ex (fmt "DROP_CONSTRAINT" (a ++ [("constraint_name", AStr (r_name r))]))
         false ;;
      ret r
  | Indexes =>
      details <- get_details_ex r ;;
      is_unique_constraint <- field details "is_unique_constraint" ;;
      if truthy is_unique_constraint then
        log MsgDroppingUniqueConstraint ;;
        a <- self_table_args r ;;
        ex (fmt "DROP_CONSTRAINT" (a ++ [("constraint_name", AStr (r_name r))]))
           false ;;
        ret r
      else
        a <- self_table_args r ;;
        ex (fmt "DROP_INDEX" (("index_name", AStr (r_name r)) :: a)) false ;;
        ret r
  | Partitions =>
      parent <- parent_of (r_id r) ;;
      recreate_indexes_on_filegroup parent "[PRIMARY]" ;;
      ex (fmt "DROP_PARTITION_SCHEME" [("ps_name", AStr (r_name r))]) false ;;
      gp <- parent_of parent ;;
      '(column, r1) <- getattr_reflected r "column" ;;
      let pf_name := ("pf_" ++ h_name gp ++ "_" ++ h_name parent ++ "_"
                      ++ format_value column)%string in
      ex (fmt "DROP_PARTITION_FUNCTION" [("pf_name", AStr pf_name)]) false ;;
      cur_commit ;;
      ret r1
  | Tables =>
      parent <- parent_of (r_id r) ;;
      ex (fmt "DROP_TABLE" [("schema", AStr (h_name parent));
                            ("table", AStr (r_name r))]) false ;;
      ret r
  | Schemas => raise DBError
  | Users =>
      ex (fmt "DROP_USER" [("user_name", AStr (r_name r))]) false ;;
      ret r
  | Logins =>
      ex (fmt "DELETE_LOGIN" [("login_name", AStr (r_name r))]) false ;;
      ret r
  | Columns | Databases | Servers => raise NotImplementedError
  end.

Fixpoint delete_each_index (indexes : list Reflected) : M bool :=
  match indexes with
  | [] => ret true
  | index :: indexes' =>
      '(deleted, _) <- delete_with delete_ex_base index ;;
      if negb (truthy deleted) then ret false
      else delete_each_index indexes'
  end.

(** [ReflectedColumn.drop_associated_indexes].  The nodes deleted here are
    [ReflectedIndex] instances, whose [_delete_ex] is in [delete_ex_base]. *)
Definition drop_associated_indexes (r : Reflected) : M bool :=
  parent <- parent_of (r_id r) ;;
  column_indexes <- get_indexes_for_column parent (r_name r) ;;
  delete_each_index column_indexes.

(** [self._delete_ex()] *)
Definition delete_ex (r : Reflected) : M Reflected :=
  match r_type r with
  | Columns =>
      dropped <- drop_associated_indexes r ;;
      if dropped then
        a <- self_table_args r ;;
        ex (fmt "DROP_COLUMN" (a ++ [("column_name", AStr (r_name r))])) true ;;
        ret r
      else
        log (MsgColumnNotDeleted (r_name r)) ;;
        ret r
  | _ => delete_ex_base r
  end.

(** [ReflectedEntity.delete] *)
Definition delete (r : Reflected) : M (Value * Reflected) :=
  delete_with delete_ex r.

(** *** Creating *)

(** [cls.can_create] *)
Definition can_create (cls : ObjType) : bool :=
  match cls with
  | Logins => false
  | _ => true
  end.

(** A declared attribute used as an object name. *)
Definition text_or_none (v : Value) : M string :=
  match v with
  | VStr s => ret s
  | VNone => ret ""
  | _ => raise TypeError
  end.

(** [cursor.fetchone()[0]] *)
Definition first_column (rows : list Row) : M Value :=
  match fetchone rows with
  | None => raise TypeError
  | Some [] => raise IndexError
  | Some ((_, v) :: _) => ret v
  end.

(** [value.date()] *)
Definition date_of (v : Value) : M Z :=
  match v with
  | VDateTime d => ret d
  | _ => raise AttributeError
  end.

(** [ReflectedPartition._create_ex]; its last statement assigns the
    generated scheme name to [declared_object.name]. *)
Definition partition_create_ex (parent : Handle) (d : Declared) : M Declared :=
  column <- lift (declared_getattr d "column") ;;
  column_name <- text_or_none column ;;
  partition_column <- get_child parent Columns column_name ;;
  '(data_type, partition_column) <- getattr_reflected partition_column "data_type" ;;
  timed <- value_in data_type ["datetime"; "datetime2"] ;;
  if negb timed then
    getattr_reflected partition_column "data_type" ;; raise ValueError
  else
    a <- table_args "schema" "table" parent ;;
    cur <- ex (fmt "min_column_value"
                   (a ++ [("column", AStr (r_name partition_column))])) false ;;
    existing_min_value <- first_column cur ;;
    '(boundary_start_date, boundary_end_date) <-
      (if truthy existing_min_value then
         a <- table_args "schema" "table" parent ;;
         cur <- ex (fmt "max_column_value"
                        (a ++ [("column", AStr (r_name partition_column))]))
                   false ;;
         existing_max_value <- first_column cur ;;
         lo <- date_of existing_min_value ;;
         hi <- date_of existing_max_value ;;
         ret (lo - 5, hi + 5)%Z
       else
         t1 <- date_today ;;
         t2 <- date_today ;;
         ret (t1 - 5, t2 + 5)%Z) ;;
    let boundary_values :=
      map (fun i => (boundary_start_date + Z.of_nat i)%Z)
          (seq 0 (Z.to_nat (boundary_end_date - boundary_start_date))) in
    gp <- parent_of parent ;;
    let suffix := (h_name gp ++ "_" ++ h_name parent ++ "_"
                   ++ r_name partition_column)%string in
    let pf_name := ("pf_" ++ suffix)%string in
    '(column_type, partition_column) <-
      reflected_data_type_representation partition_column ;;
    ex (fmt "CREATE_PARTITION_FUNCTION"
            [("pf_name", AStr pf_name); ("column_type", AStr column_type);
             ("boundary_values", ADays boundary_values)]) false ;;
    let ps_name := ("ps_" ++ suffix)%string in
    ex (fmt "CREATE_PARTITION_SCHEME"
            [("ps_name", AStr ps_name); ("pf_name", AStr pf_name)]) false ;;
    cur_commit ;;
    recreate_indexes_on_filegroup parent
      (ps_name ++ "(" ++ r_name partition_column ++ ")")%string ;;
    emit (EvStep (StepAssignName d ps_name)) ;;
    ret (set_d_name d ps_name).

(** [cls._create_ex(parent, declared_object)]; the result is the declared
    node as the call leaves it. *)
Definition create_ex (cls : ObjType) (parent : Handle) (d : Declared)
  : M Declared :=
  match cls with
  | PrimaryKeys | Indexes =>
      create_helper cls parent (FromDeclared d) None false None ;;
      ret d
  | ForeignKeys =>
      gp <- parent_of parent ;;
      foreign_schema <- lift (declared_getattr d "foreign_schema") ;;
      foreign_table <- lift (declared_getattr d "foreign_table") ;;
      s <- as_text foreign_schema ;;
      t <- as_text foreign_table ;;
      let fk_name := String.concat "_" ["FK"; h_name gp; h_name parent; s; t] in
      a <- table_args "schema" "table" parent ;;
      column <- lift (declared_getattr d "column") ;;
      foreign_schema <- lift (declared_getattr d "foreign_schema") ;;
      foreign_table <- lift (declared_getattr d "foreign_table") ;;
      foreign_column <- lift (declared_getattr d "foreign_column") ;;
      ex (fmt "CREATE_FOREIGN_KEY"
              (a ++ [("fk_name", AStr fk_name); ("column", AVal column);
                     ("foreign_schema", AVal foreign_schema);
                     ("foreign_table", AVal foreign_table);
                     ("foreign_column", AVal foreign_column)])) false ;;
      ret d
  | Columns =>
      column_sql <- declared_sql_representation d ;;
      a <- table_args "schema" "table" parent ;;
      ex (fmt "ADD_COLUMN" (a ++ [("column_def", AStr column_sql)])) false ;;
      ret d
  | Partitions => partition_create_ex parent d
  | Tables =>
      match declared_get_children d Columns with
      | None | Some [] => raise AssertionError
      | Some defined_columns =>
          columns_sql <- map_m declared_sql_representation defined_columns ;;
          ex (fmt "CREATE_TABLE"
                  [("schema", AStr (h_name parent)); ("table", AStr (d_name d));
                   ("columns", AStr (String.concat ", " columns_sql))]) false ;;
          ret d
      end
  | Schemas =>
      ex (fmt "CREATE_SCHEMA" [("schema_name", AStr (d_name d))]) false ;;
      ret d
  | Users =>
      login_name <- lift (declared_getattr d "login_name") ;;
      let user_name := if String.eqb (d_name d) "" then AVal login_name
                       else AStr (d_name d) in
      ex (fmt "CREATE_USER" [("user_name", user_name);
                             ("login_name", AVal login_name)]) false ;;
      db_roles <- lift (declared_getattr d "db_roles") ;;
      roles <- iter_strs db_roles ;;
      for_each roles (fun role_name =>
        ex (fmt "alter_db_role" [("role", AStr role_name); ("action", AStr "ADD");
                                 ("user_name", user_name)]) true ;;
        ret tt) ;;
      ret d
  | Databases =>
      data_size <- lift (declared_getattr d "data_size") ;;
      log_size <- lift (declared_getattr d "log_size") ;;
      data_file_path <- lift (declared_getattr d "data_file_path") ;;
      log_file_path <- lift (declared_getattr d "log_file_path") ;;
      ex (with_kwargs
            (fmt "CREATE_DB"
                 [("db_name", AStr (d_name d)); ("data_size", AVal data_size);
                  ("log_size", AVal log_size);
                  ("data_file_path", AVal data_file_path);
                  ("log_file_path", AVal log_file_path)])
            ["autocommit=True"]) false ;;
      ret d
  | Logins =>
      password <- lift (declared_getattr d "password") ;;
      ex (fmt "CREATE_LOGIN" [("login_name", AStr (d_name d));
                              ("password", AVal password)]) false ;;
      ret d
  | Servers => raise NotImplementedError
  end.

(** [cls.create(parent, declared_object)] *)
Definition create (cls : ObjType) (parent : Handle) (d : Declared) : M Declared :=
  lift (declared_str d) ;;
  log (MsgCreating parent d) ;;
  d1 <- create_ex cls parent d ;;
  cur_commit ;;
  created <- name_exists_ex cls parent (d_name d1) ;;
  if negb created then lift (declared_str d1) ;; raise DBError
  else ret d1.

(** [cls.get_or_create(parent, declared_object)]: the live counterpart, or
    [None], together with the declared node as the call leaves it. *)
Definition get_or_create (cls : ObjType) (parent : Handle) (d : Declared)
  : M (option Reflected * Declared) :=
  try_except
    (r <- from_declared cls parent d ;; ret (Some r, d))
    is_DoesntExist
    (if can_create cls then
       d1 <- create cls parent d ;;
       r <- from_declared cls parent d1 ;;
       ret (Some r, d1)
     else
       lift (declared_str d) ;;
       log (MsgUnableToCreate d) ;;
       ret (None, d)).

(** [self.get_or_create_child(declared_object)] *)
Definition get_or_create_child (self : Handle) (d : Declared)
  : M (option Reflected * Declared) :=
  child_class <- get_child_class_from_name self (d_type d) ;;
  get_or_create child_class self d.

(** *** Renaming *)

(** [with util.AutoCommit(self.cur.conn): body] *)
Definition with_autocommit {A} (body : M A) : M A :=
  cur_commit ;;
  emit (EvAutoCommit true) ;;
  fun w =>
    match body w with
    | (o, w') => (o, add_event (EvAutoCommit false) w')
    end.

(** [self._rename_ex(new_name)] *)
Definition rename_ex (r : Reflected) (new_name : string) : M Reflected :=
  match r_type r with
  | PrimaryKeys | Indexes =>
      a <- self_table_args r ;;
      ex (fmt "RENAME_INDEX" (a ++ [("old_name", AStr (r_name r));
                                    ("new_name", AStr new_name)])) true ;;
      ret (set_r_name r new_name)
  | Columns =>
      a <- self_table_args r ;;
      ex (fmt "RENAME_COLUMN" (a ++ [("old_name", AStr (r_name r));
                                     ("new_name", AStr new_name)])) false ;;
      ret r
  | Tables =>
      parent <- parent_of (r_id r) ;;
      ex (fmt "RENAME_TABLE" [("schema", AStr (h_name parent));
                              ("old_name", AStr (r_name r));
                              ("new_name", AStr new_name)]) false ;;
      ret r
  | Schemas => raise DBError
  | Databases =>
      with_autocommit
        (ex (fmt "RENAME_DATABASE" [("old_name", AStr (r_name r));
                                    ("new_name", AStr new_name)]) false) ;;
      ret r
  | _ => raise NotImplementedError
  end.

(** [ReflectedEntity.rename] *)
Definition rename (r : Reflected) (new_name : string) : M Reflected :=
  answer <- input (PromptRename (r_id r) new_name) ;;
  if String.eqb answer "y" then
    log (MsgRenaming (r_id r) new_name) ;;
    r1 <- rename_ex r new_name ;;
    cur_commit ;;
    parent <- parent_of (r_id r1) ;;
    renamed <- name_exists_ex (r_type r1) parent new_name ;;
    if negb renamed then raise DBError
    else ret (set_r_name r1 new_name)
  else ret r.

(** *** Attribute setters *)

(** [ReflectedColumn._alter_column] *)
Definition alter_column (r : Reflected) (d : Declared) : M Reflected :=
  a <- self_table_args r ;;
  column_def <- declared_sql_representation d ;;
  ex (fmt "ALTER_COLUMN" (a ++ [("column_def", AStr column_def)])) true ;;
  ret (reset_all_attributes r).

(** [ReflectedColumn.set_attr_data_type] *)
Definition set_attr_data_type (r : Reflected) (d : Declared) : M Reflected :=
  dropped <- drop_associated_indexes r ;;
  if dropped then alter_column r d
  else
    log (MsgColumnNotAltered (r_name r)) ;;
    ret r.

(** [ReflectedColumn.set_attr_identity] *)
Definition set_attr_identity (r : Reflected) (d : Declared) : M Reflected :=
  parent <- parent_of (r_id r) ;;
  pk_fields <- get_pk_fields parent ;;
  if truthy pk_fields then str_reflected r ;; raise PyException
  else
    '(_, r1) <- delete r ;;
    parent <- parent_of (r_id r1) ;;
    create (r_type r1) parent d ;;
    ret r1.

(** The role loops of [set_attr_db_roles] and [set_attr_server_roles]. *)
Definition alter_roles (template name_key : string) (r : Reflected)
           (attr : string) (d : Declared) : M Reflected :=
  wanted_v <- lift (declared_getattr d attr) ;;
  wanted <- iter_strs wanted_v ;;
  '(mine_v, r1) <- getattr_reflected r attr ;;
  mine <- iter_strs mine_v ;;
  for_each (filter (fun role => negb (str_in role mine)) wanted)
    (fun role_name =>
       ex (fmt template [("role", AStr role_name); ("action", AStr "ADD");
                         (name_key, AStr (r_name r))]) true ;;
       ret tt) ;;
  '(mine_v, r2) <- getattr_reflected r1 attr ;;
  mine <- iter_strs mine_v ;;
  wanted_v <- lift (declared_getattr d attr) ;;
  wanted <- iter_strs wanted_v ;;
  for_each (filter (fun role => negb (str_in role wanted)) mine)
    (fun role_name =>
       ex (fmt template [("role", AStr role_name); ("action", AStr "DROP");
                         (name_key, AStr (r_name r))]) true ;;
       ret tt) ;;
  ret r2.

(** [ReflectedUser.set_attr_db_roles] *)
Definition set_attr_db_roles (r : Reflected) (d : Declared) : M Reflected :=
  parent <- parent_of (r_id r) ;;
  cur <- ex (fmt "DATABASE_DETAIL" [("db_name", AStr (h_name parent))]) false ;;
  owner <- field (fetchone cur) "owner" ;;
  '(login_name, r1) <- getattr_reflected r "login_name" ;;
  if py_eq owner login_name then
    log MsgUserIsOwner ;;
    ret r1
  else alter_roles "alter_db_role" "user_name" r1 "db_roles" d.

(** [ReflectedDatabase.change_db_file_path] *)
Definition change_db_file_path (r : Reflected) (file_type : string)
           (new_path : Value) : M Reflected :=
  cur <- ex (fmt "DB_IN_HAG" [("db_name", AStr (r_name r))]) false ;;
  if has_row cur then raise PyException
  else
    answer <- input PromptMoveDatabaseFile ;;
    if String.eqb answer "y" then
      cur <- ex (fmt "db_file_info" [("db_name", AStr (r_name r));
                                     ("file_type", AStr file_type)]) false ;;
      let file_info := fetchone cur in
      cur_execute (fmt "USE" [("name", AStr "master")]) ;;
      with_autocommit (
        file_name <- field file_info "name" ;;
        ex (with_kwargs
              (fmt "CHANGE_DB_FILE_PATH"
                   [("db_name", AStr (r_name r)); ("file_name", AVal file_name);
                    ("file_path", AVal new_path)])
              ["enforce_db=False"]) false ;;
        ex (with_kwargs (fmt "SET_DB_OFFLINE" [("db_name", AStr (r_name r))])
                        ["enforce_db=False"]) false ;;
        field file_info "physical_name" ;;
        input PromptFileMoved ;;
        ex (with_kwargs (fmt "SET_DB_ONLINE" [("db_name", AStr (r_name r))])
                        ["enforce_db=False"]) false) ;;
      cur_execute (fmt "USE" [("name", AStr (r_name r))]) ;;
      ret r
    else ret r.

(** [getattr(self, 'set_attr_' + attribute_name, None)]: the setter the
    class of [self] defines for the attribute, if any. *)
Definition setter (cls : ObjType) (attr : string)
  : option (Reflected -> Declared -> M Reflected) :=
  match cls with
  | PrimaryKeys | Indexes =>
      if String.eqb attr "compression" then
        Some (fun r d =>
                a <- self_table_args r ;;
                compression <- lift (declared_getattr d "compression") ;;
                ex (fmt "ALTER_INDEX"
                        (a ++ [("index_name", AStr (r_name r));
                               ("compression", AVal compression);
                               ("online", AStr "OFF")])) true ;;
                ret r)
      else if String.eqb attr "clustered" then
        Some (fun r d => recreate_new_attributes r d ;; ret r)
      else if String.eqb attr "included_columns" then
        match cls with
        | Indexes => Some (fun r d => recreate_new_attributes r d ;; ret r)
        | _ => None
        end
      else None
  | Columns =>
      if String.eqb attr "identity" then Some set_attr_identity
      else if String.eqb attr "data_type" then Some set_attr_data_type
      else if str_in attr ["nullable"; "char_max_len"; "datetime_precision";
                           "numeric_precision"; "numeric_scale"]
      then Some alter_column
      else None
  | Users =>
      if String.eqb attr "db_roles" then Some set_attr_db_roles else None
  | Databases =>
      if String.eqb attr "recovery_model_desc" then
        Some (fun r d =>
                value <- lift (declared_getattr d "recovery_model_desc") ;;
                ex (with_kwargs
                      (fmt "db_option_set"
                           [("db_name", AStr (r_name r));
                            ("option_name", AStr "RECOVERY");
                            ("value", AVal value)])
                      ["autocommit=True"]) false ;;
                ret r)
      else if String.eqb attr "owner" then
        Some (fun r d =>
                owner <- lift (declared_getattr d "owner") ;;
                ex (with_kwargs (fmt "set_db_owner" [("db_owner", AVal owner)])
                                ["autocommit=True"]) false ;;
                ret r)
      else if String.eqb attr "data_file_path" then
        Some (fun r d =>
                path <- lift (declared_getattr d "data_file_path") ;;
                change_db_file_path r "ROWS" path)
      else if String.eqb attr "log_file_path" then
        Some (fun r d =>
                path <- lift (declared_getattr d "log_file_path") ;;
                change_db_file_path r "LOG" path)
      else None
  | Logins =>
      if String.eqb attr "server_roles" then
        Some (fun r d =>
                alter_roles "ALTER_SERVER_ROLE" "login_name" r "server_roles" d)
      else None
  | _ => None
  end.

(** [ReflectedEntity.set_attribute]: whether the attribute was set, and
    [self] as the call leaves it. *)
Definition set_attribute (r : Reflected) (d : Declared) (attribute_name : string)
  : M (bool * Reflected) :=
  match setter (r_type r) attribute_name with
  | None =>
      log (MsgNoSetter (r_id r) attribute_name) ;;
      ret (false, r)
  | Some method =>
      new_value <- lift (declared_getattr d attribute_name) ;;
      answer <- input (PromptSetAttribute (r_id r) attribute_name new_value) ;;
      if String.eqb answer "y" then
        r1 <- str_reflected r ;;
        log (MsgSetting (r_id r) attribute_name new_value) ;;
        r2 <- method r1 d ;;
        cur_commit ;;
        let r3 := reset_attribute r2 attribute_name in
        '(now, r4) <- getattr_reflected r3 attribute_name ;;
        if negb (py_eq now new_value) then raise DBNotAlteredAttributeError
        else ret (true, r4)
      else ret (false, r)
  end.

(* ===================================================================== *)
(** ** The alignment engine (align.py)                                    *)
(* ===================================================================== *)

(** The attribute loop of [align_entity]. *)
Fixpoint align_attributes (d : Declared) (r : Reflected) (attrs : list string)
  : M Reflected :=
  match attrs with
  | [] => ret r
  | attr_name :: attrs' =>
      emit (EvStep (StepCompare (r_id r) attr_name)) ;;
      wanted <- lift (declared_getattr d attr_name) ;;
      '(current, r1) <- getattr_reflected r attr_name ;;
      r2 <- (if negb (py_eq wanted current) then
               '(current, r1) <- getattr_reflected r1 attr_name ;;
               wanted <- lift (declared_getattr d attr_name) ;;
               r1 <- str_reflected r1 ;;
               log (MsgAttributeDiffers (r_id r) attr_name current wanted) ;;
               '(_, r1) <- set_attribute r1 d attr_name ;;
               ret r1
             else ret r1) ;;
      align_attributes d r2 attrs'
  end.

(** [any(existing_child == declared_child for declared_child in
    declared_children)] *)
Fixpoint matches_any (existing_child : Reflected)
         (declared_children : list Declared) : M (bool * Reflected) :=
  match declared_children with
  | [] => ret (false, existing_child)
  | declared_child :: rest =>
      '(same, existing_child) <- reflected_eq existing_child declared_child ;;
      if same then ret (true, existing_child)
      else matches_any existing_child rest
  end.

(** The body of the loop over the live children in [align_child_type]. *)
Definition delete_undeclared (rp : Handle) (declared_children : list Declared)
           (existing_child : Reflected) : M unit :=
  let c := r_id existing_child in
  existing_child <- str_reflected existing_child ;;
  log (MsgFoundChild rp c) ;;
  '(matched, existing_child) <- matches_any existing_child declared_children ;;
  if matched then
    str_reflected existing_child ;;
    log (MsgChildMatches rp c)
  else
    existing_child <- str_reflected existing_child ;;
    log (MsgChildNotDeclared rp c) ;;
    delete existing_child ;;
    ret tt.

Definition has_old_name (d : Declared) : option string :=
  match d_old_name d with
  | Some old => if String.eqb old "" then None else Some old
  | None => None
  end.

(** The body of the loop over the declared children in [align_child_type];
    [align] is the recursive call of [align_entity].  The result is the
    declared child as the pass leaves it. *)
Definition align_declared_child_body
           (align : Declared -> Reflected -> M Declared)
           (rp : Handle) (declared_child : Declared) : M Declared :=
  match has_old_name declared_child with
  | Some old_name =>
      try_except
        (old_name_child <- get_child rp (d_type declared_child) old_name ;;
         rename old_name_child (d_name declared_child) ;;
         ret tt)
        is_DoesntExist
        (ret tt)
  | None => ret tt
  end ;;
  '(reflected_obj, declared_child) <- get_or_create_child rp declared_child ;;
  match reflected_obj with
  | Some reflected_obj => align declared_child reflected_obj
  | None => ret declared_child
  end.

(** One iteration of that loop: the step is noted, then the body runs. *)
Definition align_declared_child (align : Declared -> Reflected -> M Declared)
           (rp : Handle) (ct : ObjType) (declared_child : Declared)
  : M Declared :=
  emit (EvStep (StepDeclaredChild rp ct declared_child)) ;;
  align_declared_child_body align rp declared_child.

(** The first half of [align_child_type] once the declared children are
    known: unless the type is ignored, every live child that matches no
    declared child is deleted. *)
Definition remove_undeclared_children (dp : Declared) (rp : Reflected)
           (ct : ObjType) (declared_children : list Declared) : M unit :=
  if negb (ignore_extra_children_type dp ct) then
    str_reflected rp ;;
    log (MsgCheckingChildren (r_id rp) ct) ;;
    existing <- get_children (r_id rp) ct ;;
    for_each existing (delete_undeclared (r_id rp) declared_children)
  else ret tt.

(** [align_child_type(declared_parent, reflected_parent, child_class)],
    with [align] for its call of [align_entity]; the result is the declared
    parent as the pass leaves it. *)
Definition align_child_type_with (align : Declared -> Reflected -> M Declared)
           (dp : Declared) (rp : Reflected) (ct : ObjType) : M Declared :=
  lift (declared_str dp) ;;
  log (MsgAligningChildren (r_id rp) ct dp) ;;
  match declared_get_children dp ct with
  | None => ret dp
  | Some declared_children =>
      remove_undeclared_children dp rp ct declared_children ;;
      aligned <- map_m (align_declared_child align (r_id rp) ct)
                       declared_children ;;
      ret (set_d_children dp (children_set ct aligned (d_children dp)))
  end.

Fixpoint align_child_types (step : Declared -> Reflected -> ObjType -> M Declared)
         (d : Declared) (r : Reflected) (cts : list ObjType) : M Declared :=
  match cts with
  | [] => ret d
  | ct :: cts' => d1 <- step d r ct ;; align_child_types step d1 r cts'
  end.

(** [align_entity] up to its [if align_children]: the record of the pair,
    the type assertion and the attribute loop. *)
Definition align_entity_attributes (d : Declared) (r : Reflected) : M Reflected :=
  lift (declared_display_details d) ;;
  r1 <- reflected_display_details r ;;
  log (MsgAligning d (r_id r)) ;;
  if negb (ObjType_eqb (d_type d) (r_type r1)) then raise AssertionError
  else align_attributes d r1 (valid_attributes (d_type d)).

(** [align_entity(declared_obj, reflected_obj, align_children)] with a
    budget of nested calls; the result is the declared node as the run
    leaves it. *)
Fixpoint align_entity_fuel (fuel : nat) (d : Declared) (r : Reflected)
         (align_children : bool) : M Declared :=
  match fuel with
  | 0 => raise RecursionLimit
  | S fuel' =>
      r2 <- align_entity_attributes d r ;;
      if align_children then
        align_child_types
          (align_child_type_with
             (fun d' r' => align_entity_fuel fuel' d' r' true))
          d r2 (declared_child_types (d_type d))
      else ret d
  end.

(** How many levels of live children a class can have below it. *)
Definition rank (t : ObjType) : nat :=
  match t with
  | Servers => 4
  | Databases => 3
  | Schemas => 2
  | Tables => 1
  | _ => 0
  end.

(** [align_entity]: a live node of rank [n] never needs more than [n + 1]
    nested calls, so that budget is the unbounded function (see
    [align_entity_unfold]). *)
Definition align_entity (d : Declared) (r : Reflected) (align_children : bool)
  : M Declared :=
  align_entity_fuel (S (rank (r_type r))) d r align_children.

(** [align_child_type], the function of align.py. *)
Definition align_child_type (dp : Declared) (rp : Reflected) (ct : ObjType)
  : M Declared :=
  align_child_type_with (fun d' r' => align_entity d' r' true) dp rp ct.

(** [ReflectedServer.from_cursor] *)
Definition from_cursor : M Reflected :=
  cur <- cur_execute (fmt "SELECT @@SERVERNAME" []) ;;
  server_name <- first_column cur ;;
  match server_name with
  | VNone => raise DBError
  | VStr s => ret (mkReflected (mkHandle Servers s None) [] None)
  | _ => raise TypeError
  end.

(** [align_server(cursor, declared_server)] *)
Definition align_server (declared_server : Declared) : M Declared :=
  reflected_server <- from_cursor ;;
  align_entity declared_server reflected_server true.

(* ===================================================================== *)
(** ** A small live server for concrete runs                              *)
(* ===================================================================== *)

(** Whether a statement of the given template was executed so far. *)
Definition executed (template : string) (hist : list Event) : bool :=
  existsb (fun e => match e with
                    | EvExecute q => String.eqb (sql_template q) template
                    | _ => false
                    end) hist.

(** A cursor over a database [db] with schema [dbo] and one table [t]:
    column [c] (a [datetime2(7)]), one clustered index [ix_c] on [c] until
    it is dropped, no primary key, and a partition scheme once one was
    created.  Every other query finds nothing. *)
Definition example_cursor (hist : list Event) (q : Sql) : option (list Row) :=
  let t := sql_template q in
  let partitioned := executed "CREATE_PARTITION_SCHEME" hist in
  if String.eqb t "table_partition_details_for_column" then
    Some (if partitioned
          then [[("ps_name", VStr "ps_dbo_t_c"); ("column_name", VStr "c")]]
          else [])
  else if String.eqb t "partition_name_exists_on_table" then
    Some (if partitioned then [[("ps_name", VStr "ps_dbo_t_c")]] else [])
  else if String.eqb t "table_partition_details_for_scheme" then
    Some [[("ps_name", VStr "ps_dbo_t_c"); ("column_name", VStr "c")]]
  else if String.eqb t "COLUMN_EXISTS" then Some [[("1", VInt 1)]]
  else if String.eqb t "table_column_details" then Some [[("name", VStr "c")]]
  else if String.eqb t "column_detail" then
    Some [[("data_type", VStr "datetime2"); ("datetime_precision", VInt 7);
           ("nullable", VInt 0); ("identity", VInt 0)]]
  else if String.eqb t "min_column_value" then Some [[("", VNone)]]
  else if String.eqb t "TABLE_INDEX_NAMES" then
    Some (if executed "DROP_INDEX" hist then [] else [[("name", VStr "ix_c")]])
  else if String.eqb t "named_index_details" then
    Some [[("type_desc", VStr "CLUSTERED"); ("compression", VStr "NONE");
           ("unique", VBool false); ("is_unique_constraint", VBool false)]]
  else if String.eqb t "index_nonpartition_columns" then
    Some [[("column_name", VStr "c")]]
  else Some [].

Definition example_server : Handle := mkHandle Servers "srv" None.
Definition example_database : Handle :=
  mkHandle Databases "db" (Some example_server).
Definition example_schema : Handle :=
  mkHandle Schemas "dbo" (Some example_database).
Definition example_table_id : Handle :=
  mkHandle Tables "t" (Some example_schema).
Definition example_table : Reflected := of_handle example_table_id.
Definition example_column : Reflected :=
  of_handle (mkHandle Columns "c" (Some example_table_id)).
Definition example_index_id : Handle :=
  mkHandle Indexes "ix_c" (Some example_table_id).

(** The world at the start of a run: the answers that will be typed, the
    day, the interpreter's default recursion limit, nothing done yet. *)
Definition example_world (answers : list string) : World :=
  mkWorld example_cursor answers 738000 1000 [].

(** [Partition('c')] *)
Definition declared_partition : Declared :=
  mkDeclared Partitions "" None IgnoreNone [] [("column", VStr "c")].

(** [Table('t', partition=Partition('c'))] *)
Definition declared_table_with_partition : Declared :=
  mkDeclared Tables "t" None IgnoreNone [(Partitions, [declared_partition])] [].

(** [Column('c', 'datetime', datetime_precision=7)] *)
Definition declared_column : Declared :=
  mkDeclared Columns "c" None IgnoreNone []
    [("data_type", VStr "datetime"); ("char_max_len", VNone);
     ("datetime_precision", VInt 7); ("numeric_precision", VNone);
     ("numeric_scale", VNone); ("nullable", VBool false);
     ("identity", VBool false)].

(** [Table('t', columns=[Column('c', 'datetime', datetime_precision=7)])] *)
Definition declared_table_with_column : Declared :=
  mkDeclared Tables "t" None IgnoreNone [(Columns, [declared_column])] [].

(** [Schema('dbo', tables=[Table('t', columns=[...])])] *)
Definition declared_schema : Declared :=
  mkDeclared Schemas "dbo" None IgnoreNone
             [(Tables, [declared_table_with_column])] [].

(* ===================================================================== *)
(** ** What a computation emits and returns                               *)
(* ===================================================================== *)

(** How deep in the program an event originates: 0 for the traffic with
    the cursor and the records of read-only code, 1 for what deleting adds,
    2 for what renaming, creating and the attribute setters add, 3 for
    [set_attribute] itself, 4 for align.py. *)
Definition ev_level (e : Event) : nat :=
  match e with
  | EvExecute _ | EvCommit | EvAutoCommit _ => 0
  | EvInput (PromptDelete _) => 1
  | EvInput (PromptRename _ _) => 2
  | EvInput PromptMoveDatabaseFile | EvInput PromptFileMoved => 2
  | EvInput (PromptSetAttribute _ _ _) => 3
  | EvLog (MsgComparing _ _) | EvLog (MsgIndexMatches _ _) | EvLog MsgFoundUser => 0
  | EvLog (MsgDeleting _) | EvLog (MsgDeleteNotAllowed _)
  | EvLog MsgDroppingUniqueConstraint | EvLog (MsgColumnNotDeleted _)
  | EvLog (MsgRecreatingIndex _) => 1
  | EvLog (MsgUnableToCreate _) | EvLog (MsgCreating _ _)
  | EvLog (MsgRenaming _ _) | EvLog (MsgColumnNotAltered _)
  | EvLog MsgUserIsOwner => 2
  | EvLog (MsgNoSetter _ _) | EvLog (MsgSetting _ _ _) => 3
  | EvLog (MsgAligning _ _) | EvLog (MsgAttributeDiffers _ _ _ _)
  | EvLog (MsgAligningChildren _ _ _) | EvLog (MsgCheckingChildren _ _)
  | EvLog (MsgFoundChild _ _) | EvLog (MsgChildMatches _ _)
  | EvLog (MsgChildNotDeclared _ _) => 4
  | EvStep _ => 4
  end.

(** [P] holds of every event of level at most [k]. *)
Definition covers (k : nat) (P : Event -> Prop) : Prop :=
  forall e, ev_level e <= k -> P e.

(** Running [m] from any world appends events that all satisfy [P], and a
    normal result satisfies [Q]. *)
Definition spec {A} (P : Event -> Prop) (Q : A -> Prop) (m : M A) : Prop :=
  forall w, exists T,
    trace (snd (m w)) = trace w ++ T /\ Forall P T /\
    (forall a, fst (m w) = Ok a -> Q a).

Definition any {A} : A -> Prop := fun _ => True.

(** [P] holds of the step that gives a declared partition the name of its
    scheme. *)
Definition scheme_name (schema table column : string) : string :=
  "ps_" ++ schema ++ "_" ++ table ++ "_" ++ column.

Definition assigns_partitions (P : Event -> Prop) : Prop :=
  forall x schema table column,
    d_type x = Partitions ->
    P (EvStep (StepAssignName x (scheme_name schema table column))).

(** A node made by [cls(parent, name)] has that class and that parent. *)
Definition child_of (cls : ObjType) (parent : Handle) (r : Reflected) : Prop :=
  r_type r = cls /\ r_parent r = Some parent.

Definition same_node (r : Reflected) : Reflected -> Prop :=
  fun r' => r_id r' = r_id r.

Definition same_node_snd {A} (r : Reflected) : A * Reflected -> Prop :=
  fun p => r_id (snd p) = r_id r.

(** The counterpart returned for a declared child, when there is one, is a
    child of the parent it was asked from. *)
Definition counterpart_of (cls : ObjType) (parent : Handle)
  : option Reflected * Declared -> Prop :=
  fun p => match fst p with
           | Some r => child_of cls parent r
           | None => True
           end.

(** The events of [set_attribute] on the node [h]. *)
Definition is_set_event (h : Handle) (e : Event) : Prop :=
  match e with
  | EvLog (MsgNoSetter r _) | EvLog (MsgSetting r _ _)
  | EvInput (PromptSetAttribute r _ _) => r = h
  | _ => False
  end.

(** The live nodes [align_child_type] passes to [align_entity]: children
    of the parent, of one of its child classes. *)
Definition live_child (rp : Handle) (r : Reflected) : Prop :=
  r_parent r = Some rp /\ In (r_type r) (reflected_child_types (h_type rp)).


(** *** The events of one node pair *)

(** The attribute phase of the node [h]: comparisons, recorded mismatches
    and the events of [set_attribute]. *)
Definition is_attr_event (h : Handle) (e : Event) : Prop :=
  match e with
  | EvStep (StepCompare r _) => r = h
  | EvLog (MsgAttributeDiffers r _ _ _) => r = h
  | _ => is_set_event h e
  end.

(** The records [align_child_type] writes for the parent [h] before it
    turns to the declared children: the header of the pass and the records
    of the loop over the live children.  [MsgChildNotDeclared] is written
    right before the [delete()] of a live child that matched no declared
    one. *)
Definition is_removal_event (h : Handle) (e : Event) : Prop :=
  match e with
  | EvLog (MsgAligningChildren rp _ _) | EvLog (MsgCheckingChildren rp _)
  | EvLog (MsgFoundChild rp _) | EvLog (MsgChildMatches rp _)
  | EvLog (MsgChildNotDeclared rp _) => rp = h
  | _ => False
  end.

(** The start of the loop body for a declared child of the parent [h]. *)
Definition is_declared_step (h : Handle) (e : Event) : Prop :=
  match e with
  | EvStep (StepDeclaredChild rp _ _) => rp = h
  | _ => False
  end.

(** The child phase of the parent [h]. *)
Definition is_child_event (h : Handle) (e : Event) : Prop :=
  is_removal_event h e \/ is_declared_step h e.

(** The node an event of [set_attribute] or of align.py belongs to. *)
Definition node_of (e : Event) : option Handle :=
  match e with
  | EvInput (PromptSetAttribute r _ _) => Some r
  | EvLog (MsgNoSetter r _) | EvLog (MsgSetting r _ _) => Some r
  | EvLog (MsgAligning _ r) | EvLog (MsgAttributeDiffers r _ _ _) => Some r
  | EvLog (MsgAligningChildren rp _ _) | EvLog (MsgCheckingChildren rp _)
  | EvLog (MsgFoundChild rp _) | EvLog (MsgChildMatches rp _)
  | EvLog (MsgChildNotDeclared rp _) => Some rp
  | EvStep (StepCompare r _) => Some r
  | EvStep (StepDeclaredChild rp _ _) => Some rp
  | _ => None
  end.

(** [e] belongs to no node or to a node at depth [k] or deeper. *)
Definition below (k : nat) (e : Event) : Prop :=
  match node_of e with
  | None => True
  | Some h => k <= depth h
  end.

(** The events a computation appends when run from [w]. *)
Definition delta {A} (m : M A) (w : World) : list Event :=
  skipn (length (trace w)) (trace (snd (m w))).

(** What [align_child_type] does for a declared child once the live
    children were checked: renaming, creating, recursive alignment. *)
Definition is_declared_work (e : Event) : Prop :=
  match e with
  | EvInput (PromptRename _ _) | EvLog (MsgRenaming _ _)
  | EvLog (MsgCreating _ _) | EvLog (MsgUnableToCreate _)
  | EvLog (MsgAligning _ _) | EvStep (StepDeclaredChild _ _ _) => True
  | _ => False
  end.

(** Any record or step of a child pass, of whatever parent. *)
Definition is_child_phase (e : Event) : Prop :=
  match e with
  | EvLog (MsgAligningChildren _ _ _) | EvLog (MsgCheckingChildren _ _)
  | EvLog (MsgFoundChild _ _) | EvLog (MsgChildMatches _ _)
  | EvLog (MsgChildNotDeclared _ _) | EvStep (StepDeclaredChild _ _ _) => True
  | _ => False
  end.

Fixpoint Handle_eqb (a b : Handle) : bool :=
  ObjType_eqb (h_type a) (h_type b) && String.eqb (h_name a) (h_name b)
  && match h_parent a, h_parent b with
     | Some pa, Some pb => Handle_eqb pa pb
     | None, None => true
     | _, _ => false
     end.

(** The declared children whose loop body was entered, in the order of
    the trace, for the pass over the children of type [ct] of [rp]. *)
Definition declared_steps (rp : Handle) (ct : ObjType) (T : list Event)
  : list Declared :=
  flat_map (fun e => match e with
                     | EvStep (StepDeclaredChild rp' ct' dc) =>
                         if Handle_eqb rp' rp && ObjType_eqb ct' ct
                         then [dc] else []
                     | _ => []
                     end) T.

(** The trace of [m] splits into a part satisfying [P1] followed by a
    part satisfying [P2]. *)
Definition splits {A} (P1 P2 : Event -> Prop) (m : M A) : Prop :=
  forall w, exists T1 T2,
    trace (snd (m w)) = trace w ++ T1 ++ T2 /\ Forall P1 T1 /\ Forall P2 T2.

(** The declared children [align_child_type] loops over. *)
Definition declared_children_of (dp : Declared) (ct : ObjType) : list Declared :=
  match declared_get_children dp ct with
  | Some l => l
  | None => []
  end.

(** A run whose steps for the declared children of [rp] follow the list
    [l]: a prefix of it, and all of it when the run ends normally. *)
Definition in_declared_order {A} (rp : Handle) (ct : ObjType)
           (l : list Declared) (m : M A) : Prop :=
  forall w, exists T n,
    trace (snd (m w)) = trace w ++ T /\
    declared_steps rp ct T = firstn n l /\
    (forall a, fst (m w) = Ok a -> n = length l).

(** Whether [delete()] asked for the deletion of the node [h]. *)
Definition asks_to_delete (h : Handle) (T : list Event) : bool :=
  existsb (fun e => match e with
                    | EvInput (PromptDelete r) => Handle_eqb r h
                    | _ => false
                    end) T.

(** The header [align_child_type] writes for the pass over [ct]. *)
Definition pass_header (dp : Declared) (rp : Reflected) (ct : ObjType) : Event :=
  EvLog (MsgAligningChildren (r_id rp) ct dp).

(** [Table('t', ignore_extra_children=True, columns=[Column('c', ...)])] *)
Definition declared_table_ignoring : Declared :=
  mkDeclared Tables "t" None (IgnoreBool true) [(Columns, [declared_column])] [].

(** The world once [input(p)] has read the line in front of [rest]. *)
Definition after_input (p : Prompt) (rest : list string) (w : World) : World :=
  add_event (EvInput p)
            (mkWorld (cursor w) rest (today w) (recursion_limit w) (trace w)).

(** [Login('app', 'secret', type_desc='SQL_LOGIN', server_roles=())] *)
Definition declared_login : Declared :=
  mkDeclared Logins "app" None IgnoreNone []
    [("type_desc", VStr "SQL_LOGIN"); ("server_roles", VSet []);
     ("password", VStr "secret")].

(** The live index [ix_old] of [t] on the columns [(x, y)], its details
    and attributes already read. *)
Definition example_old_index : Reflected :=
  mkReflected (mkHandle Indexes "ix_old" (Some example_table_id))
              [("columns", VTuple ["x"; "y"]); ("included_columns", VNone)]
              (Some [("type_desc", VStr "NONCLUSTERED")]).

(** [Index(('x', 'y'), name='ix_new')] *)
Definition declared_index : Declared :=
  mkDeclared Indexes "ix_new" None IgnoreNone []
    [("columns", VTuple ["x"; "y"]); ("clustered", VBool false);
     ("compression", VStr "NONE"); ("included_columns", VNone);
     ("unique", VBool false)].

(** *** What a run may change in a declaration *)

(** The declaration with the names of its partitions blanked, at every
    depth: what is left is the type, the name of every other node, the old
    names, the ignore sets, the attributes and the shape of the tree. *)
Fixpoint forget_partition_names (d : Declared) : Declared :=
  match d with
  | mkDeclared t n o i ch a =>
      mkDeclared t (match t with Partitions => "" | _ => n end) o i
                 (map (fun p => match p with
                                | (ct, l) => (ct, map forget_partition_names l)
                                end) ch)
                 a
  end.

(** Every normal result of [m] satisfies [Q]. *)
Definition returns {A} (Q : A -> Prop) (m : M A) : Prop :=
  forall w a, fst (m w) = Ok a -> Q a.

(** What [create] may do to the declared node it is given. *)
Definition named_by_create (cls : ObjType) (d d1 : Declared) : Prop :=
  d1 = d \/ (cls = Partitions /\ exists n, d1 = set_d_name d n).

(** *** The constructors of indexes and primary keys *)

(** [tuple(column_name.lower() for column_name in columns)], a single
    name first made a list of one. *)
Definition lowered_columns (columns : Value) : Outcome (list string) :=
  match columns with
  | VStr s => Ok [lower s]
  | VTuple l | VSet l => Ok (map lower l)
  | _ => Raise TypeError
  end.

(** The end [name += '__' + '_'.join(included_columns)] of a generated
    name, for the value found under [included_columns]. *)
Definition included_suffix (included_columns : option KwArg) : Outcome string :=
  match included_columns with
  | Some (KwValue v) =>
      if truthy v then
        match v with
        | VTuple l | VSet l => Ok ("__" ++ String.concat "_" l)%string
        | VStr s => Ok ("__" ++ String.concat "_" (chars_of s))%string
        | _ => Raise TypeError
        end
      else Ok ""
  | Some _ => Raise TypeError
  | None => Ok ""
  end.

(** [AbstractIndex.__init__]; [name_prefix] is the class attribute, and
    [old_name] and [ignore_extra_children] travel in [**kwargs]. *)
Definition AbstractIndex_init (cls : ObjType) (name_prefix : string)
           (columns : Value) (name : option string) (compression : Value)
           (old_name : option string) (ignore_extra_children : Ignore)
           (kwargs : list (string * KwArg)) : Outcome Declared :=
  match lowered_columns columns with
  | Raise e => Raise e
  | Ok columns =>
      let given := match name with
                   | Some n => negb (String.eqb n "")
                   | None => false
                   end in
      match (if given then Ok "" else included_suffix (assoc "included_columns" kwargs)) with
      | Raise e => Raise e
      | Ok suffix =>
          let name := match name with
                      | Some n =>
                          if given then n
                          else (String.concat "_" (name_prefix :: columns) ++ suffix)%string
                      | None =>
                          (String.concat "_" (name_prefix :: columns) ++ suffix)%string
                      end in
          DeclaredEntity_init cls (Some name) old_name ignore_extra_children
            (("columns", KwValue (VTuple columns))
               :: ("compression", KwValue compression) :: kwargs)
      end
  end.

(** [PrimaryKey.__init__] *)
Definition PrimaryKey_init (columns : Value) (name : option string)
           (clustered compression : Value) (old_name : option string)
           (ignore_extra_children : Ignore) : Outcome Declared :=
  AbstractIndex_init PrimaryKeys "PK" columns name compression old_name
                     ignore_extra_children [("clustered", KwValue clustered)].

(** [set(column_name.lower() for column_name in included_columns) if
    included_columns else None] *)
Definition lowered_included (included_columns : Value) : Outcome Value :=
  if truthy included_columns then
    match included_columns with
    | VTuple l | VSet l => Ok (VSet (nodup string_dec (map lower l)))
    | VStr s => Ok (VSet (nodup string_dec (map lower (chars_of s))))
    | _ => Raise TypeError
    end
  else Ok VNone.

(** [Index.__init__] *)
Definition Index_init (columns : Value) (name : option string)
           (clustered unique included_columns compression : Value)
           (old_name : option string) (ignore_extra_children : Ignore)
  : Outcome Declared :=
  match lowered_included included_columns with
  | Raise e => Raise e
  | Ok included =>
      AbstractIndex_init Indexes "IX" columns name compression old_name
                         ignore_extra_children
                         [("clustered", KwValue clustered);
                          ("included_columns", KwValue included);
                          ("unique", KwValue unique)]
  end.

(** A name of [n] times the letter e with an acute accent. *)
Definition accented_name (n : nat) : string :=
  String.concat "" (repeat "é" n).

(** *** Names in ASCII *)

(** The letters A to Z folded to a to z, byte by byte. *)
Definition lower_ascii (c : ascii) : ascii :=
  let n := N_of_ascii c in
  if (65 <=? n)%N && (n <=? 90)%N then ascii_of_N (n + 32) else c.

Fixpoint ascii_lower (s : string) : string :=
  match s with
  | EmptyString => EmptyString
  | String c s' => String (lower_ascii c) (ascii_lower s')
  end.

Fixpoint is_ascii_text (s : string) : bool :=
  match s with
  | EmptyString => true
  | String c s' => (N_of_ascii c <? 128)%N && is_ascii_text s'
  end.

(** The live schema [DBO], the live table [ÉTÉ] and the declaration
    [Table('été', old_name='Summer')]. *)
Definition example_upper_schema : Reflected :=
  of_handle (mkHandle Schemas "DBO" (Some example_database)).

Definition example_accented_table : Reflected :=
  of_handle (mkHandle Tables "ÉTÉ" (Some example_schema)).

Definition example_renamed_table : Reflected :=
  of_handle (mkHandle Tables "SUMMER" (Some example_schema)).

Definition declared_accented_table : Declared :=
  mkDeclared Tables "été" (Some "Summer") IgnoreNone [] [].

(** *** The parts of a pass of [align_child_type] *)

(** Its first two statements: the header. *)
Definition pass_start (dp : Declared) (rp : Reflected) (ct : ObjType) : M unit :=
  lift (declared_str dp) ;; log (MsgAligningChildren (r_id rp) ct dp).

(** Its loop over the declared children. *)
Definition declared_loop (rp : Reflected) (ct : ObjType) (l : list Declared)
  : M (list Declared) :=
  map_m (align_declared_child (fun d' r' => align_entity d' r' true)
                              (r_id rp) ct) l.

(** The events of [m] followed, when [m] returns, by the events [next]
    gives for its result and the world it leaves. *)
Definition delta_then {A} (m : M A) (next : A -> World -> list Event)
           (w : World) : list Event :=
  delta m w ++ match m w with
               | (Ok a, w1) => next a w1
               | (Raise _, _) => []
               end.

(** *** Assignments to declared nodes *)

(** An event that is no assignment to a declared node, or the assignment
    of a scheme name to a declared partition. *)
Definition names_partition (e : Event) : Prop :=
  match e with
  | EvStep (StepAssignName x n) =>
      d_type x = Partitions
      /\ exists schema table column,
          n = ("ps_" ++ schema ++ "_" ++ table ++ "_" ++ column)%string
  | _ => True
  end.

Definition is_assignment (e : Event) : bool :=
  match e with
  | EvStep (StepAssignName _ _) => true
  | _ => false
  end.

(** How many assignments to declared nodes a trace holds. *)
Definition assigned (T : list Event) : nat :=
  length (filter is_assignment T).

(** A normal result of [m] satisfies [R], unless [m] assigned to a
    declared node. *)
Definition keeps {A} (R : A -> Prop) (m : M A) : Prop :=
  forall w a,
    fst (m w) = Ok a ->
    R a \/ assigned (trace w) < assigned (trace (snd (m w))).

(** The example server when it reports no partition scheme by name,
    whatever was created. *)
Definition example_world_losing_partitions : World :=
  mkWorld (fun hist q =>
             if String.eqb (sql_template q) "partition_name_exists_on_table"
             then Some []
             else example_cursor hist q)
          [] 738000 1000 [].

(* ===================================================================== *)
(** ** More of the code                                                   *)
(* ===================================================================== *)

(** *** Invariants of a declaration *)

(** Every list of the [children] dict is filed under the object type of
    its members, that type is a child type of the node's class, and no
    list is empty. *)
Definition filed_by_type (cls : ObjType)
           (children : list (ObjType * list Declared)) : Prop :=
  forall t l, In (t, l) children ->
              In t (declared_child_types cls) /\ l <> []
              /\ Forall (fun c => d_type c = t) l.

(** What [__init__] and [add_child] leave alone. *)
Definition same_but_children (d d' : Declared) : Prop :=
  d_type d' = d_type d /\ d_name d' = d_name d
  /\ d_old_name d' = d_old_name d /\ d_ignore d' = d_ignore d
  /\ d_attrs d' = d_attrs d.

(** *** More live servers for concrete runs *)

(** A server on which every query finds nothing. *)
Definition empty_world (answers : list string) : World :=
  mkWorld (fun _ _ => Some []) answers 738000 1000 [].

(** The live table [t] once its index was dropped. *)
Definition example_world_without_index : World :=
  mkWorld example_cursor [] 738000 1000
          [EvExecute (fmt "DROP_INDEX" [])].

(** *** Predicates on events *)

Definition is_record (e : Event) : Prop := exists m, e = EvLog m.

Definition is_prompt (e : Event) : Prop := exists p, e = EvInput p.

(** The classes whose [equate_declared] is the default comparison of
    names. *)
Definition equated_by_name (t : ObjType) : bool :=
  match t with
  | PrimaryKeys | Indexes | Partitions | Users => false
  | _ => true
  end.

(** [any(existing_child == declared_child ...)] for such a class. *)
Definition name_matches (c : Reflected) (l : list Declared) : bool :=
  existsb (fun d => ObjType_eqb (r_type c) (d_type d) && equate_by_name c d) l.

(** *** The chain lookup on live nodes *)

(** [ReflectedEntity.get_child_by_name]: every child class in turn; the
    message of the final error formats [self]. *)
Fixpoint find_child_by_name (self : Reflected) (cts : list ObjType)
         (name : string) : M Reflected :=
  match cts with
  | [] => str_reflected self ;; raise DBObjectDoesntExistError
  | child_class :: cts' =>
      try_except (get_child (r_id self) child_class name) is_DoesntExist
                 (find_child_by_name self cts' name)
  end.

Definition get_child_by_name (self : Reflected) (name : string) : M Reflected :=
  find_child_by_name self (reflected_child_types (r_type self)) name.

(** [ReflectedEntity.get_object_by_id], called with a chain of names;
    [object_names[0]] of an empty chain is an [IndexError]. *)
Fixpoint get_object_by_id (self : Reflected) (object_names : list string)
  : M Reflected :=
  match object_names with
  | [] => raise IndexError
  | n :: rest =>
      child_obj <- get_child_by_name self n ;;
      match rest with
      | [] => ret child_obj
      | _ :: _ => get_object_by_id child_obj rest
      end
  end.

(** [h] is reached from [self] by going down through children called
    [names], each of a child class of the node above it. *)
Fixpoint reached_by (self : Handle) (names : list string) (h : Handle) : Prop :=
  match names with
  | [] => h = self
  | n :: rest =>
      exists t, In t (reflected_child_types (h_type self))
                /\ reached_by (mkHandle t n (Some self)) rest h
  end.

(** [ReflectedEntity.ancestor_name]: the name of the nearest node of the
    given type on the way up from [self], [self] included. *)
Fixpoint ancestor_name (h : Handle) (ancestor_type : ObjType) : option string :=
  if ObjType_eqb (h_type h) ancestor_type then Some (h_name h)
  else match h_parent h with
       | Some p => ancestor_name p ancestor_type
       | None => None
       end.

(** *** The attributes no class can set *)

(** The registry attributes for which the class has no [set_attr_]
    method. *)
Definition unsettable : list (ObjType * string) :=
  [(Logins, "type_desc"); (Logins, "password");
   (Databases, "data_size"); (Databases, "log_size");
   (ForeignKeys, "foreign_schema"); (ForeignKeys, "foreign_table");
   (ForeignKeys, "foreign_column"); (ForeignKeys, "column");
   (PrimaryKeys, "columns"); (Indexes, "columns"); (Indexes, "unique");
   (Users, "login_name"); (Partitions, "column")].

(** [PrimaryKey(())]: a primary key declared on no column. *)
Definition declared_empty_primary_key : Declared :=
  mkDeclared PrimaryKeys "PK" None IgnoreNone []
    [("columns", VTuple []); ("clustered", VBool true);
     ("compression", VStr "NONE")].

(** A database whose schemas are [sys], [dbo] and [guest], in which every
    table and every column asked for exists, and nothing else does. *)
Definition schema_listing_world : World :=
  mkWorld (fun _ q =>
             let t := sql_template q in
             if String.eqb t "LIST_SCHEMAS"
             then Some [[("name", VStr "sys")]; [("name", VStr "dbo")];
                        [("name", VStr "guest")]]
             else if String.eqb t "TABLE_EXISTS" || String.eqb t "COLUMN_EXISTS"
             then Some [[("1", VInt 1)]]
             else Some [])
          [] 738000 1000 [].

(** *** Running a list of statements *)

(** The world after the events [T] were appended. *)
Definition after_events (T : list Event) (w : World) : World :=
  mkWorld (cursor w) (stdin w) (today w) (recursion_limit w) (trace w ++ T).

(** The events of [self.ex(sql..., commit=True)] for each role of a list. *)
Definition role_events (template name_key action : string) (name : string)
           (roles : list string) : list Event :=
  flat_map (fun role_name =>
              [EvExecute (fmt template [("role", AStr role_name);
                                        ("action", AStr action);
                                        (name_key, AStr name)]);
               EvCommit]) roles.

(** A cursor that answers every statement. *)
Definition answers_all (w : World) : Prop :=
  forall hist q, cursor w hist q <> None.

(** The login [app] of the example server with its roles read. *)
Definition example_login : Reflected :=
  mkReflected (mkHandle Logins "app" (Some example_server))
              [("server_roles", VSet ["sysadmin"; "dbcreator"])]
              (Some [("name", VStr "app")]).

(** [Login('app', 'secret', server_roles=('dbcreator', 'bulkadmin'))] *)
Definition declared_login_with_roles : Declared :=
  mkDeclared Logins "app" None IgnoreNone []
    [("type_desc", VStr "SQL_LOGIN");
     ("server_roles", VSet ["dbcreator"; "bulkadmin"]);
     ("password", VStr "secret")].

(** The live table [t] with a primary key [pk_t] on its column [c]. *)
Definition example_world_with_key (answers : list string) : World :=
  mkWorld (fun hist q =>
             if String.eqb (sql_template q) "TABLE_PK_NAME"
             then Some [[("name", VStr "pk_t")]]
             else example_cursor hist q)
          answers 738000 1000 [].

(** *** Column attributes that depend on the data type *)

(** The data types for which a live column reports the attribute. *)
Definition carrying_types (attr : string) : list string :=
  if String.eqb attr "numeric_precision" then NUMERIC_TYPES ++ APPROX_NUMBER_TYPES
  else if String.eqb attr "numeric_scale" then NUMERIC_TYPES
  else if String.eqb attr "datetime_precision" then DATETIME_PRECISION_TYPES
  else if String.eqb attr "char_max_len" then CHAR_TYPES
  else [].

(** *** The table shortcuts of a declared database *)

(** [Schema(name)] *)
Definition Schema_init (name : string) : Outcome Declared :=
  DeclaredEntity_init Schemas (Some name) None IgnoreNone [].

(** The list with its first node called [n] replaced. *)
Fixpoint replace_first (n : string) (new : Declared) (l : list Declared)
  : list Declared :=
  match l with
  | [] => []
  | c :: l' =>
      if String.eqb (d_name c) n then new :: l'
      else c :: replace_first n new l'
  end.

(** [Database.get_table(table_name, schema_name)] *)
Definition Database_get_table (db : Declared) (table_name schema_name : string)
  : Outcome Declared :=
  match declared_get_child db Schemas schema_name with
  | Ok schema => declared_get_child schema Tables table_name
  | Raise e => Raise e
  end.

(** [Database.add_table(table, schema_name)].  The schema that receives
    the table is the object held in the database's list of schemas (the
    one [get_child] found, or the new one [add_child] just appended), so
    the database as the call leaves it holds the extended schema in that
    place. *)
Definition Database_add_table (db table : Declared) (schema_name : string)
  : Outcome Declared :=
  match declared_get_child db Schemas schema_name with
  | Ok schema =>
      match add_child schema table with
      | Ok schema' =>
          Ok (set_d_children db
                (children_set Schemas
                   (replace_first schema_name schema'
                                  (declared_children_of db Schemas))
                   (d_children db)))
      | Raise e => Raise e
      end
  | Raise InvalidDBEntityChildError =>
      match Schema_init schema_name with
      | Ok schema =>
          match add_child db schema with
          | Ok db1 =>
              match add_child schema table with
              | Ok schema' =>
                  Ok (set_d_children db1
                        (children_set Schemas
                           (removelast (declared_children_of db1 Schemas)
                            ++ [schema'])
                           (d_children db1)))
              | Raise e => Raise e
              end
          | Raise e => Raise e
          end
      | Raise e => Raise e
      end
  | Raise e => Raise e
  end.

(** [Database('db', 'sa')]: no schema, no user. *)
Definition declared_bare_database : Declared :=
  mkDeclared Databases "db" None IgnoreNone []
    [("recovery_model_desc", VStr "FULL"); ("data_size", VNone);
     ("log_size", VNone); ("owner", VStr "sa"); ("data_file_path", VNone);
     ("log_file_path", VNone)].

(** [Database('db', 'sa', schemas=[Schema('dbo')])] *)
Definition declared_database_with_schema : Declared :=
  mkDeclared Databases "db" None IgnoreNone
    [(Schemas, [mkDeclared Schemas "dbo" None IgnoreNone [] []])]
    [("recovery_model_desc", VStr "FULL"); ("data_size", VNone);
     ("log_size", VNone); ("owner", VStr "sa"); ("data_file_path", VNone);
     ("log_file_path", VNone)].

(* ===================================================================== *)
(** ** Reasoning about runs                                               *)
(* ===================================================================== *)

Lemma covers_le k k' P : covers k' P -> k <= k' -> covers k P.
Proof. intros H Hle e He. apply H. lia. Qed.

Lemma spec_ret {A} P (Q : A -> Prop) a : Q a -> spec P Q (ret a).
Proof.
  intros Hq w. exists []. cbn. rewrite app_nil_r.
  repeat split; auto. intros a' [= <-]. exact Hq.
Qed.

Lemma spec_raise {A} P (Q : A -> Prop) e : spec P Q (raise e).
Proof.
  intros w. exists []. cbn. rewrite app_nil_r.
  repeat split; auto. discriminate.
Qed.

Lemma spec_bind {A B} P (Q : A -> Prop) (R : B -> Prop) (m : M A) (f : A -> M B) :
  spec P Q m -> (forall a, Q a -> spec P R (f a)) -> spec P R (bind m f).
Proof.
  intros Hm Hf w. unfold bind.
  destruct (Hm w) as (T1 & E1 & F1 & Q1).
  destruct (m w) as [[a|e] w1]; cbn in *.
  - destruct (Hf a (Q1 a eq_refl) w1) as (T2 & E2 & F2 & Q2).
    exists (T1 ++ T2). rewrite E2, E1, app_assoc.
    repeat split; auto. apply Forall_app; auto.
  - exists T1. repeat split; auto. discriminate.
Qed.

Lemma spec_weaken {A} (P P' : Event -> Prop) (Q Q' : A -> Prop) m :
  spec P Q m -> (forall e, P e -> P' e) -> (forall a, Q a -> Q' a) ->
  spec P' Q' m.
Proof.
  intros H HP HQ w. destruct (H w) as (T & E & F & Qa).
  exists T. repeat split; auto. eapply Forall_impl; eauto.
Qed.

Lemma spec_post {A} P (Q Q' : A -> Prop) m :
  spec P Q m -> (forall a, Q a -> Q' a) -> spec P Q' m.
Proof. intros H HQ. eapply spec_weaken; eauto. Qed.

Lemma spec_any {A} P (Q : A -> Prop) m : spec P Q m -> spec P any m.
Proof. intros H. eapply spec_weaken; eauto. intros; exact I. Qed.

Lemma spec_emit P (Q : unit -> Prop) e : P e -> Q tt -> spec P Q (emit e).
Proof.
  intros Hp Hq w. exists [e]. cbn. repeat split; auto.
  intros [] _. exact Hq.
Qed.

Lemma spec_log P m : P (EvLog m) -> spec P any (log m).
Proof. intros. apply spec_emit; [assumption | exact I]. Qed.

Lemma spec_lift {A} P (o : Outcome A) : spec P any (lift o).
Proof. destruct o; [apply spec_ret; exact I | apply spec_raise]. Qed.

Lemma spec_try {A} P (Q : A -> Prop) m c h :
  spec P Q m -> spec P Q h -> spec P Q (try_except m c h).
Proof.
  intros Hm Hh w. unfold try_except.
  destruct (Hm w) as (T1 & E1 & F1 & Q1).
  destruct (m w) as [[a|e] w1]; cbn in *.
  - exists T1. repeat split; auto.
  - destruct (c e).
    + destruct (Hh w1) as (T2 & E2 & F2 & Q2).
      exists (T1 ++ T2). rewrite E2, E1, app_assoc.
      repeat split; auto. apply Forall_app; auto.
    + exists T1. repeat split; auto.
Qed.

Lemma spec_input P p : P (EvInput p) -> spec P any (input p).
Proof.
  intros Hp w. unfold input. exists [EvInput p].
  destruct (stdin w); cbn; repeat split; auto.
Qed.

Lemma spec_date_today P : spec P any date_today.
Proof. intros w. exists []. cbn. rewrite app_nil_r. repeat split; auto. Qed.

Lemma spec_cur_execute P q : covers 0 P -> spec P any (cur_execute q).
Proof.
  intros Hc w. unfold cur_execute. exists [EvExecute q].
  destruct (cursor w (trace w) q); cbn; repeat split; auto;
    constructor; auto; apply Hc; cbn; lia.
Qed.

Lemma spec_cur_commit P : covers 0 P -> spec P any cur_commit.
Proof. intros Hc. apply spec_emit; [apply Hc; cbn; lia | exact I]. Qed.

Lemma spec_for_each {A} P (l : list A) body :
  (forall x, spec P any (body x)) -> spec P any (for_each l body).
Proof.
  intros Hb. induction l as [|x l IH]; cbn.
  - apply spec_ret. exact I.
  - eapply spec_bind; [apply Hb | intros; exact IH].
Qed.

Lemma spec_map_m {A B} P (Q : B -> Prop) (f : A -> M B) (l : list A) :
  (forall x, spec P Q (f x)) -> spec P (Forall Q) (map_m f l).
Proof.
  intros Hf. induction l as [|x l IH]; cbn.
  - apply spec_ret. constructor.
  - eapply spec_bind; [apply Hf | intros y Hy].
    eapply spec_bind; [apply IH | intros ys Hys].
    apply spec_ret. constructor; auto.
Qed.

Lemma spec_with_autocommit {A} P (body : M A) :
  covers 0 P -> spec P any body -> spec P any (with_autocommit body).
Proof.
  intros Hc Hb. unfold with_autocommit.
  eapply (spec_bind _ any); [apply spec_cur_commit; assumption|]. intros _ _.
  eapply (spec_bind _ any); [apply spec_emit; [apply Hc; cbn; lia | exact I]|].
  intros _ _ w. destruct (Hb w) as (T & E & F & _).
  destruct (body w) as [o w1]. cbn in *.
  exists (T ++ [EvAutoCommit false]).
  split; [rewrite E, app_assoc; reflexivity|].
  split; [|intros; exact I].
  apply Forall_app. split; [assumption|].
  constructor; [apply Hc; cbn; lia | constructor].
Qed.

Create HintDb spec discriminated.

#[export] Hint Resolve spec_raise spec_lift spec_date_today spec_cur_execute
  spec_cur_commit : spec.
#[export] Hint Extern 1 (covers _ _) =>
  (eapply covers_le; [eassumption | lia]) : spec.
#[export] Hint Extern 1 (any _) => exact I : spec.

(** One step through a monadic term. *)
Ltac spec_leaf :=
  first [ solve [eauto with spec]
        | solve [eapply spec_any; eauto with spec] ].

Ltac spec_step :=
  match goal with
  | |- spec _ _ (bind _ _) =>
      first [ eapply spec_bind; [ solve [eauto with spec] | intros ? ? ]
            | eapply (spec_bind _ any); [ | intros ? _ ] ]
  | |- spec _ _ (ret _) => apply spec_ret
  | |- spec _ _ (raise _) => apply spec_raise
  | |- spec _ _ (log _) => apply spec_log
  | |- spec _ _ (emit _) => apply spec_emit
  | |- spec _ _ (try_except _ _ _) => apply spec_try
  | |- spec _ _ (for_each _ _) => apply spec_for_each; intros ?
  | |- spec _ _ (with_autocommit _) =>
      apply spec_with_autocommit; [solve [eauto with spec]|]
  | |- spec _ _ (match ?x with _ => _ end) => destruct x eqn:?
  | |- spec _ _ (let (_, _) := ?x in _) => destruct x eqn:?
  | |- spec _ any _ => spec_leaf
  | |- any _ => exact I
  | |- _ => solve [eauto with spec]
  end.

Ltac spec_auto := repeat spec_step.

Lemma spec_ex P q c : covers 0 P -> spec P any (ex q c).
Proof. intros. unfold ex. spec_auto. Qed.
#[export] Hint Resolve spec_ex : spec.

Lemma spec_field P row name : spec P any (field row name).
Proof. unfold field. spec_auto. Qed.
#[export] Hint Resolve spec_field : spec.

Lemma spec_value_lower P v : spec P any (value_lower v).
Proof. unfold value_lower. spec_auto. Qed.

Lemma spec_value_in P v l : spec P any (value_in v l).
Proof. unfold value_in. spec_auto. Qed.

Lemma spec_parent_of P h : spec P any (parent_of h).
Proof. unfold parent_of. spec_auto. Qed.
#[export] Hint Resolve spec_value_lower spec_value_in spec_parent_of : spec.

Lemma spec_new_reflected P cls parent name :
  covers 0 P -> spec P (child_of cls parent) (new_reflected cls parent name).
Proof.
  intros. unfold new_reflected. destruct name; try apply spec_raise.
  eapply (spec_bind _ any).
  - destruct cls; spec_auto.
  - intros _ _. apply spec_ret. split; reflexivity.
Qed.
#[export] Hint Resolve spec_new_reflected : spec.

Lemma child_of_same_node cls parent r r' :
  r_id r' = r_id r -> child_of cls parent r -> child_of cls parent r'.
Proof. unfold child_of, r_type, r_parent. intros ->. auto. Qed.

Ltac node_facts :=
  unfold same_node, same_node_snd, any in *; cbn [fst snd r_id] in *;
  try exact I;
  try solve [congruence
            | eapply child_of_same_node; [|eassumption]; cbn; congruence
            | eauto with spec ].

Ltac spec_go :=
  repeat (first [ spec_step | progress node_facts ]).

Lemma spec_table_args P sk tk parent : spec P any (table_args sk tk parent).
Proof. unfold table_args. spec_go. Qed.
#[export] Hint Resolve spec_table_args : spec.

Lemma spec_self_table_args P r : spec P any (self_table_args r).
Proof. unfold self_table_args. spec_go. Qed.
#[export] Hint Resolve spec_self_table_args : spec.

Lemma spec_map_m_any {A B} P (f : A -> M B) (l : list A) :
  (forall x, spec P any (f x)) -> spec P any (map_m f l).
Proof. intros. eapply spec_any. apply spec_map_m. eassumption. Qed.

Lemma spec_fields_of P rows name : spec P any (fields_of rows name).
Proof. unfold fields_of. apply spec_map_m_any. intros. spec_go. Qed.
#[export] Hint Resolve spec_fields_of : spec.

Lemma spec_list_names_ex P cls parent :
  covers 0 P -> spec P any (list_names_ex cls parent).
Proof.
  intros. unfold list_names_ex. destruct cls; spec_go.
  apply spec_map_m_any. intros. spec_go.
Qed.

Lemma spec_name_exists_ex P cls parent name :
  covers 0 P -> spec P any (name_exists_ex cls parent name).
Proof. intros. unfold name_exists_ex. destruct cls; spec_go. Qed.

Lemma spec_get_details_ex P r : covers 0 P -> spec P any (get_details_ex r).
Proof. intros. unfold get_details_ex. destruct (r_type r); spec_go. Qed.

Lemma spec_lowered_field P name row : spec P any (lowered_field name row).
Proof. unfold lowered_field. spec_go. Qed.
#[export] Hint Resolve spec_list_names_ex spec_name_exists_ex
  spec_get_details_ex spec_lowered_field : spec.

Lemma spec_get_attr_columns P r : covers 0 P -> spec P any (get_attr_columns r).
Proof.
  intros. unfold get_attr_columns. spec_go.
  all: try (apply spec_map_m_any; intros; spec_go).
Qed.

Lemma spec_get_attr_included_columns P r :
  covers 0 P -> spec P any (get_attr_included_columns r).
Proof.
  intros. unfold get_attr_included_columns. spec_go.
  all: try (apply spec_map_m_any; intros; spec_go).
Qed.

Lemma spec_column_precision P types name detail :
  spec P any (column_precision types name detail).
Proof. unfold column_precision. spec_go. Qed.

Lemma spec_int_or_zero P v : spec P any (int_or_zero v).
Proof. unfold int_or_zero. spec_go. Qed.

Lemma spec_as_text P v : spec P any (as_text v).
Proof. unfold as_text. spec_go. Qed.
#[export] Hint Resolve spec_get_attr_columns spec_get_attr_included_columns
  spec_column_precision spec_int_or_zero spec_as_text : spec.

Lemma spec_getter P cls attr g r detail :
  covers 0 P -> getter cls attr = Some g -> spec P any (g r detail).
Proof.
  intros Hc Hg. unfold getter in Hg.
  destruct cls;
    repeat match type of Hg with
           | (if ?c then _ else _) = _ => destruct c
           | Some _ = Some _ => injection Hg as <-
           | None = Some _ => discriminate
           end; spec_go.
  all: try (apply spec_map_m_any; intros; spec_go).
Qed.

Lemma spec_read_attribute P r detail attr :
  covers 0 P -> spec P any (read_attribute r detail attr).
Proof.
  intros. unfold read_attribute.
  destruct (getter (r_type r) attr) eqn:E; [eapply spec_getter; eauto | spec_go].
Qed.
#[export] Hint Resolve spec_read_attribute : spec.

Lemma spec_getattr_with P gd r item :
  covers 0 P -> (forall r', spec P any (gd r')) ->
  spec P (same_node_snd r) (getattr_with gd r item).
Proof. intros. unfold getattr_with. spec_go. Qed.

Lemma spec_str_with P gd r :
  covers 0 P -> (forall r', spec P any (gd r')) ->
  spec P (same_node r) (str_with gd r).
Proof.
  intros Hc Hgd. unfold str_with.
  destruct (r_type r); try (apply spec_ret; reflexivity).
  - eapply spec_bind; [apply spec_getattr_with; auto|]. intros [v r1] H1.
    apply spec_ret. exact H1.
  - eapply spec_bind; [apply spec_getattr_with; auto|]. intros [v r1] H1.
    eapply spec_bind; [apply spec_getattr_with; auto|]. intros [v2 r2] H2.
    destruct (truthy v2).
    + eapply spec_bind; [apply spec_getattr_with; auto|]. intros [v3 r3] H3.
      apply spec_ret. node_facts.
    + apply spec_ret. node_facts.
Qed.

Lemma spec_get_details_fuel P fuel :
  covers 0 P -> forall r, spec P any (get_details_fuel fuel r).
Proof.
  intros Hc. induction fuel as [|fuel IH]; intros r; cbn.
  - spec_go.
  - eapply (spec_bind _ any); [spec_go|]. intros details _.
    destruct details; [spec_go|].
    destruct (r_type r); try apply spec_raise.
    all: eapply (spec_bind _ any);
      [eapply spec_any; apply spec_str_with; auto | intros; apply spec_raise].
Qed.

Lemma spec_get_details P r : covers 0 P -> spec P any (get_details r).
Proof.
  intros Hc w. unfold get_details.
  apply (spec_get_details_fuel P (recursion_limit w) Hc r w).
Qed.
#[export] Hint Resolve spec_get_details : spec.

Lemma spec_getattr_reflected P r item :
  covers 0 P -> spec P (same_node_snd r) (getattr_reflected r item).
Proof. intros. apply spec_getattr_with; auto with spec. Qed.

Lemma spec_str_reflected P r :
  covers 0 P -> spec P (same_node r) (str_reflected r).
Proof. intros. apply spec_str_with; auto with spec. Qed.
#[export] Hint Resolve spec_getattr_reflected spec_str_reflected : spec.

Lemma spec_read_all P attrs : forall r,
  covers 0 P -> spec P (same_node r) (read_all r attrs).
Proof.
  induction attrs as [|a attrs IH]; intros r Hc; cbn.
  - apply spec_ret. reflexivity.
  - eapply spec_bind; [apply spec_getattr_reflected; auto|]. intros [v r1] H1.
    eapply spec_post; [apply IH; auto|].
    intros r2 H2. node_facts.
Qed.
#[export] Hint Resolve spec_read_all : spec.

Lemma spec_reflected_display_details P r :
  covers 0 P -> spec P (same_node r) (reflected_display_details r).
Proof.
  intros. unfold reflected_display_details.
  eapply spec_bind; [apply spec_read_all; auto|]. intros r1 H1.
  eapply spec_post; [apply spec_str_reflected; auto|].
  intros r2 H2. node_facts.
Qed.
#[export] Hint Resolve spec_reflected_display_details : spec.

Lemma spec_all_for_parent P cls parent :
  covers 0 P -> spec P (Forall (child_of cls parent)) (all_for_parent cls parent).
Proof.
  intros. unfold all_for_parent.
  eapply (spec_bind _ any); [spec_go|]. intros names _.
  apply spec_map_m. intros. auto with spec.
Qed.
#[export] Hint Resolve spec_all_for_parent : spec.

Lemma spec_get_child_class_from_name P self ct :
  spec P (fun c => c = ct /\ In ct (reflected_child_types (h_type self)))
       (get_child_class_from_name self ct).
Proof.
  unfold get_child_class_from_name.
  destruct (existsb _ _) eqn:E; [|apply spec_raise].
  apply spec_ret. split; [reflexivity|].
  apply existsb_exists in E. destruct E as (x & Hin & Hx).
  replace ct with x; [exact Hin|]. destruct ct, x; cbn in Hx; congruence.
Qed.
#[export] Hint Resolve spec_get_child_class_from_name : spec.

Lemma spec_get_children P self ct :
  covers 0 P -> spec P (Forall (child_of ct self)) (get_children self ct).
Proof.
  intros. unfold get_children.
  eapply spec_bind; [apply spec_get_child_class_from_name|].
  intros c [-> _]. auto with spec.
Qed.
#[export] Hint Resolve spec_get_children : spec.

Lemma spec_by_name P cls parent name :
  covers 0 P -> spec P (child_of cls parent) (by_name cls parent name).
Proof. intros. unfold by_name. spec_go. Qed.
#[export] Hint Resolve spec_by_name : spec.

Lemma spec_get_child P self ct name :
  covers 0 P -> spec P (child_of ct self) (get_child self ct name).
Proof.
  intros. unfold get_child.
  eapply spec_bind; [apply spec_get_child_class_from_name|].
  intros c [-> _]. auto with spec.
Qed.
#[export] Hint Resolve spec_get_child : spec.

Lemma spec_first_child_by_name P self cts name :
  covers 0 P -> spec P any (first_child_by_name self cts name).
Proof.
  intros. induction cts; cbn; [apply spec_raise|].
  apply spec_try; [spec_leaf | assumption].
Qed.

Lemma spec_equate_columns P r d :
  covers 0 P -> spec P (same_node_snd r) (equate_columns r d).
Proof.
  intros Hc. unfold equate_columns. spec_go. all: try (apply Hc; cbn; lia).
Qed.

Lemma spec_equate_attribute P attr r d :
  covers 0 P -> spec P (same_node_snd r) (equate_attribute attr r d).
Proof. intros. unfold equate_attribute. spec_go. Qed.
#[export] Hint Resolve spec_equate_columns spec_equate_attribute : spec.

Lemma spec_equate_declared P r d :
  covers 0 P -> spec P (same_node_snd r) (equate_declared r d).
Proof.
  intros. unfold equate_declared. destruct (r_type r); spec_go.
  eapply spec_post; [apply spec_equate_attribute; auto|].
  intros. node_facts.
Qed.
#[export] Hint Resolve spec_equate_declared : spec.

Lemma spec_reflected_eq P r d :
  covers 0 P -> spec P (same_node_snd r) (reflected_eq r d).
Proof. intros. unfold reflected_eq. spec_go. Qed.
#[export] Hint Resolve spec_reflected_eq : spec.

Lemma spec_iter_strs P v : spec P any (iter_strs v).
Proof. unfold iter_strs. spec_go. Qed.
#[export] Hint Resolve spec_iter_strs : spec.

Lemma spec_join_value P sep v : spec P any (join_value sep v).
Proof. unfold join_value. spec_go. Qed.
#[export] Hint Resolve spec_join_value : spec.

Lemma spec_all_fields_match P fk_detail d attrs :
  spec P any (all_fields_match fk_detail d attrs).
Proof. induction attrs; cbn; spec_go. Qed.
#[export] Hint Resolve spec_all_fields_match : spec.

Lemma spec_find_foreign_key P parent d names :
  covers 0 P ->
  spec P (child_of ForeignKeys parent) (find_foreign_key parent d names).
Proof. intros. induction names; cbn; spec_go. Qed.

Lemma spec_find_index P cls parent d indexes :
  covers 0 P -> Forall (child_of cls parent) indexes ->
  spec P (child_of cls parent) (find_index d indexes).
Proof.
  intros Hc Hall. induction Hall as [|index indexes Hi Hall IH]; cbn.
  - spec_go.
  - eapply spec_bind; [apply spec_reflected_eq; auto|]. intros [same index1] H1.
    destruct same; [|exact IH].
    eapply (spec_bind _ any); [spec_go|]. intros _ _.
    eapply spec_bind; [apply spec_str_reflected; auto|]. intros index2 H2.
    eapply (spec_bind _ any); [apply spec_log; apply Hc; cbn; lia|]. intros _ _.
    apply spec_ret. node_facts.
Qed.

Lemma spec_from_declared P cls parent d :
  covers 0 P -> spec P (child_of cls parent) (from_declared cls parent d).
Proof.
  intros Hc. unfold from_declared.
  destruct cls; try (apply spec_by_name; assumption).
  - (* users *) spec_go. all: try (apply Hc; cbn; lia).
  - (* primary keys *) spec_go. all: try (apply spec_map_m_any; intros; spec_go).
  - (* indexes *)
    eapply spec_bind; [apply spec_all_for_parent; auto|]. intros indexes Hall.
    apply spec_find_index; auto.
  - (* foreign keys *)
    eapply (spec_bind _ any); [spec_go|]. intros.
    apply spec_find_foreign_key; auto.
  - (* partitions *) spec_go.
Qed.
#[export] Hint Resolve spec_from_declared : spec.

Lemma spec_data_type_representation P a b c d e :
  spec P any (data_type_representation a b c d e).
Proof. unfold data_type_representation. spec_go. Qed.
#[export] Hint Resolve spec_data_type_representation : spec.

Lemma spec_column_sql_representation P n a b c d e f g :
  spec P any (column_sql_representation n a b c d e f g).
Proof. unfold column_sql_representation. spec_go. Qed.
#[export] Hint Resolve spec_column_sql_representation : spec.

Lemma spec_declared_sql_representation P d :
  spec P any (declared_sql_representation d).
Proof. unfold declared_sql_representation. spec_go. Qed.
#[export] Hint Resolve spec_declared_sql_representation : spec.

Lemma spec_reflected_data_type_representation P r :
  covers 0 P ->
  spec P (same_node_snd r) (reflected_data_type_representation r).
Proof. intros. unfold reflected_data_type_representation. spec_go. Qed.
#[export] Hint Resolve spec_reflected_data_type_representation : spec.

Lemma spec_from_getattr P o attr :
  covers 0 P -> spec P any (from_getattr o attr).
Proof. intros. unfold from_getattr. spec_go. Qed.
#[export] Hint Resolve spec_from_getattr : spec.

Lemma spec_create_helper P cls parent from_obj name drop_existing create_on :
  covers 0 P ->
  spec P any (create_helper cls parent from_obj name drop_existing create_on).
Proof. intros. unfold create_helper. spec_go. Qed.
#[export] Hint Resolve spec_create_helper : spec.

Lemma spec_recreate_new_attributes P r d :
  covers 0 P -> spec P any (recreate_new_attributes r d).
Proof. intros. unfold recreate_new_attributes. spec_go. Qed.
#[export] Hint Resolve spec_recreate_new_attributes : spec.

Lemma spec_recreate_new_filegroup P r create_on :
  covers 1 P -> spec P any (recreate_new_filegroup r create_on).
Proof.
  intros Hc. unfold recreate_new_filegroup. spec_go. all: try (apply Hc; cbn; lia).
Qed.
#[export] Hint Resolve spec_recreate_new_filegroup : spec.

Lemma spec_table_method {A} P Q self (body : M A) :
  spec P Q body -> spec P Q (table_method self body).
Proof. intros. unfold table_method. destruct (h_type self); auto with spec. Qed.

Lemma spec_filter_m {A} P (keep : A -> M (bool * A)) l :
  (forall x, spec P any (keep x)) -> spec P any (filter_m keep l).
Proof. intros. induction l; cbn; spec_go. Qed.

Lemma spec_includes_column P name index :
  covers 0 P -> spec P any (includes_column name index).
Proof. intros. unfold includes_column. spec_go. Qed.
#[export] Hint Resolve spec_includes_column : spec.

Lemma spec_get_indexes_for_column P self name :
  covers 0 P -> spec P any (get_indexes_for_column self name).
Proof.
  intros. unfold get_indexes_for_column. apply spec_table_method.
  spec_go. all: try (apply spec_filter_m; intros; spec_go).
Qed.
#[export] Hint Resolve spec_get_indexes_for_column : spec.

Lemma spec_is_clustered P index :
  covers 0 P -> spec P any (is_clustered index).
Proof. intros. unfold is_clustered. spec_go. Qed.
#[export] Hint Resolve spec_is_clustered : spec.

Lemma spec_first_clustered P indexes :
  covers 0 P -> spec P any (first_clustered indexes).
Proof. intros. induction indexes; cbn; spec_go. Qed.
#[export] Hint Resolve spec_first_clustered : spec.

Lemma spec_get_clustered_index P self :
  covers 0 P -> spec P any (get_clustered_index self).
Proof.
  intros. unfold get_clustered_index. apply spec_table_method. spec_go.
Qed.

Lemma spec_get_nonclustered_indexes P self :
  covers 0 P -> spec P any (get_nonclustered_indexes self).
Proof.
  intros. unfold get_nonclustered_indexes. apply spec_table_method.
  spec_go. all: try (apply spec_filter_m; intros; spec_go).
Qed.
#[export] Hint Resolve spec_get_clustered_index spec_get_nonclustered_indexes
  : spec.

Lemma spec_recreate_indexes_on_filegroup P self filegroup :
  covers 1 P -> spec P any (recreate_indexes_on_filegroup self filegroup).
Proof.
  intros. unfold recreate_indexes_on_filegroup. apply spec_table_method.
  spec_go.
Qed.

Lemma spec_get_pk_fields P self :
  covers 0 P -> spec P any (get_pk_fields self).
Proof. intros. unfold get_pk_fields. apply spec_table_method. spec_go. Qed.
#[export] Hint Resolve spec_recreate_indexes_on_filegroup spec_get_pk_fields
  : spec.

Lemma spec_delete_with P dex r :
  covers 1 P -> (forall r', spec P (same_node r') (dex r')) ->
  spec P (same_node_snd r) (delete_with dex r).
Proof.
  intros Hc Hd. unfold delete_with. destruct (can_delete r).
  - eapply (spec_bind _ any); [apply spec_input; apply Hc; cbn; lia|].
    intros answer _. destruct (String.eqb answer "y"); [|spec_go].
    eapply (spec_bind _ any); [apply spec_log; apply Hc; cbn; lia|]. intros _ _.
    eapply spec_bind; [apply Hd|]. intros r1 H1. spec_go.
  - eapply spec_bind; [apply spec_str_reflected; auto with spec|]. intros r1 H1.
    eapply (spec_bind _ any); [apply spec_log; apply Hc; cbn; lia|]. intros _ _.
    spec_go.
Qed.

Lemma spec_delete_ex_base P r :
  covers 1 P -> spec P (same_node r) (delete_ex_base r).
Proof.
  intros Hc. unfold delete_ex_base. destruct (r_type r); spec_go.
  all: try (apply Hc; cbn; lia).
Qed.
#[export] Hint Resolve spec_delete_ex_base : spec.

Lemma spec_delete_each_index P indexes :
  covers 1 P -> spec P any (delete_each_index indexes).
Proof.
  intros. induction indexes; cbn; [spec_go|].
  eapply (spec_bind _ any).
  - eapply spec_any. apply spec_delete_with; auto with spec.
  - intros [deleted r1] _. destruct (negb _); spec_go.
Qed.
#[export] Hint Resolve spec_delete_each_index : spec.

Lemma spec_drop_associated_indexes P r :
  covers 1 P -> spec P any (drop_associated_indexes r).
Proof. intros. unfold drop_associated_indexes. spec_go. Qed.
#[export] Hint Resolve spec_drop_associated_indexes : spec.

Lemma spec_delete_ex P r : covers 1 P -> spec P (same_node r) (delete_ex r).
Proof.
  intros Hc. unfold delete_ex.
  destruct (r_type r); try (apply spec_delete_ex_base; assumption).
  spec_go. all: try (apply Hc; cbn; lia).
Qed.
#[export] Hint Resolve spec_delete_ex : spec.

Lemma spec_delete P r : covers 1 P -> spec P (same_node_snd r) (delete r).
Proof. intros. apply spec_delete_with; auto with spec. Qed.
#[export] Hint Resolve spec_delete : spec.

Lemma spec_text_or_none P v : spec P any (text_or_none v).
Proof. unfold text_or_none. spec_go. Qed.

Lemma spec_first_column P rows : spec P any (first_column rows).
Proof. unfold first_column. spec_go. Qed.

Lemma spec_date_of P v : spec P any (date_of v).
Proof. unfold date_of. spec_go. Qed.
#[export] Hint Resolve spec_text_or_none spec_first_column spec_date_of : spec.

Lemma spec_partition_create_ex P parent d :
  covers 1 P ->
  (forall s t c, P (EvStep (StepAssignName d (scheme_name s t c)))) ->
  spec P any (partition_create_ex parent d).
Proof.
  intros Hc Ha. unfold partition_create_ex. spec_go. all: try apply Ha.
Qed.

Lemma spec_create_ex P cls parent d :
  covers 1 P ->
  (cls = Partitions ->
   forall s t c, P (EvStep (StepAssignName d (scheme_name s t c)))) ->
  spec P any (create_ex cls parent d).
Proof.
  intros Hc Ha. unfold create_ex. destruct cls;
    try (apply spec_partition_create_ex; [assumption | apply Ha; reflexivity]);
    spec_go.
  all: try (apply spec_map_m_any; intros; spec_go).
Qed.

Lemma spec_create P cls parent d :
  covers 2 P ->
  (cls = Partitions ->
   forall s t c, P (EvStep (StepAssignName d (scheme_name s t c)))) ->
  spec P any (create cls parent d).
Proof.
  intros Hc Ha. unfold create.
  eapply (spec_bind _ any); [spec_go|]. intros _ _.
  eapply (spec_bind _ any); [apply spec_log; apply Hc; cbn; lia|]. intros _ _.
  eapply (spec_bind _ any);
    [apply spec_create_ex; [auto with spec | exact Ha]|]. intros d1 _.
  spec_go. all: try (apply Hc; cbn; lia).
Qed.

Lemma spec_get_or_create P cls parent d :
  covers 2 P ->
  (cls = Partitions ->
   forall s t c, P (EvStep (StepAssignName d (scheme_name s t c)))) ->
  spec P (counterpart_of cls parent) (get_or_create cls parent d).
Proof.
  intros Hc Ha. unfold get_or_create. apply spec_try.
  - eapply spec_bind; [apply spec_from_declared; auto with spec|].
    intros r Hr. apply spec_ret. exact Hr.
  - destruct (can_create cls).
    + eapply (spec_bind _ any); [apply spec_create; assumption|]. intros d1 _.
      eapply spec_bind; [apply spec_from_declared; auto with spec|].
      intros r Hr. apply spec_ret. exact Hr.
    + spec_go. all: try (apply Hc; cbn; lia). all: try exact I.
Qed.

#[export] Hint Resolve spec_partition_create_ex spec_create_ex spec_create
  : spec.
#[export] Hint Extern 1 =>
  match goal with H : _ = Partitions |- _ => discriminate H end : spec.

Lemma spec_get_or_create_child P self d :
  covers 2 P -> assigns_partitions P ->
  spec P (fun p => counterpart_of (d_type d) self p
                   /\ (fst p <> None ->
                       In (d_type d) (reflected_child_types (h_type self))))
       (get_or_create_child self d).
Proof.
  intros Hc Ha. unfold get_or_create_child.
  eapply spec_bind; [apply spec_get_child_class_from_name|].
  intros c [-> Hin].
  eapply spec_post;
    [apply spec_get_or_create; [auto | intros Hp s t c; apply Ha; exact Hp]|].
  intros p Hp. split; auto.
Qed.

Lemma spec_rename_ex P r new_name :
  covers 0 P -> spec P any (rename_ex r new_name).
Proof.
  intros. unfold rename_ex. destruct (r_type r); spec_go.

Qed.
#[export] Hint Resolve spec_rename_ex : spec.

Lemma spec_rename P r new_name : covers 2 P -> spec P any (rename r new_name).
Proof.
  intros Hc. unfold rename.
  eapply (spec_bind _ any); [apply spec_input; apply Hc; cbn; lia|].
  intros. spec_go. all: try (apply Hc; cbn; lia).
Qed.
#[export] Hint Resolve spec_rename : spec.

Lemma spec_alter_column P r d :
  covers 0 P -> spec P (same_node r) (alter_column r d).
Proof. intros. unfold alter_column. spec_go. Qed.
#[export] Hint Resolve spec_alter_column : spec.

Lemma spec_set_attr_data_type P r d :
  covers 2 P -> spec P (same_node r) (set_attr_data_type r d).
Proof.
  intros Hc. unfold set_attr_data_type. spec_go.
  all: try (apply Hc; cbn; lia).
Qed.

Lemma spec_set_attr_identity P r d :
  covers 2 P -> r_type r = Columns ->
  spec P (same_node r) (set_attr_identity r d).
Proof.
  intros Hc Ht. unfold set_attr_identity. spec_go.
  apply spec_create; [assumption|].
  match goal with H : r_id ?r0 = r_id r |- _ =>
    unfold r_type; rewrite H; fold (r_type r); rewrite Ht
  end.
  intros Hp. discriminate Hp.
Qed.

Lemma spec_alter_roles P template name_key r attr d :
  covers 0 P -> spec P (same_node r) (alter_roles template name_key r attr d).
Proof. intros Hc. unfold alter_roles. spec_go. Qed.

Lemma spec_set_attr_db_roles P r d :
  covers 2 P -> spec P (same_node r) (set_attr_db_roles r d).
Proof.
  intros Hc. unfold set_attr_db_roles. spec_go.
  all: try (apply Hc; cbn; lia).
  eapply spec_post; [apply spec_alter_roles; auto with spec|].
  intros. node_facts.
Qed.

Lemma spec_change_db_file_path P r file_type new_path :
  covers 2 P -> spec P (same_node r) (change_db_file_path r file_type new_path).
Proof.
  intros Hc. unfold change_db_file_path.
  eapply (spec_bind _ any); [spec_go|]. intros cur _.
  destruct (has_row cur); [apply spec_raise|].
  eapply (spec_bind _ any); [apply spec_input; apply Hc; cbn; lia|].
  intros answer _. destruct (String.eqb answer "y"); [|spec_go].
  eapply (spec_bind _ any); [spec_go|]. intros cur2 _.
  eapply (spec_bind _ any); [spec_go|]. intros _ _.
  eapply (spec_bind _ any).
  - apply spec_with_autocommit; [auto with spec|].
    spec_go. apply spec_input. apply Hc. cbn. lia.
  - intros. spec_go.
Qed.
#[export] Hint Resolve spec_set_attr_data_type spec_set_attr_identity
  spec_alter_roles spec_set_attr_db_roles spec_change_db_file_path : spec.

Lemma spec_setter P cls attr method r d :
  covers 2 P -> setter cls attr = Some method -> r_type r = cls ->
  spec P (same_node r) (method r d).
Proof.
  intros Hc Hs Ht. unfold setter in Hs.
  destruct cls;
    repeat match type of Hs with
           | (if ?c then _ else _) = _ => destruct c
           | Some _ = Some _ => injection Hs as <-
           | None = Some _ => discriminate
           end; spec_go.
Qed.

Lemma spec_set_attribute P r d attr :
  covers 2 P -> (forall e, is_set_event (r_id r) e -> P e) ->
  spec P (same_node_snd r) (set_attribute r d attr).
Proof.
  intros Hc Hs. unfold set_attribute.
  destruct (setter (r_type r) attr) as [method|] eqn:E.
  - eapply (spec_bind _ any); [spec_go|]. intros new_value _.
    eapply (spec_bind _ any); [apply spec_input; apply Hs; reflexivity|].
    intros answer _. destruct (String.eqb answer "y"); [|spec_go].
    eapply spec_bind; [apply spec_str_reflected; auto with spec|]. intros r1 H1.
    eapply (spec_bind _ any); [apply spec_log; apply Hs; reflexivity|].
    intros _ _.
    eapply spec_bind;
      [eapply spec_setter; eauto; unfold r_type; rewrite H1; reflexivity|].
    intros r2 H2.
    eapply (spec_bind _ any); [spec_go|]. intros _ _.
    eapply spec_bind; [apply spec_getattr_reflected; auto with spec|].
    intros [now r4] H4. destruct (negb _); [apply spec_raise|].
    apply spec_ret. unfold reset_attribute in *. node_facts.
  - eapply (spec_bind _ any); [apply spec_log; apply Hs; reflexivity|].
    intros. spec_go.
Qed.

Lemma covers_below k : covers 2 (below k).
Proof.
  intros e He. unfold below.
  destruct e as [q| | |p|m|s]; cbn in *; try exact I.
  - destruct p; cbn in *; try exact I; lia.
  - destruct m; cbn in *; try exact I; lia.
  - lia.
Qed.

Lemma is_set_event_node h e : is_set_event h e -> node_of e = Some h.
Proof.
  destruct e as [q| | |p|m|s]; cbn; try contradiction.
  - destruct p; cbn; try contradiction; congruence.
  - destruct m; cbn; try contradiction; congruence.
Qed.

Lemma is_attr_event_node h e : is_attr_event h e -> node_of e = Some h.
Proof.
  destruct e as [q| | |p|m|s]; cbn; try contradiction.
  - destruct p; cbn; try contradiction; congruence.
  - destruct m; cbn; try contradiction; congruence.
  - destruct s; cbn; try contradiction; congruence.
Qed.

Lemma is_child_event_node h e : is_child_event h e -> node_of e = Some h.
Proof.
  unfold is_child_event.
  destruct e as [q| | |p|m|s]; cbn; try tauto.
  - destruct m; cbn; try tauto; intros [H|H]; congruence || contradiction.
  - destruct s; cbn; try tauto; intros [H|H]; congruence || contradiction.
Qed.

Lemma is_set_event_attr h e : is_set_event h e -> is_attr_event h e.
Proof.
  destruct e as [q| | |p|m|s]; cbn; try contradiction; auto.
  destruct m; cbn; try contradiction; auto.
Qed.

Lemma below_le k k' e : below k' e -> k <= k' -> below k e.
Proof. unfold below. destruct (node_of e); auto. lia. Qed.

Lemma depth_child r h : r_parent r = Some h -> depth (r_id r) = S (depth h).
Proof.
  unfold r_parent. destruct (r_id r) as [t n p]. cbn. intros ->. reflexivity.
Qed.

Lemma spec_align_attributes P d attrs : forall r,
  covers 2 P -> (forall e, is_attr_event (r_id r) e -> P e) ->
  spec P (same_node r) (align_attributes d r attrs).
Proof.
  induction attrs as [|a attrs IH]; intros r Hc Ha; cbn.
  - apply spec_ret. reflexivity.
  - eapply (spec_bind _ any);
      [apply spec_emit; [apply Ha; reflexivity | exact I]|]. intros _ _.
    eapply (spec_bind _ any); [spec_go|]. intros wanted _.
    eapply spec_bind; [apply spec_getattr_reflected; auto with spec|].
    intros [current r1] H1.
    eapply (spec_bind _ (same_node r)).
    + destruct (negb _); [|apply spec_ret; exact H1].
      eapply spec_bind; [apply spec_getattr_reflected; auto with spec|].
      intros [current' r1'] H1'.
      eapply (spec_bind _ any); [spec_go|]. intros wanted' _.
      eapply spec_bind; [apply spec_str_reflected; auto with spec|].
      intros r1'' H1''.
      eapply (spec_bind _ any); [apply spec_log; apply Ha; reflexivity|].
      intros _ _.
      eapply spec_bind.
      * apply spec_set_attribute; [assumption|].
        intros e He. apply Ha.
        replace (r_id r) with (r_id r1'') by node_facts.
        apply is_set_event_attr. exact He.
      * intros [b r3] H3. apply spec_ret. node_facts.
    + intros r2 H2. eapply spec_post.
      * apply IH; [assumption|]. intros e He. apply Ha.
        replace (r_id r) with (r_id r2) by node_facts. exact He.
      * intros r3 H3. node_facts.
Qed.

Lemma spec_matches_any P l : forall r,
  covers 0 P -> spec P (same_node_snd r) (matches_any r l).
Proof.
  induction l as [|dc l IH]; intros r Hc; cbn.
  - apply spec_ret. reflexivity.
  - eapply spec_bind; [apply spec_reflected_eq; assumption|].
    intros [same r1] H1. destruct same; [apply spec_ret; exact H1|].
    eapply spec_post; [apply IH; assumption|]. intros. node_facts.
Qed.

Lemma spec_delete_undeclared P rp l c :
  covers 1 P -> (forall e, is_removal_event rp e -> P e) ->
  spec P any (delete_undeclared rp l c).
Proof.
  intros Hc Hch. unfold delete_undeclared.
  eapply spec_bind; [apply spec_str_reflected; auto with spec|]. intros c1 H1.
  eapply (spec_bind _ any); [apply spec_log; apply Hch; reflexivity|].
  intros _ _.
  eapply spec_bind; [apply spec_matches_any; auto with spec|].
  intros [matched c2] H2. destruct matched.
  - eapply (spec_bind _ any); [eapply spec_any; apply spec_str_reflected;
                               auto with spec|]. intros _ _.
    apply spec_log. apply Hch. reflexivity.
  - eapply spec_bind; [apply spec_str_reflected; auto with spec|].
    intros c3 H3.
    eapply (spec_bind _ any); [apply spec_log; apply Hch; reflexivity|].
    intros _ _.
    eapply (spec_bind _ any); [eapply spec_any; apply spec_delete; assumption|].
    intros _ _. apply spec_ret. exact I.
Qed.

Lemma spec_remove_undeclared_children P dp rp ct l :
  covers 1 P -> (forall e, is_removal_event (r_id rp) e -> P e) ->
  spec P any (remove_undeclared_children dp rp ct l).
Proof.
  intros Hc Hch. unfold remove_undeclared_children.
  destruct (negb _); [|apply spec_ret; exact I].
  eapply (spec_bind _ any); [eapply spec_any; apply spec_str_reflected;
                             auto with spec|]. intros _ _.
  eapply (spec_bind _ any); [apply spec_log; apply Hch; reflexivity|].
  intros _ _.
  eapply (spec_bind _ any); [eapply spec_any; apply spec_get_children;
                             auto with spec|]. intros existing _.
  apply spec_for_each. intros c. apply spec_delete_undeclared; assumption.
Qed.

Lemma spec_align_declared_child_body P align rp dc :
  covers 2 P -> assigns_partitions P ->
  (forall d' r', live_child rp r' -> spec P any (align d' r')) ->
  spec P any (align_declared_child_body align rp dc).
Proof.
  intros Hc Has Hal. unfold align_declared_child_body.
  eapply (spec_bind _ any).
  - destruct (has_old_name dc); [|apply spec_ret; exact I].
    apply spec_try; [|apply spec_ret; exact I].
    eapply (spec_bind _ any); [eapply spec_any; apply spec_get_child;
                               auto with spec|]. intros old _.
    eapply (spec_bind _ any); [apply spec_rename; assumption|]. intros _ _.
    apply spec_ret. exact I.
  - intros _ _.
    eapply spec_bind; [apply spec_get_or_create_child; assumption|].
    intros [[r'|] dc1] [Hcp Hin]; cbn in *; [|apply spec_ret; exact I].
    apply Hal. destruct Hcp as [Ht Hp]. split; [exact Hp|].
    rewrite Ht. apply Hin. discriminate.
Qed.

Lemma spec_align_declared_child P align rp ct dc :
  covers 2 P -> assigns_partitions P ->
  (forall e, is_declared_step rp e -> P e) ->
  (forall d' r', live_child rp r' -> spec P any (align d' r')) ->
  spec P any (align_declared_child align rp ct dc).
Proof.
  intros Hc Has Hch Hal. unfold align_declared_child.
  eapply (spec_bind _ any);
    [apply spec_emit; [apply Hch; reflexivity | exact I]|]. intros _ _.
  apply spec_align_declared_child_body; assumption.
Qed.

Lemma spec_align_child_type_with P align dp rp ct :
  covers 2 P -> assigns_partitions P ->
  (forall e, is_child_event (r_id rp) e -> P e) ->
  (forall d' r', live_child (r_id rp) r' -> spec P any (align d' r')) ->
  spec P any (align_child_type_with align dp rp ct).
Proof.
  intros Hc Has Hch Hal. unfold align_child_type_with.
  eapply (spec_bind _ any); [spec_go|]. intros _ _.
  eapply (spec_bind _ any); [apply spec_log; apply Hch; left; reflexivity|].
  intros _ _.
  destruct (declared_get_children dp ct) as [l|]; [|apply spec_ret; exact I].
  eapply (spec_bind _ any).
  { apply spec_remove_undeclared_children; [auto with spec|].
    intros e He. apply Hch. left. exact He. }
  intros _ _.
  eapply (spec_bind _ any).
  - apply spec_map_m_any. intros dc.
    apply spec_align_declared_child; [assumption|assumption| |assumption].
    intros e He. apply Hch. right. exact He.
  - intros. apply spec_ret. exact I.
Qed.

Lemma spec_align_child_types P step r cts : forall d,
  (forall d' ct, spec P any (step d' r ct)) ->
  spec P any (align_child_types step d r cts).
Proof.
  induction cts as [|ct cts IH]; intros d Hs; cbn.
  - apply spec_ret. exact I.
  - eapply (spec_bind _ any); [apply Hs|]. intros d1 _. apply IH. exact Hs.
Qed.

Lemma spec_align_entity_attributes P d r :
  covers 2 P -> (forall e, is_attr_event (r_id r) e -> P e) ->
  P (EvLog (MsgAligning d (r_id r))) ->
  spec P (same_node r) (align_entity_attributes d r).
Proof.
  intros Hc Ha Hl. unfold align_entity_attributes.
  eapply (spec_bind _ any); [spec_go|]. intros _ _.
  eapply spec_bind; [apply spec_reflected_display_details; auto with spec|].
  intros r1 H1.
  eapply (spec_bind _ any); [apply spec_log; exact Hl|]. intros _ _.
  destruct (negb _); [apply spec_raise|].
  eapply spec_post.
  - apply spec_align_attributes; [assumption|]. intros e He. apply Ha.
    replace (r_id r) with (r_id r1) by node_facts. exact He.
  - intros r2 H2. node_facts.
Qed.

Lemma assigns_below k : assigns_partitions (below k).
Proof. intros x s t c _. exact I. Qed.

Lemma assigns_trivial : assigns_partitions (fun _ => True).
Proof. intros x s t c _. exact I. Qed.
#[export] Hint Resolve assigns_below assigns_trivial : spec.

Lemma align_entity_fuel_below fuel : forall d r align_children,
  spec (below (depth (r_id r))) any (align_entity_fuel fuel d r align_children).
Proof.
  induction fuel as [|fuel IH]; intros d r ac; cbn.
  - apply spec_raise.
  - eapply spec_bind.
    + apply spec_align_entity_attributes.
      * apply covers_below.
      * intros e He. unfold below. rewrite (is_attr_event_node _ _ He). lia.
      * unfold below. cbn. lia.
    + intros r2 H2. destruct ac; [|apply spec_ret; exact I].
      apply spec_align_child_types. intros d' ct.
      apply spec_align_child_type_with.
      * apply covers_below.
      * apply assigns_below.
      * intros e He. unfold below. rewrite (is_child_event_node _ _ He).
        unfold same_node in H2. rewrite H2. lia.
      * intros d'' r' [Hp _]. eapply spec_weaken; [apply IH | | auto].
        intros e He. eapply below_le; [exact He|].
        rewrite (depth_child _ _ Hp). unfold same_node in H2. rewrite H2. lia.
Qed.

Lemma align_entity_below d r align_children :
  spec (below (depth (r_id r))) any (align_entity d r align_children).
Proof. apply align_entity_fuel_below. Qed.

(** *** The nesting budget *)

Lemma bind_ext {A B} P (Q : A -> Prop) (m : M A) (f g : A -> M B) w :
  spec P Q m -> (forall a w', Q a -> f a w' = g a w') ->
  bind m f w = bind m g w.
Proof.
  intros Hm Hfg. unfold bind. destruct (Hm w) as (T & _ & _ & HQ).
  destruct (m w) as [[a|e] w1]; cbn in *; [|reflexivity].
  apply Hfg. apply HQ. reflexivity.
Qed.

Lemma spec_trivial_covers k : covers k (fun _ => True).
Proof. intros e _. exact I. Qed.
#[export] Hint Resolve spec_trivial_covers : spec.

Lemma map_m_ext {A B} (f g : A -> M B) l :
  (forall x w, f x w = g x w) -> forall w, map_m f l w = map_m g l w.
Proof.
  intros Hfg. induction l as [|x l IH]; intros w; cbn; [reflexivity|].
  unfold bind. rewrite Hfg. destruct (g x w) as [[y|e] w1]; [|reflexivity].
  rewrite IH. reflexivity.
Qed.

Lemma align_declared_child_ext align1 align2 rp ct dc w :
  (forall d' r' w', live_child rp r' -> align1 d' r' w' = align2 d' r' w') ->
  align_declared_child align1 rp ct dc w = align_declared_child align2 rp ct dc w.
Proof.
  intros H. unfold align_declared_child, align_declared_child_body.
  eapply (bind_ext (fun _ => True) any); [apply spec_emit; exact I|].
  intros _ w1 _.
  eapply (bind_ext (fun _ => True) any).
  { destruct (has_old_name dc); [|apply spec_ret; exact I].
    apply spec_try; [|apply spec_ret; exact I].
    eapply (spec_bind _ any); [eapply spec_any; apply spec_get_child;
                               auto with spec|]. intros old _.
    eapply (spec_bind _ any); [apply spec_rename; auto with spec|]. intros _ _.
    apply spec_ret. exact I. }
  intros _ w2 _.
  eapply bind_ext; [apply (spec_get_or_create_child (fun _ => True));
                    auto with spec|].
  intros [[r'|] dc1] w3 [Hcp Hin]; cbn in *; [|reflexivity].
  apply H. destruct Hcp as [Ht Hp]. split; [exact Hp|].
  rewrite Ht. apply Hin. discriminate.
Qed.

Lemma align_child_type_with_ext align1 align2 dp rp ct w :
  (forall d' r' w', live_child (r_id rp) r' ->
                    align1 d' r' w' = align2 d' r' w') ->
  align_child_type_with align1 dp rp ct w = align_child_type_with align2 dp rp ct w.
Proof.
  intros H. unfold align_child_type_with, bind.
  destruct (lift (declared_str dp) w) as [[[]|e] w1]; [|reflexivity].
  destruct (log _ w1) as [[[]|e] w2]; [|reflexivity].
  destruct (declared_get_children dp ct) as [l|]; [|reflexivity].
  destruct (remove_undeclared_children dp rp ct l w2) as [[[]|e] w3];
    [|reflexivity].
  rewrite (map_m_ext _ (align_declared_child align2 (r_id rp) ct)).
  - reflexivity.
  - intros. apply align_declared_child_ext. exact H.
Qed.

Lemma align_child_types_ext step1 step2 r cts :
  (forall d ct w, step1 d r ct w = step2 d r ct w) ->
  forall d w, align_child_types step1 d r cts w = align_child_types step2 d r cts w.
Proof.
  intros H. induction cts as [|ct cts IH]; intros d w; cbn; [reflexivity|].
  unfold bind. rewrite H. destruct (step2 d r ct w) as [[d1|e] w1];
    [apply IH | reflexivity].
Qed.

Lemma rank_child c t : In c (reflected_child_types t) -> rank c < rank t.
Proof. destruct t; cbn; intuition subst; cbn; lia. Qed.

Lemma live_child_rank rp r' r :
  r_id rp = r_id r -> live_child (r_id rp) r' ->
  rank (r_type r') < rank (r_type r).
Proof.
  intros E [_ Hin]. apply rank_child in Hin. unfold r_type at 2.
  rewrite <- E. exact Hin.
Qed.

Lemma attributes_trivial d r :
  spec (fun _ => True) (same_node r) (align_entity_attributes d r).
Proof. apply spec_align_entity_attributes; auto with spec. Qed.

(** Any two budgets above the rank of the live node give the same run. *)
Lemma align_entity_fuel_irrelevant n : forall m d r align_children w,
  rank (r_type r) < n -> rank (r_type r) < m ->
  align_entity_fuel n d r align_children w
  = align_entity_fuel m d r align_children w.
Proof.
  induction n as [|n IH]; intros m d r ac w Hn Hm; [lia|].
  destruct m as [|m]; [lia|]. cbn.
  eapply bind_ext; [apply attributes_trivial|]. intros r2 w1 H2.
  destruct ac; [|reflexivity].
  apply align_child_types_ext. intros d' ct w2.
  apply align_child_type_with_ext. intros d'' r' w3 Hl.
  pose proof (live_child_rank r2 r' r H2 Hl).
  apply IH; lia.
Qed.

(** [align_entity] satisfies the recursive equation of align.py. *)
Lemma align_entity_unfold d r align_children w :
  align_entity d r align_children w
  = (r2 <- align_entity_attributes d r ;;
     if align_children then
       align_child_types align_child_type d r2
                         (declared_child_types (d_type d))
     else ret d) w.
Proof.
  unfold align_entity. cbn [align_entity_fuel].
  eapply bind_ext; [apply attributes_trivial|]. intros r2 w1 H2.
  destruct align_children; [|reflexivity].
  apply align_child_types_ext. intros d' ct w2.
  unfold align_child_type. apply align_child_type_with_ext.
  intros d'' r' w3 Hl. pose proof (live_child_rank r2 r' r H2 Hl).
  unfold align_entity. apply align_entity_fuel_irrelevant; lia.
Qed.

(** *** Traces of sequences *)

Lemma delta_of_trace {A} (m : M A) w T :
  trace (snd (m w)) = trace w ++ T -> delta m w = T.
Proof.
  intros E. unfold delta. rewrite E, skipn_app, skipn_all, Nat.sub_diag.
  reflexivity.
Qed.

Lemma spec_delta {A} P (Q : A -> Prop) (m : M A) w :
  spec P Q m ->
  trace (snd (m w)) = trace w ++ delta m w /\ Forall P (delta m w).
Proof.
  intros H. destruct (H w) as (T & E & F & _).
  rewrite (delta_of_trace _ _ _ E). auto.
Qed.

Lemma delta_bind {A B} P Q (m : M A) (f : A -> M B) w :
  spec P Q m -> (forall a, Q a -> spec P any (f a)) ->
  delta (bind m f) w
  = delta m w ++ match m w with
                 | (Ok a, w1) => delta (f a) w1
                 | (Raise _, _) => []
                 end.
Proof.
  intros Hm Hf. destruct (Hm w) as (T1 & E1 & _ & HQ).
  rewrite (delta_of_trace _ _ _ E1).
  apply delta_of_trace. unfold bind.
  destruct (m w) as [[a|e] w1]; cbn in *.
  - destruct (Hf a (HQ a eq_refl) w1) as (T2 & E2 & _ & _).
    rewrite (delta_of_trace _ _ _ E2), E2, E1, app_assoc. reflexivity.
  - rewrite E1, app_nil_r. reflexivity.
Qed.

Lemma splits_left {A} P1 P2 (Q : A -> Prop) m : spec P1 Q m -> splits P1 P2 m.
Proof.
  intros H w. destruct (H w) as (T & E & F & _).
  exists T, []. rewrite app_nil_r. auto.
Qed.

Lemma splits_bind {A B} P1 P2 (Q : A -> Prop) (m : M A) (f : A -> M B) :
  spec P1 Q m -> (forall a, Q a -> spec P2 any (f a)) -> splits P1 P2 (bind m f).
Proof.
  intros Hm Hf w. destruct (Hm w) as (T1 & E1 & F1 & HQ).
  unfold bind. destruct (m w) as [[a|e] w1]; cbn in *.
  - destruct (Hf a (HQ a eq_refl) w1) as (T2 & E2 & F2 & _).
    exists T1, T2. rewrite E2, E1, <- app_assoc. auto.
  - exists T1, []. rewrite E1, app_nil_r. auto.
Qed.

Lemma splits_bind_left {A B} P1 P2 (Q : A -> Prop) (m : M A) (f : A -> M B) :
  spec P1 Q m -> (forall a, Q a -> splits P1 P2 (f a)) ->
  splits P1 P2 (bind m f).
Proof.
  intros Hm Hf w. destruct (Hm w) as (T0 & E0 & F0 & HQ).
  unfold bind. destruct (m w) as [[a|e] w1]; cbn in *.
  - destruct (Hf a (HQ a eq_refl) w1) as (T1 & T2 & E & F1 & F2).
    exists (T0 ++ T1), T2. rewrite E, E0, <- !app_assoc.
    repeat split; auto. apply Forall_app. auto.
  - exists T0, []. rewrite E0, app_nil_r. auto.
Qed.

Lemma splits_delta {A} P1 P2 (m : M A) w :
  splits P1 P2 m ->
  exists T1 T2, delta m w = T1 ++ T2 /\ Forall P1 T1 /\ Forall P2 T2.
Proof.
  intros H. destruct (H w) as (T1 & T2 & E & F1 & F2).
  exists T1, T2. split; auto. apply delta_of_trace. exact E.
Qed.

(** *** Which events can be what *)

Lemma child_phase_level e : is_child_phase e -> ev_level e = 4.
Proof.
  destruct e as [q| | |p|m|s]; cbn; try contradiction.
  - destruct m; cbn; try contradiction; reflexivity.
  - reflexivity.
Qed.

Lemma attr_event_level h e : is_attr_event h e -> 3 <= ev_level e.
Proof.
  destruct e as [q| | |p|m|s]; cbn; try contradiction.
  - destruct p; cbn; try contradiction; lia.
  - destruct m; cbn; try contradiction; lia.
  - lia.
Qed.

Lemma attr_event_not_child_phase h e : is_attr_event h e -> ~ is_child_phase e.
Proof.
  destruct e as [q| | |p|m|s]; cbn; try tauto.
  - destruct m; cbn; tauto.
  - destruct s; cbn; tauto.
Qed.

Lemma child_event_not_attr h h' e : is_child_event h e -> ~ is_attr_event h' e.
Proof.
  unfold is_child_event.
  destruct e as [q| | |p|m|s]; cbn; try tauto.
  - destruct m; cbn; tauto.
  - destruct s; cbn; tauto.
Qed.

Lemma below_not_attr h e : below (S (depth h)) e -> ~ is_attr_event h e.
Proof.
  unfold below. intros Hb Ha. rewrite (is_attr_event_node _ _ Ha) in Hb. lia.
Qed.

Lemma below_not_child h e : below (S (depth h)) e -> ~ is_child_event h e.
Proof.
  unfold below. intros Hb Ha. rewrite (is_child_event_node _ _ Ha) in Hb. lia.
Qed.

Lemma declared_work_level e : is_declared_work e -> 2 <= ev_level e.
Proof.
  destruct e as [q| | |p|m|s]; cbn; try contradiction.
  - destruct p; cbn; try contradiction; lia.
  - destruct m; cbn; try contradiction; lia.
  - lia.
Qed.

Lemma removal_event_level h e : is_removal_event h e -> ev_level e = 4.
Proof.
  destruct e as [q| | |p|m|s]; cbn; try contradiction.
  destruct m; cbn; try contradiction; reflexivity.
Qed.

Lemma removal_event_not_work h e : is_removal_event h e -> ~ is_declared_work e.
Proof.
  destruct e as [q| | |p|m|s]; cbn; try tauto.
  destruct m; cbn; tauto.
Qed.

Lemma declared_step_not_removal h h' e :
  is_declared_step h e -> ~ is_removal_event h' e.
Proof. destruct e as [q| | |p|m|s]; cbn; tauto. Qed.

Lemma declared_step_level h e : is_declared_step h e -> ev_level e = 4.
Proof. destruct e as [q| | |p|m|s]; cbn; try contradiction. reflexivity. Qed.

(** The children handed to [align_entity] emit nothing that belongs to the
    parent. *)
Lemma align_entity_child_below rp d' r' :
  live_child rp r' ->
  spec (below (S (depth rp))) any (align_entity d' r' true).
Proof.
  intros [Hp _]. eapply spec_weaken; [apply align_entity_below | | auto].
  intros e He. rewrite (depth_child _ _ Hp) in He. exact He.
Qed.

Lemma align_entity_fuel_child_below fuel rp d' r' :
  live_child rp r' ->
  spec (below (S (depth rp))) any (align_entity_fuel fuel d' r' true).
Proof.
  intros [Hp _]. eapply spec_weaken; [apply align_entity_fuel_below | | auto].
  intros e He. rewrite (depth_child _ _ Hp) in He. exact He.
Qed.

(** *** Attributes before children *)

Lemma align_entity_fuel_phases fuel d r :
  splits (fun e => ~ is_child_phase e) (fun e => ~ is_attr_event (r_id r) e)
         (align_entity_fuel fuel d r true).
Proof.
  destruct fuel as [|fuel]; cbn.
  - eapply splits_left. apply (spec_raise _ any).
  - eapply splits_bind.
    + apply spec_align_entity_attributes.
      * intros e He Hc. apply child_phase_level in Hc. lia.
      * intros e He. eapply attr_event_not_child_phase. exact He.
      * cbn. tauto.
    + intros r2 H2. apply spec_align_child_types. intros d' ct.
      apply spec_align_child_type_with.
      * intros e He Ha. apply attr_event_level in Ha. lia.
      * intros x s t c _. cbn. tauto.
      * intros e He. eapply child_event_not_attr. exact He.
      * intros d'' r' Hl. eapply spec_weaken;
          [apply (align_entity_fuel_child_below fuel _ d'' r' Hl) | | auto].
        intros e He. unfold same_node in H2. rewrite H2 in He.
        apply below_not_attr. exact He.
Qed.

(** *** Removal before the declared children *)

Lemma align_child_type_phases dp rp ct :
  splits (fun e => ~ is_declared_work e)
         (fun e => ~ is_removal_event (r_id rp) e)
         (align_child_type dp rp ct).
Proof.
  unfold align_child_type, align_child_type_with.
  eapply (splits_bind_left _ _ any); [spec_go|]. intros _ _.
  eapply (splits_bind_left _ _ any); [apply spec_log; cbn; tauto|]. intros _ _.
  destruct (declared_get_children dp ct) as [l|].
  - eapply (splits_bind _ _ any).
    + apply spec_remove_undeclared_children.
      * intros e He Hw. apply declared_work_level in Hw. lia.
      * intros e He. eapply removal_event_not_work. exact He.
    + intros _ _. eapply (spec_bind _ any); [|intros; apply spec_ret; exact I].
      apply spec_map_m_any. intros dc. apply spec_align_declared_child.
      * intros e He Hr. apply removal_event_level in Hr. lia.
      * intros x s t c _. cbn. tauto.
      * intros e He. eapply declared_step_not_removal. exact He.
      * intros d' r' Hl. eapply spec_weaken;
          [apply (align_entity_child_below _ d' r' Hl) | | auto].
        intros e He Hr. eapply below_not_child; [exact He|]. left. exact Hr.
  - eapply splits_left. apply (spec_ret _ any). exact I.
Qed.

(** *** Declared children in declared order *)

Lemma Handle_eqb_true_upto n : forall a b,
  depth a <= n -> Handle_eqb a b = true -> a = b.
Proof.
  induction n as [|n IH]; intros [ta na pa] [tb nb pb] Hd H; cbn in *;
    apply andb_prop in H; destruct H as [H Hp];
    apply andb_prop in H; destruct H as [Ht Hn];
    apply String.eqb_eq in Hn; subst nb;
    assert (ta = tb) by (destruct ta, tb; cbn in Ht; congruence); subst tb;
    destruct pa as [pa|], pb as [pb|]; try discriminate; try reflexivity.
  - lia.
  - rewrite (IH pa pb); [reflexivity | lia | exact Hp].
Qed.

Lemma Handle_eqb_true a b : Handle_eqb a b = true -> a = b.
Proof. apply (Handle_eqb_true_upto (depth a)). lia. Qed.

Lemma Handle_eqb_refl_upto n : forall a, depth a <= n -> Handle_eqb a a = true.
Proof.
  induction n as [|n IH]; intros [ta na pa] Hd; cbn in *;
    rewrite String.eqb_refl;
    replace (ObjType_eqb ta ta) with true by (destruct ta; reflexivity);
    destruct pa as [pa|]; try reflexivity.
  - lia.
  - apply IH. lia.
Qed.

Lemma Handle_eqb_refl a : Handle_eqb a a = true.
Proof. apply (Handle_eqb_refl_upto (depth a)). lia. Qed.

Lemma ObjType_eqb_refl t : ObjType_eqb t t = true.
Proof. destruct t; reflexivity. Qed.

Lemma declared_steps_app rp ct T1 T2 :
  declared_steps rp ct (T1 ++ T2)
  = declared_steps rp ct T1 ++ declared_steps rp ct T2.
Proof. unfold declared_steps. apply flat_map_app. Qed.

Lemma declared_steps_none rp ct T :
  Forall (fun e => ~ is_declared_step rp e) T -> declared_steps rp ct T = [].
Proof.
  induction 1 as [|e T He _ IH]; [reflexivity|].
  change (e :: T) with ([e] ++ T).
  rewrite declared_steps_app, IH, app_nil_r. cbn.
  destruct e as [q| | |p|m|s]; try reflexivity.
  destruct s as [|rp' ct' dc|]; [reflexivity| |reflexivity].
  destruct (Handle_eqb rp' rp) eqn:E; [|reflexivity].
  apply Handle_eqb_true in E. subst. exfalso. apply He. reflexivity.
Qed.

Lemma declared_steps_own rp ct dc T :
  declared_steps rp ct (EvStep (StepDeclaredChild rp ct dc) :: T)
  = dc :: declared_steps rp ct T.
Proof.
  change (EvStep (StepDeclaredChild rp ct dc) :: T)
    with ([EvStep (StepDeclaredChild rp ct dc)] ++ T).
  rewrite declared_steps_app. cbn.
  rewrite Handle_eqb_refl, ObjType_eqb_refl. reflexivity.
Qed.

Lemma in_order_before {A B} rp ct l (Q : A -> Prop) (m : M A) (f : A -> M B) :
  spec (fun e => ~ is_declared_step rp e) Q m ->
  (forall a, Q a -> in_declared_order rp ct l (f a)) ->
  in_declared_order rp ct l (bind m f).
Proof.
  intros Hm Hf w. destruct (Hm w) as (T0 & E0 & F0 & HQ).
  unfold bind. destruct (m w) as [[a|e] w1]; cbn in *.
  - destruct (Hf a (HQ a eq_refl) w1) as (T & n & E & Hs & Hn).
    exists (T0 ++ T), n. rewrite E, E0, <- app_assoc.
    rewrite declared_steps_app, (declared_steps_none _ _ _ F0). auto.
  - exists T0, 0. rewrite (declared_steps_none _ _ _ F0).
    repeat split; auto. discriminate.
Qed.

Lemma in_order_after {A B} rp ct l (m : M A) (f : A -> M B) :
  in_declared_order rp ct l m ->
  (forall a, spec (fun e => ~ is_declared_step rp e) any (f a)) ->
  in_declared_order rp ct l (bind m f).
Proof.
  intros Hm Hf w. destruct (Hm w) as (T & n & E & Hs & Hn).
  unfold bind. destruct (m w) as [[a|e] w1]; cbn in *.
  - destruct (Hf a w1) as (T1 & E1 & F1 & _).
    exists (T ++ T1), n. rewrite E1, E, <- app_assoc.
    rewrite declared_steps_app, (declared_steps_none _ _ _ F1), app_nil_r.
    repeat split; auto. intros b _. eapply Hn. reflexivity.
  - exists T, n. repeat split; auto. discriminate.
Qed.

Lemma body_no_steps align rp dc :
  (forall d' r', live_child rp r' ->
                 spec (below (S (depth rp))) any (align d' r')) ->
  spec (fun e => ~ is_declared_step rp e) any
       (align_declared_child_body align rp dc).
Proof.
  intros Hal. apply spec_align_declared_child_body.
  - intros e He Hs. apply declared_step_level in Hs. lia.
  - intros x s t c _. cbn. tauto.
  - intros d' r' Hl. eapply spec_weaken; [apply (Hal d' r' Hl) | | auto].
    intros e He Hs. eapply below_not_child; [exact He|]. right. exact Hs.
Qed.

Lemma in_order_cons {A B} rp ct dc l (body : M A) (rest : A -> M B) :
  spec (fun e => ~ is_declared_step rp e) any body ->
  (forall a, in_declared_order rp ct l (rest a)) ->
  in_declared_order rp ct (dc :: l)
    (bind (bind (emit (EvStep (StepDeclaredChild rp ct dc))) (fun _ => body))
          rest).
Proof.
  intros Hb Hr w. unfold bind, emit.
  destruct (Hb (add_event (EvStep (StepDeclaredChild rp ct dc)) w))
    as (T1 & E1 & F1 & _).
  cbn [add_event trace] in E1.
  destruct (body (add_event (EvStep (StepDeclaredChild rp ct dc)) w))
    as [[a|e] w1]; cbn [fst snd] in *.
  - destruct (Hr a w1) as (T & n & E & Hs & Hn).
    exists ((EvStep (StepDeclaredChild rp ct dc) :: T1) ++ T), (S n).
    rewrite E, E1, <- !app_assoc. split; [reflexivity|]. split.
    + rewrite declared_steps_app, declared_steps_own,
        (declared_steps_none _ _ _ F1), Hs. reflexivity.
    + intros b Hb'. cbn [length]. f_equal. eapply Hn. exact Hb'.
  - exists (EvStep (StepDeclaredChild rp ct dc) :: T1), 1.
    rewrite E1, <- app_assoc. split; [reflexivity|].
    rewrite declared_steps_own, (declared_steps_none _ _ _ F1).
    split; [reflexivity | discriminate].
Qed.

Lemma map_in_declared_order align rp ct l :
  (forall d' r', live_child rp r' ->
                 spec (below (S (depth rp))) any (align d' r')) ->
  in_declared_order rp ct l (map_m (align_declared_child align rp ct) l).
Proof.
  intros Hal. induction l as [|dc l IH]; cbn [map_m].
  - intros w. exists [], 0. cbn. rewrite app_nil_r. auto.
  - unfold align_declared_child at 1. apply in_order_cons.
    + apply body_no_steps. exact Hal.
    + intros y. apply in_order_after; [exact IH|].
      intros ys. apply spec_ret. exact I.
Qed.

Lemma align_child_type_in_order dp rp ct :
  in_declared_order (r_id rp) ct (declared_children_of dp ct)
                    (align_child_type dp rp ct).
Proof.
  unfold align_child_type, align_child_type_with, declared_children_of.
  eapply (in_order_before _ _ _ any); [spec_go|]. intros _ _.
  eapply (in_order_before _ _ _ any); [apply spec_log; cbn; tauto|].
  intros _ _.
  destruct (declared_get_children dp ct) as [l|].
  - eapply (in_order_before _ _ _ any).
    + apply spec_remove_undeclared_children.
      * intros e He Hs. apply declared_step_level in Hs. lia.
      * intros e He Hs. eapply declared_step_not_removal; eassumption.
    + intros _ _. apply in_order_after.
      * apply map_in_declared_order. intros d' r' Hl.
        apply align_entity_child_below. exact Hl.
      * intros a. apply spec_ret. exact I.
  - intros w. exists [], 0. cbn. rewrite app_nil_r. auto.
Qed.

(* ===================================================================== *)
(** ** Declared nodes: construction and lookup                            *)
(* ===================================================================== *)

Lemma py_len_le s : py_len s <= String.length s.
Proof.
  induction s as [|c s IH]; cbn; [lia|]. destruct (is_continuation c); lia.
Qed.

Lemma slice_to_whole n s : py_len s <= n -> slice_to n s = s.
Proof.
  revert n. induction s as [|c s IH]; intros n H; cbn in *; [reflexivity|].
  destruct (is_continuation c).
  - rewrite IH; [reflexivity | exact H].
  - destruct n; [lia|]. rewrite IH; [reflexivity | lia].
Qed.

Lemma slice_to_short n s : String.length s <= n -> slice_to n s = s.
Proof. intros H. apply slice_to_whole. pose proof (py_len_le s). lia. Qed.

Lemma py_len_slice_to n s : py_len (slice_to n s) = Nat.min n (py_len s).
Proof.
  revert n. induction s as [|c s IH]; intros n; cbn; [lia|].
  destruct (is_continuation c) eqn:E; cbn; rewrite ?E.
  - apply IH.
  - destruct n; cbn; rewrite ?E; [reflexivity|]. rewrite IH. reflexivity.
Qed.

Lemma slice_to_prefix n s : exists rest, s = (slice_to n s ++ rest)%string.
Proof.
  revert n. induction s as [|c s IH]; intros n; cbn.
  - exists EmptyString. reflexivity.
  - destruct (is_continuation c).
    + destruct (IH n) as (rest & E). exists rest. cbn. rewrite <- E. reflexivity.
    + destruct n.
      * exists (String c s). reflexivity.
      * destruct (IH n) as (rest & E). exists rest. cbn. rewrite <- E.
        reflexivity.
Qed.

Lemma add_child_name d c d' : add_child d c = Ok d' -> d_name d' = d_name d.
Proof.
  unfold add_child. destruct (negb _); [discriminate|].
  intros [= <-]. reflexivity.
Qed.

Lemma add_children_name l : forall d d',
  add_children d l = Ok d' -> d_name d' = d_name d.
Proof.
  induction l as [|c l IH]; intros d d'; cbn.
  - intros [= <-]. reflexivity.
  - destruct (add_child d c) as [d1|e] eqn:E; [|discriminate].
    intros H. rewrite (IH _ _ H). eapply add_child_name. exact E.
Qed.

Lemma init_children_name cts : forall d kw d' kw',
  init_children d cts kw = Ok (d', kw') -> d_name d' = d_name d.
Proof.
  induction cts as [|ct cts IH]; intros d kw d' kw'; cbn.
  - intros [= <- _]. reflexivity.
  - destruct (assoc (object_type_name ct) kw) as [[v|c|l]|].
    + destruct v as [| | | |items|items|]; try discriminate; try apply IH.
      destruct items; [apply IH | discriminate].
    + destruct (add_child d c) as [d1|e] eqn:E; [|discriminate].
      intros H. rewrite (IH _ _ _ _ H). eapply add_child_name. exact E.
    + destruct (add_children d l) as [d1|e] eqn:E; [|discriminate].
      intros H. rewrite (IH _ _ _ _ H). eapply add_children_name. exact E.
    + apply IH.
Qed.

Lemma DeclaredEntity_init_stores_name cls name old_name ignore kwargs d :
  DeclaredEntity_init cls (Some name) old_name ignore kwargs = Ok d ->
  d_name d = slice_to 128 name.
Proof.
  unfold DeclaredEntity_init.
  destruct (init_children _ _ _) as [[self kw]|e] eqn:E; [|discriminate].
  destruct (init_attributes _ _ _) as [[attrs kw']|e]; [|discriminate].
  destruct kw'; [|discriminate]. intros [= <-].
  apply init_children_name in E. exact E.
Qed.

Lemma AbstractIndex_init_name cls prefix columns name compression old_name
      ignore kwargs d :
  AbstractIndex_init cls prefix columns name compression old_name ignore kwargs
  = Ok d ->
  exists stored,
    d_name d = slice_to 128 stored
    /\ (forall n, name = Some n -> n <> "" -> stored = n)
    /\ (name = None \/ name = Some "" ->
        exists l suffix,
          lowered_columns columns = Ok l
          /\ included_suffix (assoc "included_columns" kwargs) = Ok suffix
          /\ stored = (String.concat "_" (prefix :: l) ++ suffix)%string).
Proof.
  unfold AbstractIndex_init.
  destruct (lowered_columns columns) as [l|e]; [|discriminate].
  destruct name as [n|].
  - destruct (String.eqb n "") eqn:En; cbn [negb].
    + destruct (included_suffix _) as [suffix|e] eqn:Es; [|discriminate].
      intros H. apply DeclaredEntity_init_stores_name in H.
      eexists. split; [exact H|]. split.
      * intros n' [= <-] Hne. apply String.eqb_eq in En. contradiction.
      * intros _. exists l, suffix. repeat split.
    + intros H. apply DeclaredEntity_init_stores_name in H.
      exists n. split; [exact H|]. split.
      * intros n' [= <-] _. reflexivity.
      * intros [Hn|Hn]; [discriminate|]. injection Hn as ->. discriminate En.
  - destruct (included_suffix _) as [suffix|e] eqn:Es; [|discriminate].
    intros H. apply DeclaredEntity_init_stores_name in H.
    eexists. split; [exact H|]. split.
    + intros n' Hn. discriminate Hn.
    + intros _. exists l, suffix. repeat split.
Qed.

(** C9 (as amended).  [DeclaredEntity.__init__] stores the first 128
    characters of the name it is given: the name itself when it has at
    most 128 characters, and otherwise a prefix of it of exactly 128
    characters (characters, not bytes).  Given [None] it raises the
    [DBError] of its first statement.  The constructors of indexes and
    primary keys hand a non-empty name on to it unchanged, but replace
    [None] and the empty name by a name generated from the class prefix,
    the lower-cased columns and the included columns, if any, so that
    constructing them without a name does not fail. *)
Theorem DeclaredEntity_init_name :
  forall cls name old_name ignore kwargs,
    (forall d,
        DeclaredEntity_init cls (Some name) old_name ignore kwargs = Ok d ->
        d_name d = slice_to 128 name
        /\ (py_len name <= 128 -> d_name d = name)
        /\ py_len (d_name d) = Nat.min 128 (py_len name)
        /\ exists rest, name = (d_name d ++ rest)%string)
    /\ DeclaredEntity_init cls None old_name ignore kwargs = Raise DBError
    /\ (forall prefix columns given compression d,
           AbstractIndex_init cls prefix columns given compression old_name
                              ignore kwargs = Ok d ->
           exists stored,
             d_name d = slice_to 128 stored
             /\ (forall n, given = Some n -> n <> "" -> stored = n)
             /\ (given = None \/ given = Some "" ->
                 exists l suffix,
                   lowered_columns columns = Ok l
                   /\ included_suffix (assoc "included_columns" kwargs)
                      = Ok suffix
                   /\ stored
                      = (String.concat "_" (prefix :: l) ++ suffix)%string)).
Proof.
  intros cls name old_name ignore kwargs. split; [|split; [reflexivity|]].
  - intros d H. apply DeclaredEntity_init_stores_name in H. rewrite H.
    split; [reflexivity|]. split; [apply slice_to_whole|].
    split; [apply py_len_slice_to | apply slice_to_prefix].
  - intros prefix columns given compression d.
    apply AbstractIndex_init_name.
Qed.

Lemma DeclaredEntity_init_name_witness :
  (exists d,
      DeclaredEntity_init Schemas (Some (accented_name 130)) None IgnoreNone []
      = Ok d
      /\ d_name d = accented_name 128)
  /\ (exists d,
         DeclaredEntity_init Schemas (Some (accented_name 100)) None IgnoreNone []
         = Ok d
         /\ d_name d = accented_name 100).
Proof.
  split.
  - eexists. split; [reflexivity|].
    destruct (DeclaredEntity_init_name Schemas (accented_name 130) None
                IgnoreNone []) as [H _].
    destruct (H _ eq_refl) as (Hn & _). rewrite Hn. vm_compute. reflexivity.
  - eexists. split; [reflexivity|].
    destruct (DeclaredEntity_init_name Schemas (accented_name 100) None
                IgnoreNone []) as [H _].
    destruct (H _ eq_refl) as (_ & Hn & _). apply Hn. vm_compute. lia.
Defined.

(** C9 (counterexample).  [Index(('a',))] and [PrimaryKey(('a',))] are
    constructed with [None] for the name and do not raise: the nodes are
    called [IX_a] and [PK_a].  [Index(('a',), name='')] is given a name
    that is not [None] and does not store its first 128 characters, the
    empty name, either. *)
Lemma index_constructed_without_name :
  (exists d, Index_init (VTuple ["a"]) None (VBool false) (VBool false) VNone
                        (VStr "NONE") None IgnoreNone = Ok d
             /\ d_name d = "IX_a")
  /\ (exists d, PrimaryKey_init (VTuple ["a"]) None (VBool true) (VStr "NONE")
                                None IgnoreNone = Ok d
                /\ d_name d = "PK_a")
  /\ (exists d, Index_init (VTuple ["a"]) (Some "") (VBool false) (VBool false)
                           VNone (VStr "NONE") None IgnoreNone = Ok d
                /\ d_name d = "IX_a" /\ d_name d <> slice_to 128 "").
Proof.
  split; [|split]; eexists; (split; [reflexivity|]); try reflexivity.
  split; [reflexivity | discriminate].
Qed.

(** The registry attributes alone are enough to construct a node: with a
    name and a value for each of them, [__init__] returns. *)
Lemma DeclaredEntity_init_returns cls name old_name ignore (value : string -> Value) :
  exists d,
    DeclaredEntity_init cls (Some name) old_name ignore
      (map (fun a => (a, KwValue (value a))) (valid_attributes cls)) = Ok d.
Proof. destruct cls; cbn; eexists; reflexivity. Qed.

Lemma assoc_assoc_set {A} k k' (v : A) l :
  assoc k (assoc_set k' v l) = if String.eqb k k' then Some v else assoc k l.
Proof.
  induction l as [|[k0 v0] l IH]; cbn.
  - destruct (String.eqb k k'); reflexivity.
  - destruct (String.eqb k' k0) eqn:E0; cbn.
    + apply String.eqb_eq in E0. subst k0.
      destruct (String.eqb k k'); reflexivity.
    + destruct (String.eqb k k0) eqn:E1.
      * apply String.eqb_eq in E1. subst k0.
        rewrite String.eqb_sym in E0. cbn. rewrite E0. reflexivity.
      * exact IH.
Qed.

Lemma init_attributes_keys k names : forall acc kw attrs kw',
  init_attributes acc names kw = Ok (attrs, kw') ->
  assoc k acc = None -> ~ In k names -> assoc k attrs = None.
Proof.
  induction names as [|a names IH]; intros acc kw attrs kw'; cbn.
  - intros [= <- _]. auto.
  - destruct (assoc a kw) as [[v|c|l]|]; try discriminate.
    intros H Hacc Hin. eapply IH; [exact H | | intros Hn; apply Hin; now right].
    rewrite assoc_assoc_set, Hacc.
    destruct (String.eqb k a) eqn:E; [|reflexivity].
    apply String.eqb_eq in E. subst k. exfalso. apply Hin. now left.
Qed.

(** C2 (the code's behaviour).  [get_child_by_name] starts by reading
    [self.child_objects], an attribute no class defines and [__init__]
    never sets.  So on every node built by a constructor the chain lookup
    stops at its first step with [AttributeError], whatever the names and
    whatever the children: no child type is tried and no not-found error is
    produced. *)
Theorem get_object_by_id_of_constructed cls name old_name ignore kwargs d n rest :
  DeclaredEntity_init cls name old_name ignore kwargs = Ok d ->
  declared_get_object_by_id d (n :: rest) = Raise AttributeError.
Proof.
  unfold DeclaredEntity_init. destruct name as [name|]; [|discriminate].
  destruct (init_children _ _ _) as [[self kw]|e]; [|discriminate].
  destruct (init_attributes _ _ _) as [[attrs kw']|e] eqn:E; [|discriminate].
  destruct kw'; [|discriminate]. intros [= <-].
  cbn. unfold declared_get_child_by_name. cbn.
  erewrite init_attributes_keys; [reflexivity | exact E | reflexivity |].
  destruct cls; cbn; intuition discriminate.
Qed.

Lemma get_object_by_id_of_constructed_witness :
  DeclaredEntity_init Schemas (Some "dbo") None IgnoreNone
    [("tables", KwNodes [declared_table_with_column])] = Ok declared_schema
  /\ declared_get_object_by_id declared_schema ["t"] = Raise AttributeError.
Proof.
  split; [reflexivity|].
  apply (get_object_by_id_of_constructed Schemas (Some "dbo") None IgnoreNone
           [("tables", KwNodes [declared_table_with_column])]).
  reflexivity.
Defined.

(** C2 (evaluation at the failing input).  On the schema [dbo] declared
    with the table [t], resolving the chain [t] raises [AttributeError],
    where the lookup the specification describes returns the table; for a
    name no child has it raises [AttributeError] again, not the not-found
    error. *)
Lemma get_object_by_id_raises :
  declared_get_object_by_id declared_schema ["t"] = Raise AttributeError
  /\ spec_get_object_by_id declared_schema ["t"] = Ok declared_table_with_column
  /\ declared_get_object_by_id declared_schema ["missing"] = Raise AttributeError
  /\ spec_get_object_by_id declared_schema ["missing"]
     = Raise DBObjectDoesntExistError.
Proof. repeat split; reflexivity. Qed.

(* ===================================================================== *)
(** ** Equality across the two trees                                      *)
(* ===================================================================== *)

(** C10.  Comparing a declared node with a reflected node is the same
    computation as comparing the reflected node with the declared node: the
    same truth value, the same reads of the live server, the same errors.
    In particular one comparison holds exactly when the other does. *)
Theorem cross_tree_equality_symmetric :
  forall d r w,
    declared_eq d r w = reflected_eq r d w
    /\ (forall r1 w1,
           declared_eq d r w = (Ok (true, r1), w1)
           <-> reflected_eq r d w = (Ok (true, r1), w1)).
Proof.
  intros d r w. unfold declared_eq. split; [reflexivity|].
  intros r1 w1. split; intros H; exact H.
Qed.

(* ===================================================================== *)
(** ** The example declarations are what the constructors build           *)
(* ===================================================================== *)

Lemma declared_partition_constructed :
  DeclaredEntity_init Partitions (Some "") None IgnoreNone
    [("column", KwValue (VStr "c"))] = Ok declared_partition.
Proof. reflexivity. Qed.

Lemma declared_table_with_partition_constructed :
  DeclaredEntity_init Tables (Some "t") None IgnoreNone
    [("primary_keys", KwValue VNone); ("partitions", KwNodes [declared_partition])]
  = Ok declared_table_with_partition.
Proof. reflexivity. Qed.

Lemma declared_column_constructed :
  DeclaredEntity_init Columns (Some "c") None IgnoreNone
    [("data_type", KwValue (VStr "datetime")); ("identity", KwValue (VBool false));
     ("nullable", KwValue (VBool false)); ("char_max_len", KwValue VNone);
     ("datetime_precision", KwValue (VInt 7));
     ("numeric_precision", KwValue VNone); ("numeric_scale", KwValue VNone)]
  = Ok declared_column.
Proof. reflexivity. Qed.

Lemma declared_table_with_column_constructed :
  DeclaredEntity_init Tables (Some "t") None IgnoreNone
    [("primary_keys", KwValue VNone); ("partitions", KwValue VNone);
     ("columns", KwNodes [declared_column])]
  = Ok declared_table_with_column.
Proof. reflexivity. Qed.

Lemma declared_table_ignoring_constructed :
  DeclaredEntity_init Tables (Some "t") None (IgnoreBool true)
    [("primary_keys", KwValue VNone); ("partitions", KwValue VNone);
     ("columns", KwNodes [declared_column])]
  = Ok declared_table_ignoring.
Proof. reflexivity. Qed.

Lemma declared_schema_constructed :
  DeclaredEntity_init Schemas (Some "dbo") None IgnoreNone
    [("tables", KwNodes [declared_table_with_column])]
  = Ok declared_schema.
Proof. reflexivity. Qed.

(* ===================================================================== *)
(** ** Order of the work on one node pair                                 *)
(* ===================================================================== *)

Lemma spec_align_entity_trivial d r align_children :
  spec (fun _ => True) any (align_entity d r align_children).
Proof.
  eapply spec_weaken; [apply align_entity_below | intros; exact I | auto].
Qed.

Lemma spec_declared_loop P rp ct l :
  covers 2 P -> assigns_partitions P ->
  (forall e, is_declared_step (r_id rp) e -> P e) ->
  (forall e, below (S (depth (r_id rp))) e -> P e) ->
  spec P any (declared_loop rp ct l).
Proof.
  intros Hc Ha Hs Hb. unfold declared_loop. apply spec_map_m_any. intros dc.
  apply spec_align_declared_child; try assumption.
  intros d' r' Hl. eapply spec_weaken;
    [apply (align_entity_child_below _ d' r' Hl) | exact Hb | auto].
Qed.

Lemma spec_declared_loop_trivial rp ct l :
  spec (fun _ => True) any (declared_loop rp ct l).
Proof.
  apply spec_declared_loop;
    [apply spec_trivial_covers | apply assigns_trivial
    | intros; exact I | intros; exact I].
Qed.

Lemma spec_remove_trivial dp rp ct l :
  spec (fun _ => True) any (remove_undeclared_children dp rp ct l).
Proof.
  apply spec_remove_undeclared_children; intros e _; exact I.
Qed.

Lemma spec_pass_start P dp rp ct :
  P (pass_header dp rp ct) -> spec P any (pass_start dp rp ct).
Proof.
  intros H. unfold pass_start.
  eapply (spec_bind _ any); [apply spec_lift|]. intros _ _.
  apply spec_log. exact H.
Qed.

(** The events of a sequence are those of its first part followed by
    those of the rest. *)
Lemma delta_bind_then {A B} (m : M A) (f : A -> M B) w :
  spec (fun _ => True) any m ->
  (forall a, spec (fun _ => True) any (f a)) ->
  delta (bind m f) w = delta_then m (fun a w1 => delta (f a) w1) w.
Proof.
  intros Hm Hf. unfold delta_then.
  apply (delta_bind (fun _ => True) any); [exact Hm | intros a _; apply Hf].
Qed.

Lemma delta_ext {A} (m m' : M A) w : m w = m' w -> delta m w = delta m' w.
Proof. intros E. unfold delta. rewrite E. reflexivity. Qed.

Lemma delta_ret_after {A B} (m : M A) (f : A -> B) w :
  delta (bind m (fun a => ret (f a))) w = delta m w.
Proof.
  unfold delta, bind, ret. destruct (m w) as [[a|e] w1]; reflexivity.
Qed.

(** The events of a pass: the header, the loop over the live children,
    the loop over the declared children. *)
Lemma delta_align_child_type dp rp ct w :
  delta (align_child_type dp rp ct) w
  = delta_then (pass_start dp rp ct)
      (fun _ w0 =>
         match declared_get_children dp ct with
         | None => []
         | Some l =>
             delta_then (remove_undeclared_children dp rp ct l)
                        (fun _ w1 => delta (declared_loop rp ct l) w1) w0
         end) w.
Proof.
  assert (E : delta (align_child_type dp rp ct) w
              = delta (pass_start dp rp ct ;;
                       match declared_get_children dp ct with
                       | None => ret dp
                       | Some l =>
                           remove_undeclared_children dp rp ct l ;;
                           aligned <- declared_loop rp ct l ;;
                           ret (set_d_children
                                  dp (children_set ct aligned (d_children dp)))
                       end)%py w).
  { apply delta_ext. unfold align_child_type, align_child_type_with,
                     pass_start, declared_loop, bind.
    destruct (lift (declared_str dp) w) as [[[]|e] w1]; reflexivity. }
  rewrite E. rewrite delta_bind_then.
  - unfold delta_then at 1 2. f_equal.
    destruct (pass_start dp rp ct w) as [[[]|e] w0]; [|reflexivity].
    destruct (declared_get_children dp ct) as [l|].
    + rewrite delta_bind_then.
      * unfold delta_then. f_equal.
        destruct (remove_undeclared_children dp rp ct l w0) as [[[]|e] w1];
          [|reflexivity].
        apply delta_ret_after.
      * apply spec_remove_trivial.
      * intros _. eapply (spec_bind _ any);
          [apply spec_declared_loop_trivial | intros; apply spec_ret; exact I].
    + unfold delta, ret. cbn. apply skipn_all.
  - apply spec_pass_start. exact I.
  - intros _. destruct (declared_get_children dp ct) as [l|];
      [|apply spec_ret; exact I].
    eapply (spec_bind _ any); [apply spec_remove_trivial|]. intros _ _.
    eapply (spec_bind _ any);
      [apply spec_declared_loop_trivial | intros; apply spec_ret; exact I].
Qed.

(** The loop over the declared children starts with the step of the
    first of them. *)
Lemma declared_loop_starts rp ct l w :
  match l with
  | [] => delta (declared_loop rp ct l) w = []
  | dc :: _ =>
      exists T, delta (declared_loop rp ct l) w
                = EvStep (StepDeclaredChild (r_id rp) ct dc) :: T
  end.
Proof.
  destruct l as [|dc l].
  - unfold delta, declared_loop. cbn. apply skipn_all.
  - pose (m' := (y <- align_declared_child_body
                       (fun d' r' => align_entity d' r' true) (r_id rp) dc ;;
                 ys <- declared_loop rp ct l ;;
                 ret (y :: ys))%py).
    assert (Hm : spec (fun _ => True) any m').
    { eapply (spec_bind _ any).
      - apply spec_align_declared_child_body;
          [apply spec_trivial_covers | apply assigns_trivial|].
        intros d' r' _. apply spec_align_entity_trivial.
      - intros y _. eapply (spec_bind _ any);
          [apply spec_declared_loop_trivial | intros; apply spec_ret; exact I]. }
    destruct (Hm (add_event (EvStep (StepDeclaredChild (r_id rp) ct dc)) w))
      as (T & ET & _).
    exists T. apply delta_of_trace.
    change (declared_loop rp ct (dc :: l) w)
      with (m' (add_event (EvStep (StepDeclaredChild (r_id rp) ct dc)) w)).
    rewrite ET. cbn. rewrite <- app_assoc. reflexivity.
Qed.

Lemma children_not_attr_events d r r2 cts :
  r_id r2 = r_id r ->
  spec (fun e => ~ is_attr_event (r_id r) e) any
       (align_child_types align_child_type d r2 cts).
Proof.
  intros H2. revert d. induction cts as [|ct cts IH]; intros d; cbn.
  - apply spec_ret. exact I.
  - eapply (spec_bind _ any); [|intros d1 _; apply IH].
    unfold align_child_type. apply spec_align_child_type_with.
    + intros e He Ha. apply attr_event_level in Ha. lia.
    + intros x s t c _. cbn. tauto.
    + intros e He. eapply child_event_not_attr. exact He.
    + intros d'' r' Hl. eapply spec_weaken;
        [apply (align_entity_child_below _ d'' r' Hl) | | auto].
      intros e He. rewrite H2 in He. apply below_not_attr. exact He.
Qed.

Lemma attributes_not_child_phase d r :
  spec (fun e => ~ is_child_phase e) (same_node r) (align_entity_attributes d r).
Proof.
  apply spec_align_entity_attributes.
  - intros e He Hc. apply child_phase_level in Hc. lia.
  - intros e He. eapply attr_event_not_child_phase. exact He.
  - cbn. tauto.
Qed.


(* ===================================================================== *)
(** ** Which live children a pass may delete                              *)
(* ===================================================================== *)

Lemma delta_header dp rp ct w :
  delta (pass_start dp rp ct) w = []
  \/ delta (pass_start dp rp ct) w = [pass_header dp rp ct].
Proof.
  unfold pass_start, pass_header, delta, bind, lift, log, emit, ret, raise.
  destruct (declared_str dp); cbn.
  - right. rewrite skipn_app, skipn_all, Nat.sub_diag. reflexivity.
  - left. apply skipn_all.
Qed.

Lemma remove_ignored dp rp ct l w :
  ignore_extra_children_type dp ct = true ->
  remove_undeclared_children dp rp ct l w = (Ok tt, w).
Proof. intros H. unfold remove_undeclared_children. rewrite H. reflexivity. Qed.




(* ===================================================================== *)
(** ** Equations of the monad                                             *)
(* ===================================================================== *)

Lemma bind_Ok {A B} (m : M A) (f : A -> M B) w a w1 :
  m w = (Ok a, w1) -> bind m f w = f a w1.
Proof. intros H. unfold bind. rewrite H. reflexivity. Qed.

Lemma bind_Raise {A B} (m : M A) (f : A -> M B) w e w1 :
  m w = (Raise e, w1) -> bind m f w = (Raise e, w1).
Proof. intros H. unfold bind. rewrite H. reflexivity. Qed.

Lemma bind_inv {A B} (m : M A) (f : A -> M B) w b w2 :
  bind m f w = (Ok b, w2) ->
  exists a w1, m w = (Ok a, w1) /\ f a w1 = (Ok b, w2).
Proof.
  unfold bind. destruct (m w) as [[a|e] w1]; [|discriminate].
  intros H. exists a, w1. auto.
Qed.

Lemma input_answer p w a rest :
  stdin w = a :: rest -> input p w = (Ok a, after_input p rest w).
Proof. intros H. unfold input. rewrite H. reflexivity. Qed.

(* ===================================================================== *)
(** ** Changing a column's data type                                      *)
(* ===================================================================== *)

(** [delete()] returns [False] or nothing: never a true value. *)
Lemma delete_with_not_truthy dex r w v r1 w1 :
  delete_with dex r w = (Ok (v, r1), w1) -> truthy v = false.
Proof.
  unfold delete_with. destruct (can_delete r).
  - intros H. apply bind_inv in H. destruct H as (answer & w2 & _ & H).
    destruct (String.eqb answer "y").
    + apply bind_inv in H. destruct H as (? & ? & _ & H).
      apply bind_inv in H. destruct H as (? & ? & _ & H).
      apply bind_inv in H. destruct H as (? & ? & _ & H).
      injection H as <- _ _. reflexivity.
    + injection H as <- _ _. reflexivity.
  - intros H. apply bind_inv in H. destruct H as (? & ? & _ & H).
    apply bind_inv in H. destruct H as (? & ? & _ & H).
    injection H as <- _ _. reflexivity.
Qed.

(** So the loop of [drop_associated_indexes] reports success only when it
    had no index to delete. *)
Lemma delete_each_index_true indexes w w1 :
  delete_each_index indexes w = (Ok true, w1) -> indexes = [].
Proof.
  destruct indexes as [|index indexes]; [reflexivity|]. cbn.
  intros H. apply bind_inv in H. destruct H as ([v r1] & w2 & Hd & H).
  rewrite (delete_with_not_truthy _ _ _ _ _ _ Hd) in H. discriminate H.
Qed.

(** C1 (the code's behaviour).  When at least one live index references
    the column, [set_attr_data_type] calls [delete()] on the first of them
    and then, whatever the answer and even when that index was dropped,
    records that the column is not altered and returns: no ALTER COLUMN is
    run and the remaining indexes are not visited. *)
Theorem set_attr_data_type_with_index :
  forall r d w parent w0 index indexes w1,
    parent_of (r_id r) w = (Ok parent, w0) ->
    get_indexes_for_column parent (r_name r) w0 = (Ok (index :: indexes), w1) ->
    set_attr_data_type r d w
    = (delete_with delete_ex_base index ;;
       log (MsgColumnNotAltered (r_name r)) ;;
       ret r) w1.
Proof.
  intros r d w parent w0 index indexes w1 Hp Hi.
  unfold set_attr_data_type, drop_associated_indexes.
  unfold bind at 1. unfold bind at 1. rewrite Hp.
  unfold bind at 1. rewrite Hi. cbn [delete_each_index].
  unfold bind.
  destruct (delete_with delete_ex_base index w1) as [[[v r1]|e] w2] eqn:E;
    [|reflexivity].
  rewrite (delete_with_not_truthy _ _ _ _ _ _ E). reflexivity.
Qed.

Lemma set_attr_data_type_with_index_witness :
  exists index w0 w1,
    r_id index = example_index_id
    /\ parent_of (r_id example_column) (example_world ["y"])
       = (Ok example_table_id, w0)
    /\ get_indexes_for_column example_table_id "c" w0 = (Ok [index], w1)
    /\ set_attr_data_type example_column declared_column (example_world ["y"])
       = (delete_with delete_ex_base index ;;
          log (MsgColumnNotAltered "c") ;;
          ret example_column) w1.
Proof.
  assert (Hi : exists index w1,
             get_indexes_for_column example_table_id "c" (example_world ["y"])
             = (Ok [index], w1) /\ r_id index = example_index_id).
  { eexists. eexists. split; [vm_compute; reflexivity | reflexivity]. }
  destruct Hi as (index & w1 & Hi & Hid).
  exists index, (example_world ["y"]), w1.
  split; [exact Hid|]. split; [reflexivity|]. split; [exact Hi|].
  apply (set_attr_data_type_with_index example_column declared_column
           (example_world ["y"]) example_table_id (example_world ["y"])
           index [] w1); [reflexivity | exact Hi].
Defined.

(** C1 (evaluation at the failing input).  The column [c] of [t] carries
    the index [ix_c]; the declaration changes its data type and both
    questions are answered [y].  The index is dropped and the deletion
    committed, no ALTER COLUMN follows, the last record says the column is
    not altered, and [set_attribute], re-reading the unchanged type, ends
    the run with the not-altered error. *)
Lemma approved_index_deletion_skips_alter :
  let run := set_attr_data_type example_column declared_column
                                (example_world ["y"]) in
  fst run = Ok example_column
  /\ asks_to_delete example_index_id (trace (snd run)) = true
  /\ executed "DROP_INDEX" (trace (snd run)) = true
  /\ executed "ALTER_COLUMN" (trace (snd run)) = false
  /\ last (trace (snd run)) EvCommit = EvLog (MsgColumnNotAltered "c")
  /\ fst (set_attribute example_column declared_column "data_type"
                        (example_world ["y"; "y"]))
     = Raise DBNotAlteredAttributeError.
Proof. vm_compute. repeat split; reflexivity. Qed.

(* ===================================================================== *)
(** ** Finding or creating the counterpart of a declared child            *)
(* ===================================================================== *)

(** C5.  [get_or_create] first runs the class's match, and returns its
    node when there is one; an error other than not-found leaves as it
    is.  On not-found, a class that can be created is created and matched
    again: the second match decides the result, its failure is the failure
    of the call, and so is a failure of the creation; [create] itself
    checks after its commit that the name now exists and raises [DBError]
    when it does not.  A class that cannot be created, which is exactly
    the logins, gives no counterpart ([None]) and the declared node back,
    after one record in the log. *)
Theorem get_or_create_cases :
  forall cls parent d w,
    (forall r w1,
        from_declared cls parent d w = (Ok r, w1) ->
        get_or_create cls parent d w = (Ok (Some r, d), w1))
    /\ (forall e w1,
           from_declared cls parent d w = (Raise e, w1) ->
           is_DoesntExist e = false ->
           get_or_create cls parent d w = (Raise e, w1))
    /\ (forall e w1,
           from_declared cls parent d w = (Raise e, w1) ->
           is_DoesntExist e = true ->
           can_create cls = true ->
           (forall d1 w2,
               create cls parent d w1 = (Ok d1, w2) ->
               (forall r w3,
                   from_declared cls parent d1 w2 = (Ok r, w3) ->
                   get_or_create cls parent d w = (Ok (Some r, d1), w3))
               /\ (forall e' w3,
                      from_declared cls parent d1 w2 = (Raise e', w3) ->
                      get_or_create cls parent d w = (Raise e', w3)))
           /\ (forall e' w2,
                  create cls parent d w1 = (Raise e', w2) ->
                  get_or_create cls parent d w = (Raise e', w2)))
    /\ (forall e w1,
           from_declared cls parent d w = (Raise e, w1) ->
           is_DoesntExist e = true ->
           can_create cls = false ->
           declared_str d = Ok tt ->
           get_or_create cls parent d w
           = (Ok (None, d), add_event (EvLog (MsgUnableToCreate d)) w1))
    /\ (forall d1 w2 exists_now w3,
           declared_str d = Ok tt ->
           create_ex cls parent d (add_event (EvLog (MsgCreating parent d)) w)
           = (Ok d1, w2) ->
           name_exists_ex cls parent (d_name d1) (add_event EvCommit w2)
           = (Ok exists_now, w3) ->
           (exists_now = true -> create cls parent d w = (Ok d1, w3))
           /\ (exists_now = false ->
               create cls parent d w
               = (match declared_str d1 with
                  | Ok _ => Raise DBError
                  | Raise e' => Raise e'
                  end, w3)))
    /\ (can_create cls = false <-> cls = Logins).
Proof.
  intros cls parent d w. unfold get_or_create, try_except.
  repeat split.
  - intros r w1 H. rewrite (bind_Ok _ _ _ _ _ H). reflexivity.
  - intros e w1 H He. rewrite (bind_Raise _ _ _ _ _ H), He. reflexivity.
  - intros r w3 Hr. rewrite (bind_Raise _ _ _ _ _ H), H0, H1.
    rewrite (bind_Ok _ _ _ _ _ H2), (bind_Ok _ _ _ _ _ Hr). reflexivity.
  - intros e' w3 Hr. rewrite (bind_Raise _ _ _ _ _ H), H0, H1.
    rewrite (bind_Ok _ _ _ _ _ H2), (bind_Raise _ _ _ _ _ Hr). reflexivity.
  - intros e' w2 Hc. rewrite (bind_Raise _ _ _ _ _ H), H0, H1.
    rewrite (bind_Raise _ _ _ _ _ Hc). reflexivity.
  - intros e w1 H He Hc Hs. rewrite (bind_Raise _ _ _ _ _ H), He, Hc, Hs.
    reflexivity.
  - intros ->. unfold create. rewrite H. unfold bind at 1. cbn [lift ret].
    unfold bind at 1. unfold log, emit.
    rewrite (bind_Ok _ _ _ _ _ H0).
    unfold bind at 1. unfold cur_commit, emit.
    rewrite (bind_Ok _ _ _ _ _ H1). reflexivity.
  - intros ->. unfold create. rewrite H. unfold bind at 1.
    cbn [lift ret]. unfold bind at 1. unfold log, emit.
    rewrite (bind_Ok _ _ _ _ _ H0).
    unfold bind at 1. unfold cur_commit, emit.
    rewrite (bind_Ok _ _ _ _ _ H1). cbn [negb].
    unfold bind, lift. destruct (declared_str d1); reflexivity.
  - destruct cls; cbn; intros; congruence.
  - intros ->. reflexivity.
Qed.

Lemma get_or_create_cases_witness :
  exists w1,
    from_declared Logins example_server declared_login (example_world [])
    = (Raise DBObjectDoesntExistError, w1)
    /\ get_or_create Logins example_server declared_login (example_world [])
       = (Ok (None, declared_login),
          add_event (EvLog (MsgUnableToCreate declared_login)) w1).
Proof.
  eexists. split; [vm_compute; reflexivity|].
  destruct (get_or_create_cases Logins example_server declared_login
                                (example_world []))
    as (_ & _ & _ & H & _).
  apply (H DBObjectDoesntExistError); reflexivity.
Defined.

(** The path through creation, on the same server: the table [t] has no
    partition scheme, the declared partition on [c] is created, and the
    second match returns the new scheme. *)
Lemma get_or_create_creates_partition :
  exists r w1,
    get_or_create Partitions example_table_id declared_partition
                  (example_world [])
    = (Ok (Some r, set_d_name declared_partition "ps_dbo_t_c"), w1)
    /\ r_id r = mkHandle Partitions "ps_dbo_t_c" (Some example_table_id)
    /\ executed "CREATE_PARTITION_SCHEME" (trace w1) = true.
Proof. eexists. eexists. vm_compute. repeat split; reflexivity. Qed.

(* ===================================================================== *)
(** ** Setting one attribute                                              *)
(* ===================================================================== *)

Lemma assoc_assoc_remove {A} k (l : list (string * A)) :
  assoc k (assoc_remove k l) = None.
Proof.
  induction l as [|[k' v] l IH]; cbn; [reflexivity|].
  destruct (String.eqb k k') eqn:E; [exact IH|]. cbn. rewrite E. exact IH.
Qed.

(** C4.  Without a registered setter [set_attribute] writes one record
    and returns [False]: nothing is raised and nothing is sent to the
    server.  With a setter and the answer [y] it runs the setter, commits,
    drops the cached value and the cached details, reads the attribute
    again, and raises the not-altered error exactly when the value read is
    not equal to the declared one; otherwise it returns [True].  With any
    other answer it returns [False] and does nothing. *)
Theorem set_attribute_cases :
  forall r d attr w,
    (setter (r_type r) attr = None ->
     set_attribute r d attr w
     = (Ok (false, r), add_event (EvLog (MsgNoSetter (r_id r) attr)) w))
    /\ (forall method new_value rest r1 w1 r2 w2 now r4 w3,
           setter (r_type r) attr = Some method ->
           declared_getattr d attr = Ok new_value ->
           stdin w = "y" :: rest ->
           str_reflected r (after_input
                              (PromptSetAttribute (r_id r) attr new_value) rest w)
           = (Ok r1, w1) ->
           method r1 d (add_event (EvLog (MsgSetting (r_id r) attr new_value)) w1)
           = (Ok r2, w2) ->
           getattr_reflected (reset_attribute r2 attr) attr
                             (add_event EvCommit w2)
           = (Ok (now, r4), w3) ->
           set_attribute r d attr w
           = (if py_eq now new_value then Ok (true, r4)
              else Raise DBNotAlteredAttributeError, w3))
    /\ (forall r2,
           assoc attr (r_attributes (reset_attribute r2 attr)) = None
           /\ r_detail_result (reset_attribute r2 attr) = None)
    /\ (forall method new_value answer rest,
           setter (r_type r) attr = Some method ->
           declared_getattr d attr = Ok new_value ->
           stdin w = answer :: rest ->
           answer <> "y" ->
           set_attribute r d attr w
           = (Ok (false, r),
              after_input (PromptSetAttribute (r_id r) attr new_value) rest w)).
Proof.
  intros r d attr w. unfold set_attribute. repeat split.
  - intros ->. reflexivity.
  - intros method new_value rest r1 w1 r2 w2 now r4 w3 Hs Hd Hin Hstr Hm Hg.
    rewrite Hs, Hd. unfold bind at 1. cbn [lift ret].
    rewrite (bind_Ok _ _ _ _ _ (input_answer _ _ _ _ Hin)).
    cbn [String.eqb Ascii.eqb Bool.eqb].
    rewrite (bind_Ok _ _ _ _ _ Hstr).
    unfold bind at 1. unfold log, emit.
    rewrite (bind_Ok _ _ _ _ _ Hm).
    unfold bind at 1. unfold cur_commit, emit.
    rewrite (bind_Ok _ _ _ _ _ Hg).
    destruct (py_eq now new_value); reflexivity.
  - apply assoc_assoc_remove.
  - intros method new_value answer rest Hs Hd Hin Hn.
    rewrite Hs, Hd. unfold bind at 1. cbn [lift ret].
    rewrite (bind_Ok _ _ _ _ _ (input_answer _ _ _ _ Hin)).
    apply String.eqb_neq in Hn. rewrite Hn. reflexivity.
Qed.

Lemma set_attribute_cases_witness :
  exists now r4 w3,
    set_attribute example_column declared_column "data_type"
                  (example_world ["y"; "y"])
    = (if py_eq now (VStr "datetime") then Ok (true, r4)
       else Raise DBNotAlteredAttributeError, w3)
    /\ now = VStr "datetime2".
Proof.
  destruct (set_attribute_cases example_column declared_column "data_type"
                                (example_world ["y"; "y"]))
    as (_ & H & _).
  eexists. eexists. eexists. split.
  - eapply H.
    + reflexivity.
    + reflexivity.
    + reflexivity.
    + vm_compute. reflexivity.
    + vm_compute. reflexivity.
    + vm_compute. reflexivity.
  - reflexivity.
Defined.

(** A change that takes: the precision of [c] is set with ALTER COLUMN,
    the precision read back is the declared one, and the call returns
    [True]. *)
Lemma set_attribute_applies :
  exists r w,
    set_attribute example_column declared_column "datetime_precision"
                  (example_world ["y"])
    = (Ok (true, r), w)
    /\ executed "ALTER_COLUMN" (trace w) = true.
Proof. eexists. eexists. vm_compute. split; reflexivity. Qed.

(* ===================================================================== *)
(** ** Equality of a live node and a declared node                        *)
(* ===================================================================== *)

Lemma equate_by_name_spec r d :
  equate_by_name r d = true
  <-> lower (r_name r) = lower (d_name d)
      \/ exists old, d_old_name d = Some old /\ old <> ""
                     /\ lower (r_name r) = lower old.
Proof.
  unfold equate_by_name. rewrite Bool.orb_true_iff, String.eqb_eq.
  split; (intros [H|H]; [left; exact H | right]).
  - destruct (d_old_name d) as [old|]; [|discriminate].
    apply andb_prop in H. destruct H as [Hn He].
    exists old. repeat split.
    + intros ->. discriminate Hn.
    + apply String.eqb_eq. exact He.
  - destruct H as (old & -> & Hn & He).
    apply String.eqb_neq in Hn. rewrite Hn. cbn.
    apply String.eqb_eq. exact He.
Qed.

(** A value already read is returned from the cache, without a query. *)
Lemma getattr_cached r item det v w :
  r_detail_result r = Some det ->
  assoc item (r_attributes r) = Some v ->
  str_in item (valid_attributes (r_type r)) = true ->
  getattr_reflected r item w = (Ok (v, r), w).
Proof.
  intros Hd Ha Hv. unfold getattr_reflected, getattr_with.
  rewrite Hv, Hd. cbn [negb]. unfold bind, ret. cbn [r_attributes].
  rewrite Ha. destruct r as [h attrs det']. cbn in Hd. subst det'.
  reflexivity.
Qed.

Lemma str_cached_index r det cols inc w :
  r_type r = Indexes ->
  r_detail_result r = Some det ->
  assoc "columns" (r_attributes r) = Some cols ->
  assoc "included_columns" (r_attributes r) = Some inc ->
  str_reflected r w = (Ok r, w).
Proof.
  intros Ht Hd Hc Hi. unfold str_reflected, str_with. rewrite Ht.
  fold getattr_reflected.
  assert (Hg1 : getattr_reflected r "columns" w = (Ok (cols, r), w))
    by (eapply getattr_cached; eauto; rewrite Ht; reflexivity).
  assert (Hg2 : getattr_reflected r "included_columns" w = (Ok (inc, r), w))
    by (eapply getattr_cached; eauto; rewrite Ht; reflexivity).
  rewrite (bind_Ok _ _ _ _ _ Hg1). rewrite (bind_Ok _ _ _ _ _ Hg2).
  destruct (truthy inc); [|reflexivity].
  rewrite (bind_Ok _ _ _ _ _ Hg2). reflexivity.
Qed.

Lemma equate_columns_run r d w r1 w1 cols r2 w2 dcols :
  str_reflected r w = (Ok r1, w1) ->
  declared_str d = Ok tt ->
  getattr_reflected r1 "columns" (add_event (EvLog (MsgComparing (r_id r) d)) w1)
  = (Ok (cols, r2), w2) ->
  declared_getattr d "columns" = Ok dcols ->
  equate_columns r d w = (Ok (py_eq cols dcols, r2), w2).
Proof.
  intros Hs Hd Hg Hc. unfold equate_columns.
  rewrite (bind_Ok _ _ _ _ _ Hs). rewrite Hd. unfold bind at 1. cbn [lift ret].
  unfold bind at 1. unfold log, emit.
  rewrite (bind_Ok _ _ _ _ _ Hg). rewrite Hc. reflexivity.
Qed.

Lemma chars_of_ascii_text s :
  is_ascii_text s = true ->
  chars_of s = map (fun c => String c EmptyString) (list_ascii_of_string s).
Proof.
  induction s as [|c s IH]; cbn; [reflexivity|].
  intros H. apply andb_prop in H. destruct H as [_ Hs].
  rewrite (IH Hs). destruct s as [|c' s']; [reflexivity|].
  cbn in Hs. apply andb_prop in Hs. destruct Hs as [Hc' _].
  cbn. unfold is_continuation.
  replace (128 <=? N_of_ascii c')%N with false; [reflexivity|].
  symmetry. apply N.leb_gt. apply N.ltb_lt. exact Hc'.
Qed.

Lemma lower_points_ascii l : forall before,
  forallb (fun c => (N_of_ascii c <? 128)%N) l = true ->
  String.concat "" (map chr (lower_points before (map N_of_ascii l)))
  = string_of_list_ascii (map lower_ascii l).
Proof.
  induction l as [|c l IH]; intros before H; [reflexivity|].
  cbn in H. apply andb_prop in H. destruct H as [Hc Hl].
  cbn [map lower_points]. rewrite Hc. cbn [app map].
  assert (Hchr : forall n, (n <? 128)%N = true ->
                           chr n = String (ascii_of_N n) EmptyString)
    by (intros n Hn; unfold chr; rewrite Hn; reflexivity).
  assert (Hone : chr (if (65 <=? N_of_ascii c)%N && (N_of_ascii c <=? 90)%N
                      then (N_of_ascii c + 32)%N else N_of_ascii c)
                 = String (lower_ascii c) EmptyString).
  { unfold lower_ascii.
    destruct ((65 <=? N_of_ascii c)%N && (N_of_ascii c <=? 90)%N) eqn:E.
    - apply Hchr. apply andb_prop in E. destruct E as [_ E].
      apply N.leb_le in E. apply N.ltb_lt. lia.
    - rewrite (Hchr _ Hc), ascii_N_embedding. reflexivity. }
  rewrite Hone.
  specialize (IH (N_of_ascii c :: before) Hl).
  cbn [string_of_list_ascii].
  destruct (map chr (lower_points (N_of_ascii c :: before) (map N_of_ascii l)))
    as [|x xs] eqn:Ex.
  - cbn in IH. cbn. rewrite <- IH. reflexivity.
  - cbn [String.concat]. cbn [String.concat] in IH. cbn. rewrite <- IH.
    reflexivity.
Qed.

(** On text in ASCII [str.lower()] folds the letters A to Z and leaves
    every other character as it is. *)
Lemma lower_ascii_text s : is_ascii_text s = true -> lower s = ascii_lower s.
Proof.
  intros H. unfold lower. rewrite (chars_of_ascii_text s H), map_map.
  assert (Hcp : map (fun c => code_point (String c EmptyString))
                    (list_ascii_of_string s)
                = map N_of_ascii (list_ascii_of_string s)).
  { clear -H. induction s as [|c s IH]; [reflexivity|].
    cbn in H. apply andb_prop in H. destruct H as [Hc Hs].
    cbn [list_ascii_of_string map]. rewrite (IH Hs). f_equal.
    unfold code_point. rewrite Hc. reflexivity. }
  rewrite Hcp, lower_points_ascii.
  - clear. induction s as [|c s IH]; cbn; [reflexivity|]. rewrite IH.
    reflexivity.
  - clear -H. induction s as [|c s IH]; cbn in *; [reflexivity|].
    apply andb_prop in H. destruct H as [Hc Hs]. rewrite Hc. cbn.
    apply IH. exact Hs.
Qed.

Lemma subset_strs_spec a b :
  subset_strs a b = true <-> (forall x, In x a -> In x b).
Proof.
  unfold subset_strs. rewrite forallb_forall. split; intros H x Hx.
  - specialize (H x Hx). unfold str_in in H. apply existsb_exists in H.
    destruct H as (y & Hy & E). apply String.eqb_eq in E. subst y. exact Hy.
  - unfold str_in. apply existsb_exists. exists x. split; [apply H; exact Hx|].
    apply String.eqb_refl.
Qed.

(** C8.  Against a declared node of its own type, [==] on a live node is
    the class's [equate_declared].  For the classes without an override
    that is the comparison of the lower-cased live name with the
    lower-cased declared name or, when the declared node has a non-empty
    old name, with that name lower-cased; on names in ASCII
    [str.lower()] folds A to Z and nothing else, so the match ignores
    case.  For a primary key the result is
    the equality of the live [columns] with the declared [columns], as
    sequences; for an index it is that equality and, when it holds, the
    equality of the [included_columns], two sets with the same members or
    [None] on both sides: the names of the two objects do not enter.  So a
    live index whose columns and included columns are those of a declared
    index is equal to it, whatever the two are called. *)
Theorem equality_by_class :
  forall r d w,
    (r_type r = d_type d -> reflected_eq r d w = equate_declared r d w)
    /\ (r_type r <> d_type d -> reflected_eq r d w = (Ok (false, r), w))
    /\ (~ In (r_type r) [PrimaryKeys; Indexes; Partitions; Users] ->
        equate_declared r d w = (Ok (equate_by_name r d, r), w)
        /\ (equate_by_name r d = true
            <-> lower (r_name r) = lower (d_name d)
                \/ exists old, d_old_name d = Some old /\ old <> ""
                               /\ lower (r_name r) = lower old))
    /\ (forall r1 w1 cols r2 w2 dcols,
           str_reflected r w = (Ok r1, w1) ->
           declared_str d = Ok tt ->
           getattr_reflected r1 "columns"
                             (add_event (EvLog (MsgComparing (r_id r) d)) w1)
           = (Ok (cols, r2), w2) ->
           declared_getattr d "columns" = Ok dcols ->
           (r_type r = PrimaryKeys ->
            equate_declared r d w = (Ok (py_eq cols dcols, r2), w2))
           /\ (r_type r = Indexes -> py_eq cols dcols = false ->
               equate_declared r d w = (Ok (false, r2), w2))
           /\ (forall inc r3 w3 dinc,
                  r_type r = Indexes -> py_eq cols dcols = true ->
                  getattr_reflected r2 "included_columns" w2
                  = (Ok (inc, r3), w3) ->
                  declared_getattr d "included_columns" = Ok dinc ->
                  equate_declared r d w = (Ok (py_eq inc dinc, r3), w3)))
    /\ (forall det cols inc,
           r_type r = Indexes -> d_type d = Indexes ->
           r_detail_result r = Some det ->
           assoc "columns" (r_attributes r) = Some cols ->
           assoc "included_columns" (r_attributes r) = Some inc ->
           declared_str d = Ok tt ->
           declared_getattr d "columns" = Ok cols ->
           declared_getattr d "included_columns" = Ok inc ->
           py_eq cols cols = true -> py_eq inc inc = true ->
           reflected_eq r d w
           = (Ok (true, r), add_event (EvLog (MsgComparing (r_id r) d)) w))
    /\ (forall a b, py_eq (VTuple a) (VTuple b) = true <-> a = b)
    /\ (forall a b, py_eq (VSet a) (VSet b) = true
                    <-> (forall x, In x a <-> In x b))
    /\ (forall a, py_eq VNone VNone = true
                  /\ py_eq VNone (VSet a) = false
                  /\ py_eq (VSet a) VNone = false)
    /\ (forall s, is_ascii_text s = true -> lower s = ascii_lower s).
Proof.
  intros r d w.
  split; [|split; [|split; [|split; [|split; [|split; [|split; [|split]]]]]]].
  - intros H. unfold reflected_eq. rewrite H, ObjType_eqb_refl. reflexivity.
  - intros H. unfold reflected_eq.
    destruct (ObjType_eqb (r_type r) (d_type d)) eqn:E; [|reflexivity].
    exfalso. apply H. destruct (r_type r), (d_type d); cbn in E; congruence.
  - intros H. split; [|apply equate_by_name_spec].
    unfold equate_declared. destruct (r_type r); try reflexivity;
      exfalso; apply H; cbn; tauto.
  - intros r1 w1 cols r2 w2 dcols Hs Hd Hg Hc.
    pose proof (equate_columns_run _ _ _ _ _ _ _ _ _ Hs Hd Hg Hc) as He.
    unfold equate_declared. split; [|split].
    + intros ->. exact He.
    + intros -> Hf. rewrite (bind_Ok _ _ _ _ _ He), Hf. reflexivity.
    + intros inc r3 w3 dinc -> Ht Hi Hdi.
      rewrite (bind_Ok _ _ _ _ _ He), Ht. unfold equate_attribute.
      rewrite (bind_Ok _ _ _ _ _ Hi), Hdi. reflexivity.
  - intros det cols inc Ht Hdt Hdet Hc Hi Hs Hdc Hdi Hcc Hii.
    unfold reflected_eq. rewrite Ht, Hdt. cbn [ObjType_eqb].
    unfold equate_declared. rewrite Ht.
    assert (Hv1 : str_in "columns" (valid_attributes (r_type r)) = true)
      by (rewrite Ht; reflexivity).
    assert (Hv2 : str_in "included_columns" (valid_attributes (r_type r)) = true)
      by (rewrite Ht; reflexivity).
    rewrite (bind_Ok _ _ _ _ _
               (equate_columns_run r d w r w cols r _ cols
                  (str_cached_index _ _ _ _ _ Ht Hdet Hc Hi) Hs
                  (getattr_cached _ _ _ _ _ Hdet Hc Hv1) Hdc)).
    rewrite Hcc. unfold equate_attribute.
    rewrite (bind_Ok _ _ _ _ _ (getattr_cached _ _ _ _ _ Hdet Hi Hv2)).
    rewrite Hdi. cbn [lift]. unfold bind, ret. rewrite Hii. reflexivity.
  - intros a b. cbn. revert b.
    induction a as [|x a IH]; intros [|y b]; cbn; split; intros H;
      try reflexivity; try discriminate.
    + apply andb_prop in H. destruct H as [Hx Hr].
      apply String.eqb_eq in Hx. apply IH in Hr. congruence.
    + injection H as -> ->. rewrite String.eqb_refl. apply IH. reflexivity.
  - intros a b. cbn. rewrite Bool.andb_true_iff, !subset_strs_spec.
    split.
    + intros [H1 H2] x. split; [apply H1 | apply H2].
    + intros H. split; intros x Hx; apply H; exact Hx.
  - intros a. repeat split.
  - apply lower_ascii_text.
Qed.

Lemma equality_by_class_witness :
  (r_name example_old_index <> d_name declared_index
   /\ reflected_eq example_old_index declared_index (example_world [])
      = (Ok (true, example_old_index),
         add_event (EvLog (MsgComparing (r_id example_old_index) declared_index))
                   (example_world [])))
  /\ reflected_eq example_upper_schema declared_schema (example_world [])
     = (Ok (true, example_upper_schema), example_world [])
  /\ reflected_eq example_accented_table declared_accented_table
                  (example_world [])
     = (Ok (true, example_accented_table), example_world [])
  /\ reflected_eq example_renamed_table declared_accented_table
                  (example_world [])
     = (Ok (true, example_renamed_table), example_world [])
  /\ reflected_eq example_table declared_accented_table (example_world [])
     = (Ok (false, example_table), example_world []).
Proof.
  split; [split; [discriminate|]|].
  - destruct (equality_by_class example_old_index declared_index
                                (example_world []))
      as (_ & _ & _ & _ & H & _).
    eapply H; reflexivity.
  - assert (Hby : forall r d,
               r_type r = d_type d ->
               ~ In (r_type r) [PrimaryKeys; Indexes; Partitions; Users] ->
               reflected_eq r d (example_world [])
               = (Ok (equate_by_name r d, r), example_world [])).
    { intros r d Ht Hn.
      destruct (equality_by_class r d (example_world []))
        as (H1 & _ & H3 & _).
      rewrite (H1 Ht). exact (proj1 (H3 Hn)). }
    repeat split; rewrite Hby; try reflexivity; cbn; intuition discriminate.
Defined.

(* ===================================================================== *)
(** ** What alignment does to the declaration                             *)
(* ===================================================================== *)

Lemma returns_ret {A} (Q : A -> Prop) a : Q a -> returns Q (ret a).
Proof. intros H w a' [= <-]. exact H. Qed.

Lemma returns_raise {A} (Q : A -> Prop) e : returns Q (raise e).
Proof. intros w a H. discriminate H. Qed.

Lemma returns_bind {A B} (Q1 : A -> Prop) (Q : B -> Prop) (m : M A) f :
  returns Q1 m -> (forall a, Q1 a -> returns Q (f a)) -> returns Q (bind m f).
Proof.
  intros Hm Hf w b. unfold bind. specialize (Hm w).
  destruct (m w) as [[a|e] w1]; [|discriminate].
  apply Hf. apply Hm. reflexivity.
Qed.

Lemma returns_bind_any {A B} (Q : B -> Prop) (m : M A) f :
  (forall a, returns Q (f a)) -> returns Q (bind m f).
Proof.
  intros Hf. apply (returns_bind (fun _ => True)); [intros ? ? ?; exact I|].
  intros a _. apply Hf.
Qed.

Lemma returns_try {A} (Q : A -> Prop) m c h :
  returns Q m -> returns Q h -> returns Q (try_except m c h).
Proof.
  intros Hm Hh w a. unfold try_except. specialize (Hm w).
  destruct (m w) as [[a'|e] w1].
  - exact (Hm a).
  - destruct (c e); [apply Hh | discriminate].
Qed.

Lemma returns_post {A} (Q Q' : A -> Prop) m :
  returns Q m -> (forall a, Q a -> Q' a) -> returns Q' m.
Proof. intros H HQ w a E. apply HQ. exact (H w a E). Qed.

Ltac returns_walk :=
  repeat first
    [ apply returns_ret
    | apply returns_raise
    | apply returns_bind_any; intros ?
    | match goal with
      | |- returns _ (match ?x with _ => _ end) => destruct x
      | |- returns _ (if ?x then _ else _) => destruct x
      end ].

Lemma returns_map_m {A B} (R : A -> B -> Prop) (f : A -> M B) l :
  (forall x, returns (R x) (f x)) -> returns (Forall2 R l) (map_m f l).
Proof.
  intros Hf. induction l as [|x l IH]; cbn.
  - apply returns_ret. constructor.
  - eapply returns_bind; [apply Hf|]. intros y Hy.
    eapply returns_bind; [apply IH|]. intros ys Hys.
    apply returns_ret. constructor; assumption.
Qed.

Lemma forget_set_d_name d n :
  d_type d = Partitions ->
  forget_partition_names (set_d_name d n) = forget_partition_names d.
Proof. destruct d as [t n' o i ch a]. cbn. intros ->. reflexivity. Qed.

Lemma forget_named_by_create d d1 :
  named_by_create (d_type d) d d1 ->
  forget_partition_names d1 = forget_partition_names d.
Proof.
  intros [->|[Ht [n ->]]]; [reflexivity|]. apply forget_set_d_name. exact Ht.
Qed.

Lemma ObjType_eqb_eq a b : ObjType_eqb a b = true -> a = b.
Proof. destruct a, b; cbn; congruence. Qed.

Lemma forget_children_set ct l l' : forall c,
  children_get ct c = Some l ->
  map forget_partition_names l' = map forget_partition_names l ->
  map (fun p : ObjType * list Declared =>
         match p with (t, x) => (t, map forget_partition_names x) end)
      (children_set ct l' c)
  = map (fun p : ObjType * list Declared =>
           match p with (t, x) => (t, map forget_partition_names x) end) c.
Proof.
  induction c as [|[t x] c IH]; cbn; [discriminate|].
  destruct (ObjType_eqb ct t) eqn:E.
  - intros [= ->] H. apply ObjType_eqb_eq in E. subst t. cbn. rewrite H.
    reflexivity.
  - intros Hg H. cbn. rewrite (IH Hg H). reflexivity.
Qed.

Lemma forget_set_d_children d ct l l' :
  declared_get_children d ct = Some l ->
  map forget_partition_names l' = map forget_partition_names l ->
  forget_partition_names
    (set_d_children d (children_set ct l' (d_children d)))
  = forget_partition_names d.
Proof.
  unfold declared_get_children. destruct d as [t n o i ch a]. cbn.
  intros Hg H. rewrite (forget_children_set _ _ _ _ Hg H). reflexivity.
Qed.

Lemma Forall2_forget l l' :
  Forall2 (fun x y => forget_partition_names y = forget_partition_names x) l l' ->
  map forget_partition_names l' = map forget_partition_names l.
Proof. induction 1; cbn; congruence. Qed.

Lemma returns_partition_create_ex parent d :
  returns (named_by_create Partitions d) (partition_create_ex parent d).
Proof.
  unfold partition_create_ex. returns_walk.
  right. split; [reflexivity|]. eexists. reflexivity.
Qed.

Lemma returns_create_ex cls parent d :
  returns (named_by_create cls d) (create_ex cls parent d).
Proof.
  unfold create_ex. destruct cls;
    try apply returns_partition_create_ex;
    returns_walk; left; reflexivity.
Qed.

Lemma returns_create cls parent d :
  returns (named_by_create cls d) (create cls parent d).
Proof.
  unfold create.
  apply returns_bind_any; intros _. apply returns_bind_any; intros _.
  eapply returns_bind; [apply returns_create_ex|]. intros d1 H1.
  returns_walk. exact H1.
Qed.

Lemma returns_get_or_create cls parent d :
  returns (fun p => named_by_create cls d (snd p)) (get_or_create cls parent d).
Proof.
  unfold get_or_create. apply returns_try.
  - returns_walk. left. reflexivity.
  - destruct (can_create cls).
    + eapply returns_bind; [apply returns_create|]. intros d1 H1.
      returns_walk. exact H1.
    + returns_walk. left. reflexivity.
Qed.

Lemma returns_get_or_create_child self d :
  returns (fun p => forget_partition_names (snd p) = forget_partition_names d)
          (get_or_create_child self d).
Proof.
  unfold get_or_create_child, get_child_class_from_name.
  destruct (existsb _ _);
    [|eapply (returns_bind (fun _ => False));
      [apply returns_raise | intros ? []]].
  eapply (returns_bind (fun c => c = d_type d));
    [apply returns_ret; reflexivity|].
  intros c ->. eapply returns_post; [apply returns_get_or_create|].
  intros p Hp. apply forget_named_by_create. exact Hp.
Qed.

Lemma returns_align_declared_child align rp ct dc :
  (forall d' r', returns (fun d'' => forget_partition_names d''
                                     = forget_partition_names d') (align d' r')) ->
  returns (fun d' => forget_partition_names d' = forget_partition_names dc)
          (align_declared_child align rp ct dc).
Proof.
  intros Hal. unfold align_declared_child, align_declared_child_body.
  apply returns_bind_any; intros _. apply returns_bind_any; intros _.
  eapply returns_bind; [apply returns_get_or_create_child|].
  intros [[r'|] d1] H1; cbn in H1.
  - eapply returns_post; [apply Hal|]. intros d2 H2. congruence.
  - apply returns_ret. exact H1.
Qed.

Lemma returns_align_child_type_with align dp rp ct :
  (forall d' r', returns (fun d'' => forget_partition_names d''
                                     = forget_partition_names d') (align d' r')) ->
  returns (fun d' => forget_partition_names d' = forget_partition_names dp)
          (align_child_type_with align dp rp ct).
Proof.
  intros Hal. unfold align_child_type_with.
  apply returns_bind_any; intros _. apply returns_bind_any; intros _.
  destruct (declared_get_children dp ct) as [l|] eqn:E;
    [|apply returns_ret; reflexivity].
  apply returns_bind_any; intros _.
  eapply returns_bind.
  - apply (returns_map_m
             (fun x y => forget_partition_names y = forget_partition_names x)).
    intros dc. apply returns_align_declared_child. exact Hal.
  - intros aligned Ha. apply returns_ret.
    apply (forget_set_d_children _ _ _ _ E). apply Forall2_forget. exact Ha.
Qed.

Lemma returns_align_child_types step r cts : forall d,
  (forall d' ct, returns (fun d'' => forget_partition_names d''
                                     = forget_partition_names d') (step d' r ct)) ->
  returns (fun d' => forget_partition_names d' = forget_partition_names d)
          (align_child_types step d r cts).
Proof.
  induction cts as [|ct cts IH]; intros d Hs; cbn.
  - apply returns_ret. reflexivity.
  - eapply returns_bind; [apply Hs|]. intros d1 H1.
    eapply returns_post; [apply IH; exact Hs|]. intros d2 H2. congruence.
Qed.

Lemma returns_align_entity_fuel fuel : forall d r align_children,
  returns (fun d' => forget_partition_names d' = forget_partition_names d)
          (align_entity_fuel fuel d r align_children).
Proof.
  induction fuel as [|fuel IH]; intros d r ac; cbn.
  - apply returns_raise.
  - apply returns_bind_any; intros r2. destruct ac.
    + apply returns_align_child_types. intros d' ct.
      apply returns_align_child_type_with. intros d'' r'. apply IH.
    + apply returns_ret. reflexivity.
Qed.

Lemma forget_fields d d' :
  forget_partition_names d' = forget_partition_names d ->
  d_type d' = d_type d /\ d_old_name d' = d_old_name d
  /\ d_ignore d' = d_ignore d /\ d_attrs d' = d_attrs d
  /\ (d_type d <> Partitions -> d_name d' = d_name d).
Proof.
  destruct d as [t n o i ch a], d' as [t' n' o' i' ch' a']. cbn.
  intros [= -> Hn -> -> _ ->]. repeat split.
  intros Ht. destruct t; congruence.
Qed.

(** *** Assignments are the only changes *)

Lemma covers_names_partition : covers 3 names_partition.
Proof.
  intros e He. destruct e as [q| | |p|m|s]; try exact I.
  cbn in He. lia.
Qed.

Lemma assigns_names_partition : assigns_partitions names_partition.
Proof.
  intros x schema table column Hx. split; [exact Hx|].
  exists schema, table, column. reflexivity.
Qed.

Lemma names_partition_other e :
  is_assignment e = false -> names_partition e.
Proof.
  destruct e as [q| | |p|m|s]; try (intros; exact I).
  destruct s; try (intros; exact I). discriminate.
Qed.

Lemma align_entity_fuel_assigns fuel : forall d r align_children,
  spec names_partition any (align_entity_fuel fuel d r align_children).
Proof.
  induction fuel as [|fuel IH]; intros d r ac; cbn.
  - apply spec_raise.
  - eapply spec_bind.
    + apply spec_align_entity_attributes.
      * eapply covers_le; [apply covers_names_partition | lia].
      * intros e He. apply names_partition_other.
        destruct e as [q| | |p|m|s]; try reflexivity.
        destruct s; try reflexivity. cbn in He. contradiction.
      * exact I.
    + intros r2 H2. destruct ac; [|apply spec_ret; exact I].
      apply spec_align_child_types. intros d' ct.
      apply spec_align_child_type_with.
      * eapply covers_le; [apply covers_names_partition | lia].
      * apply assigns_names_partition.
      * intros e He. apply names_partition_other.
        destruct e as [q| | |p|m|s]; try reflexivity.
        destruct s; try reflexivity. destruct He as [He|He]; cbn in He;
          contradiction.
      * intros d'' r' _. apply IH.
Qed.

Lemma assigned_grows {A} P (Q : A -> Prop) (m : M A) w :
  spec P Q m -> assigned (trace w) <= assigned (trace (snd (m w))).
Proof.
  intros H. destruct (H w) as (T & E & _). rewrite E. unfold assigned.
  rewrite filter_app, length_app. lia.
Qed.

Lemma keeps_ret {A} (R : A -> Prop) a : R a -> keeps R (ret a).
Proof. intros H w a' [= <-]. left. exact H. Qed.

Lemma keeps_raise {A} (R : A -> Prop) e : keeps R (raise e).
Proof. intros w a H. discriminate H. Qed.

Lemma keeps_post {A} (R R' : A -> Prop) m :
  keeps R m -> (forall a, R a -> R' a) -> keeps R' m.
Proof.
  intros H HR w a E. destruct (H w a E) as [Ha|Ha]; [left; auto | right; exact Ha].
Qed.

(** After a part that only needs to be run. *)
Lemma keeps_after {A B} (R : B -> Prop) (m : M A) (f : A -> M B) :
  spec (fun _ => True) any m -> (forall a, keeps R (f a)) ->
  keeps R (bind m f).
Proof.
  intros Hm Hf w b. unfold bind.
  pose proof (assigned_grows _ _ m w Hm) as Hg.
  destruct (m w) as [[a|e] w1]; [|discriminate]. cbn [snd] in Hg.
  intros E. destruct (Hf a w1 b E) as [Hr|Hr]; [left; exact Hr|].
  right. lia.
Qed.

(** After a part whose result matters. *)
Lemma keeps_bind {A B} (R1 : A -> Prop) (R : B -> Prop) (m : M A)
      (f : A -> M B) :
  keeps R1 m -> spec (fun _ => True) any m ->
  (forall a, spec (fun _ => True) any (f a)) ->
  (forall a, R1 a -> keeps R (f a)) ->
  keeps R (bind m f).
Proof.
  intros Hk Hm Hs Hf w b. unfold bind.
  pose proof (assigned_grows _ _ m w Hm) as Hg.
  specialize (Hk w).
  destruct (m w) as [[a|e] w1]; [|discriminate]. cbn [fst snd] in Hg, Hk.
  pose proof (assigned_grows _ _ (f a) w1 (Hs a)) as Hg2.
  intros E. destruct (Hk a eq_refl) as [Ha|Ha].
  - destruct (Hf a Ha w1 b E) as [Hr|Hr]; [left; exact Hr | right; lia].
  - right. lia.
Qed.

Lemma keeps_try {A} (R : A -> Prop) (m : M A) c h :
  keeps R m -> spec (fun _ => True) any m -> keeps R h ->
  keeps R (try_except m c h).
Proof.
  intros Hk Hm Hh w a. unfold try_except.
  pose proof (assigned_grows _ _ m w Hm) as Hg. specialize (Hk w).
  destruct (m w) as [[a'|e] w1]; cbn [fst snd] in *.
  - intros E. exact (Hk a E).
  - destruct (c e); [|discriminate]. intros E.
    destruct (Hh w1 a E) as [Hr|Hr]; [left; exact Hr | right; lia].
Qed.

Lemma keeps_map_m (f : Declared -> M Declared) l :
  (forall x, keeps (fun y => y = x) (f x)) ->
  (forall x, spec (fun _ => True) any (f x)) ->
  keeps (fun l' => l' = l) (map_m f l).
Proof.
  intros Hk Hs. induction l as [|x l IH]; cbn [map_m].
  - apply keeps_ret. reflexivity.
  - eapply keeps_bind; [apply Hk | apply Hs | |].
    + intros y. eapply (spec_bind _ any);
        [apply spec_map_m_any; exact Hs | intros; apply spec_ret; exact I].
    + intros y ->. eapply keeps_bind;
        [apply IH | apply spec_map_m_any; exact Hs
        | intros; apply spec_ret; exact I |].
      intros ys ->. apply keeps_ret. reflexivity.
Qed.

Ltac runs :=
  solve [ spec_go
        | eapply spec_any; spec_go
        | apply spec_map_m_any; intros; spec_go ].

Lemma keeps_assign {A} (R : A -> Prop) x n (a : A) :
  keeps R (emit (EvStep (StepAssignName x n)) ;; ret a).
Proof.
  intros w a'. unfold bind, emit, ret. cbn. intros _. right.
  unfold assigned. rewrite filter_app, length_app. cbn. lia.
Qed.

Lemma keeps_partition_create_ex parent d :
  keeps (fun d1 => d1 = d) (partition_create_ex parent d).
Proof.
  unfold partition_create_ex.
  repeat first
    [ apply keeps_raise
    | apply keeps_assign
    | apply keeps_after;
      [ runs | intros ? ]
    | match goal with
      | |- keeps _ (match ?x with _ => _ end) => destruct x
      | |- keeps _ (if ?x then _ else _) => destruct x
      end ].
Qed.

Lemma children_set_same ct l : forall c,
  children_get ct c = Some l -> children_set ct l c = c.
Proof.
  induction c as [|[t x] c IH]; cbn; [discriminate|].
  destruct (ObjType_eqb ct t) eqn:E.
  - intros [= ->]. apply ObjType_eqb_eq in E. subst t. reflexivity.
  - intros H. rewrite (IH H). reflexivity.
Qed.

Lemma keeps_create_ex cls parent d :
  keeps (fun d1 => d1 = d) (create_ex cls parent d).
Proof.
  unfold create_ex. destruct cls; try apply keeps_partition_create_ex;
    repeat first
      [ apply keeps_raise
      | apply keeps_ret; reflexivity
      | apply keeps_after; [ runs | intros ? ]
      | match goal with
        | |- keeps _ (match ?x with _ => _ end) => destruct x
        | |- keeps _ (if ?x then _ else _) => destruct x
        end ].
Qed.

Lemma spec_create_trivial cls parent d :
  spec (fun _ => True) any (create cls parent d).
Proof. apply spec_create; [apply spec_trivial_covers | intros; exact I]. Qed.

Lemma spec_create_ex_trivial cls parent d :
  spec (fun _ => True) any (create_ex cls parent d).
Proof. apply spec_create_ex; [apply spec_trivial_covers | intros; exact I]. Qed.

Lemma spec_get_or_create_child_trivial self d :
  spec (fun _ => True) any (get_or_create_child self d).
Proof.
  eapply spec_any. apply spec_get_or_create_child;
    [apply spec_trivial_covers | apply assigns_trivial].
Qed.

Lemma keeps_create cls parent d :
  keeps (fun d1 => d1 = d) (create cls parent d).
Proof.
  unfold create.
  apply keeps_after; [runs|]. intros _.
  apply keeps_after; [apply spec_log; exact I|]. intros _.
  eapply keeps_bind;
    [apply keeps_create_ex | apply spec_create_ex_trivial | intros; runs |].
  intros d1 ->.
  apply keeps_after; [runs|]. intros _.
  apply keeps_after; [runs|]. intros created.
  destruct (negb created).
  - apply keeps_after; [runs|]. intros _. apply keeps_raise.
  - apply keeps_ret. reflexivity.
Qed.

Lemma keeps_get_or_create cls parent d :
  keeps (fun p => snd p = d) (get_or_create cls parent d).
Proof.
  unfold get_or_create. apply keeps_try.
  - apply keeps_after; [runs|]. intros r. apply keeps_ret. reflexivity.
  - runs.
  - destruct (can_create cls).
    + eapply keeps_bind;
        [apply keeps_create | apply spec_create_trivial | intros; runs |].
      intros d1 ->. apply keeps_after; [runs|]. intros r.
      apply keeps_ret. reflexivity.
    + apply keeps_after; [runs|]. intros _.
      apply keeps_after; [apply spec_log; exact I|]. intros _.
      apply keeps_ret. reflexivity.
Qed.

Lemma keeps_get_or_create_child self d :
  keeps (fun p => snd p = d) (get_or_create_child self d).
Proof.
  unfold get_or_create_child.
  apply keeps_after; [runs|]. intros c. apply keeps_get_or_create.
Qed.

Lemma spec_align_declared_child_trivial align rp ct dc :
  (forall d' r', spec (fun _ => True) any (align d' r')) ->
  spec (fun _ => True) any (align_declared_child align rp ct dc).
Proof.
  intros Hal. apply spec_align_declared_child;
    [apply spec_trivial_covers | apply assigns_trivial | intros; exact I|].
  intros d' r' _. apply Hal.
Qed.

Lemma keeps_align_declared_child align rp ct dc :
  (forall d' r', keeps (fun d'' => d'' = d') (align d' r')) ->
  (forall d' r', spec (fun _ => True) any (align d' r')) ->
  keeps (fun d' => d' = dc) (align_declared_child align rp ct dc).
Proof.
  intros Hk Hs. unfold align_declared_child, align_declared_child_body.
  apply keeps_after; [apply spec_emit; exact I|]. intros _.
  apply keeps_after.
  { destruct (has_old_name dc); [|apply spec_ret; exact I].
    apply spec_try; [|apply spec_ret; exact I].
    eapply (spec_bind _ any); [eapply spec_any; apply spec_get_child;
                               auto with spec|]. intros old _.
    eapply (spec_bind _ any); [apply spec_rename; auto with spec|]. intros _ _.
    apply spec_ret. exact I. }
  intros _.
  eapply keeps_bind;
    [apply keeps_get_or_create_child | apply spec_get_or_create_child_trivial
    | | ].
  - intros [[r'|] d1]; [apply Hs | apply spec_ret; exact I].
  - intros [[r'|] d1] E; cbn in E; subst d1.
    + apply Hk.
    + apply keeps_ret. reflexivity.
Qed.

Lemma keeps_align_child_type_with align dp rp ct :
  (forall d' r', keeps (fun d'' => d'' = d') (align d' r')) ->
  (forall d' r', spec (fun _ => True) any (align d' r')) ->
  keeps (fun d' => d' = dp) (align_child_type_with align dp rp ct).
Proof.
  intros Hk Hs. unfold align_child_type_with.
  apply keeps_after; [runs|]. intros _.
  apply keeps_after; [apply spec_log; exact I|]. intros _.
  destruct (declared_get_children dp ct) as [l|] eqn:E;
    [|apply keeps_ret; reflexivity].
  apply keeps_after; [apply spec_remove_trivial|]. intros _.
  eapply keeps_bind.
  - apply keeps_map_m.
    + intros dc. apply keeps_align_declared_child; assumption.
    + intros dc. apply spec_align_declared_child_trivial. exact Hs.
  - apply spec_map_m_any. intros dc.
    apply spec_align_declared_child_trivial. exact Hs.
  - intros. apply spec_ret. exact I.
  - intros aligned ->. apply keeps_ret.
    unfold declared_get_children in E. rewrite (children_set_same _ _ _ E).
    destruct dp. reflexivity.
Qed.

Lemma spec_align_child_type_with_trivial align dp rp ct :
  (forall d' r', spec (fun _ => True) any (align d' r')) ->
  spec (fun _ => True) any (align_child_type_with align dp rp ct).
Proof.
  intros Hs. apply spec_align_child_type_with;
    [apply spec_trivial_covers | apply assigns_trivial | intros; exact I|].
  intros d' r' _. apply Hs.
Qed.

Lemma keeps_align_child_types step r cts : forall d,
  (forall d' ct, keeps (fun d'' => d'' = d') (step d' r ct)) ->
  (forall d' ct, spec (fun _ => True) any (step d' r ct)) ->
  keeps (fun d' => d' = d) (align_child_types step d r cts).
Proof.
  induction cts as [|ct cts IH]; intros d Hk Hs; cbn.
  - apply keeps_ret. reflexivity.
  - eapply keeps_bind; [apply Hk | apply Hs | |].
    + intros d1. apply spec_align_child_types. exact Hs.
    + intros d1 ->. apply IH; assumption.
Qed.

Lemma spec_align_entity_fuel_trivial fuel d r align_children :
  spec (fun _ => True) any (align_entity_fuel fuel d r align_children).
Proof.
  eapply spec_weaken; [apply align_entity_fuel_below | intros; exact I | auto].
Qed.

Lemma keeps_align_entity_fuel fuel : forall d r align_children,
  keeps (fun d' => d' = d) (align_entity_fuel fuel d r align_children).
Proof.
  induction fuel as [|fuel IH]; intros d r ac; cbn.
  - apply keeps_raise.
  - apply keeps_after; [eapply spec_any; apply attributes_trivial|].
    intros r2. destruct ac; [|apply keeps_ret; reflexivity].
    apply keeps_align_child_types.
    + intros d' ct. apply keeps_align_child_type_with.
      * intros d'' r'. apply IH.
      * intros d'' r'. apply spec_align_entity_fuel_trivial.
    + intros d' ct. apply spec_align_child_type_with_trivial.
      intros d'' r'. apply spec_align_entity_fuel_trivial.
Qed.

Lemma no_assignment_in {A} P (Q : A -> Prop) (m : M A) w :
  spec P Q m ->
  existsb is_assignment (delta m w) = false ->
  assigned (trace (snd (m w))) = assigned (trace w).
Proof.
  intros H Hn. destruct (spec_delta _ _ _ w H) as [E _].
  revert Hn E. generalize (delta m w) as T. intros T Hn E. rewrite E.
  unfold assigned. rewrite filter_app, length_app.
  replace (filter is_assignment T) with (@nil Event); [cbn; lia|].
  symmetry. clear E. induction T as [|e T IH]; [reflexivity|].
  cbn in Hn. apply Bool.orb_false_iff in Hn. destruct Hn as [He HT].
  cbn. rewrite He. apply IH. exact HT.
Qed.




(* ===================================================================== *)
(** ** Declared nodes: children and attributes                            *)
(* ===================================================================== *)

Lemma ObjType_eqb_neq a b : a <> b -> ObjType_eqb a b = false.
Proof.
  intros H. destruct (ObjType_eqb a b) eqn:E; [|reflexivity].
  exfalso. apply H. apply ObjType_eqb_eq. exact E.
Qed.

Lemma children_get_set_same t l : forall c,
  children_get t (children_set t l c) = Some l.
Proof.
  induction c as [|[t' l'] c IH]; cbn.
  - rewrite ObjType_eqb_refl. reflexivity.
  - destruct (ObjType_eqb t t') eqn:E; cbn.
    + rewrite ObjType_eqb_refl. reflexivity.
    + rewrite E. exact IH.
Qed.

Lemma children_get_set_other t t' l : forall c,
  t' <> t -> children_get t' (children_set t l c) = children_get t' c.
Proof.
  intros c Hn. induction c as [|[t0 l0] c IH]; cbn.
  - rewrite (ObjType_eqb_neq _ _ Hn). reflexivity.
  - destruct (ObjType_eqb t t0) eqn:E; cbn.
    + apply ObjType_eqb_eq in E. subst t0.
      rewrite (ObjType_eqb_neq _ _ Hn). reflexivity.
    + destruct (ObjType_eqb t' t0); [reflexivity | exact IH].
Qed.

Lemma existsb_ObjType_In t l :
  existsb (ObjType_eqb t) l = true <-> In t l.
Proof.
  rewrite existsb_exists. split.
  - intros (x & Hx & E). apply ObjType_eqb_eq in E. subst x. exact Hx.
  - intros H. exists t. split; [exact H | apply ObjType_eqb_refl].
Qed.

(** X1.  [add_child] accepts a node exactly when its object type is one of
    the child types of the parent's class, and otherwise raises
    [InvalidDBEntityChildError].  An accepted child is appended to the list
    of its own type, which [get_children] then returns; the lists of the
    other types and the parent's name, old name, ignore set and attributes
    stay as they were. *)
Theorem add_child_get_children :
  forall d c,
    (In (d_type c) (declared_child_types (d_type d)) ->
     exists d',
       add_child d c = Ok d'
       /\ declared_get_children d' (d_type c)
          = Some (declared_children_of d (d_type c) ++ [c])
       /\ (forall t, t <> d_type c ->
                     declared_get_children d' t = declared_get_children d t)
       /\ same_but_children d d')
    /\ (~ In (d_type c) (declared_child_types (d_type d)) ->
        add_child d c = Raise InvalidDBEntityChildError).
Proof.
  intros d c. unfold add_child. split; intros H.
  - apply existsb_ObjType_In in H. rewrite H. cbn [negb].
    eexists. split; [reflexivity|].
    unfold declared_children_of, declared_get_children, same_but_children.
    cbn [d_children set_d_children d_type d_name d_old_name d_ignore d_attrs].
    split; [apply children_get_set_same|].
    split; [intros t Ht; apply children_get_set_other; exact Ht|].
    repeat split.
  - destruct (existsb (ObjType_eqb (d_type c)) (declared_child_types (d_type d)))
      eqn:E; [|reflexivity].
    exfalso. apply H. apply existsb_ObjType_In. exact E.
Qed.

Lemma find_name_some n l c :
  find (fun x => String.eqb (d_name x) n) l = Some c ->
  In c l /\ d_name c = n.
Proof.
  intros H. apply find_some in H. destruct H as [Hi He].
  apply String.eqb_eq in He. auto.
Qed.

Lemma find_name_none n l :
  find (fun x => String.eqb (d_name x) n) l = None <->
  Forall (fun c => d_name c <> n) l.
Proof.
  induction l as [|x l IH]; cbn.
  - split; [constructor | reflexivity].
  - destruct (String.eqb (d_name x) n) eqn:E.
    + split; [discriminate|]. intros H. inversion H as [|? ? Hx _]. subst.
      apply String.eqb_eq in E. contradiction.
    + apply String.eqb_neq in E. rewrite IH. split.
      * intros H. constructor; assumption.
      * intros H. inversion H. assumption.
Qed.

(** X2.  [get_child] returns a declared child of the asked type that has
    the asked name.  It raises [TypeError] exactly when the node declares
    no child of that type (the loop runs over [None]) and
    [InvalidDBEntityChildError] exactly when it declares some but none with
    that name.  It never raises [DBObjectDoesntExistError], the only error
    [get_child_by_name] is prepared to catch. *)
Theorem declared_get_child_cases :
  forall d t n,
    (forall c, declared_get_child d t n = Ok c ->
               In c (declared_children_of d t) /\ d_name c = n)
    /\ (declared_get_child d t n = Raise TypeError
        <-> declared_get_children d t = None)
    /\ (declared_get_child d t n = Raise InvalidDBEntityChildError
        <-> exists l, declared_get_children d t = Some l
                      /\ Forall (fun c => d_name c <> n) l)
    /\ declared_get_child d t n <> Raise DBObjectDoesntExistError.
Proof.
  intros d t n. unfold declared_get_child, declared_children_of.
  destruct (declared_get_children d t) as [l|].
  - destruct (find (fun c => String.eqb (d_name c) n) l) as [c|] eqn:E.
    + split; [|split; [|split]].
      * intros c' [= <-]. apply (find_name_some _ _ _ E).
      * split; discriminate.
      * split; [discriminate|].
        intros (l' & [= <-] & H). apply find_name_none in H. congruence.
      * discriminate.
    + split; [|split; [|split]].
      * discriminate.
      * split; discriminate.
      * split; [|reflexivity].
        intros _. exists l. split; [reflexivity|].
        apply find_name_none. exact E.
      * discriminate.
  - split; [|split; [|split]].
    + discriminate.
    + split; reflexivity.
    + split; [discriminate|]. intros (l & H & _). discriminate H.
    + discriminate.
Qed.

Lemma assoc_assoc_remove_other {A} k k' (l : list (string * A)) :
  k <> k' -> assoc k (assoc_remove k' l) = assoc k l.
Proof.
  intros Hn. induction l as [|[k0 v0] l IH]; cbn; [reflexivity|].
  destruct (String.eqb k' k0) eqn:E0.
  - apply String.eqb_eq in E0. subst k0.
    apply String.eqb_neq in Hn. rewrite Hn. exact IH.
  - cbn. rewrite IH. reflexivity.
Qed.

Lemma init_children_kwargs cts : forall d kw d' kw',
  init_children d cts kw = Ok (d', kw') ->
  forall a, ~ In a (map object_type_name cts) -> assoc a kw' = assoc a kw.
Proof.
  induction cts as [|ct cts IH]; intros d kw d' kw'; cbn.
  - intros [= _ <-]. reflexivity.
  - intros H a Ha.
    assert (Hne : a <> object_type_name ct) by (intros ->; apply Ha; now left).
    assert (Hin : ~ In a (map object_type_name cts))
      by (intros Hx; apply Ha; now right).
    assert (Hrest : forall d0, init_children d0 cts
                                 (assoc_remove (object_type_name ct) kw)
                               = Ok (d', kw') -> assoc a kw' = assoc a kw).
    { intros d0 H0. rewrite (IH _ _ _ _ H0 a Hin).
      apply assoc_assoc_remove_other. exact Hne. }
    destruct (assoc (object_type_name ct) kw) as [[v|c|l]|].
    + destruct v as [| | | |items|items|]; try discriminate;
        try (eapply Hrest; exact H).
      destruct items; [eapply Hrest; exact H | discriminate].
    + destruct (add_child d c) as [d1|e]; [|discriminate].
      eapply Hrest; exact H.
    + destruct (add_children d l) as [d1|e]; [|discriminate].
      eapply Hrest; exact H.
    + eapply Hrest; exact H.
Qed.

Lemma init_attributes_other k names : forall acc kw attrs kw',
  init_attributes acc names kw = Ok (attrs, kw') ->
  ~ In k names -> assoc k attrs = assoc k acc.
Proof.
  induction names as [|a names IH]; intros acc kw attrs kw'; cbn.
  - intros [= <- _]. reflexivity.
  - destruct (assoc a kw) as [[v|c|l]|]; try discriminate.
    intros H Hin. rewrite (IH _ _ _ _ H); [|intros Hx; apply Hin; now right].
    rewrite assoc_assoc_set.
    destruct (String.eqb k a) eqn:E; [|reflexivity].
    apply String.eqb_eq in E. subst k. exfalso. apply Hin. now left.
Qed.

Lemma init_attributes_stored names : forall acc kw attrs kw',
  NoDup names ->
  init_attributes acc names kw = Ok (attrs, kw') ->
  forall a, In a names ->
            exists v, assoc a kw = Some (KwValue v) /\ assoc a attrs = Some v.
Proof.
  induction names as [|b names IH]; intros acc kw attrs kw' Hnd; cbn.
  - intros _ a [].
  - inversion Hnd as [|? ? Hnotin Hnd']. subst.
    destruct (assoc b kw) as [[v|c|l]|] eqn:Eb; try discriminate.
    intros H a [<-|Ha].
    + exists v. split; [exact Eb|].
      rewrite (init_attributes_other _ _ _ _ _ _ H Hnotin).
      rewrite assoc_assoc_set, String.eqb_refl. reflexivity.
    + destruct (IH _ _ _ _ Hnd' H a Ha) as (v' & Hk & Hv).
      exists v'. split; [|exact Hv].
      rewrite assoc_assoc_remove_other in Hk; [exact Hk|].
      intros ->. contradiction.
Qed.

Lemma valid_attributes_NoDup cls : NoDup (valid_attributes cls).
Proof.
  destruct cls; cbn;
    repeat (constructor; [cbn; intuition discriminate|]); constructor.
Qed.

Lemma registry_names_not_child_types cls a :
  In a (valid_attributes cls) ->
  ~ In a (map object_type_name (declared_child_types cls)).
Proof. destruct cls; cbn; intuition (subst; discriminate). Qed.

Lemma add_child_frame d c d' : add_child d c = Ok d' -> same_but_children d d'.
Proof.
  unfold add_child. destruct (negb _); [discriminate|].
  intros [= <-]. repeat split.
Qed.

Lemma same_but_children_trans d1 d2 d3 :
  same_but_children d1 d2 -> same_but_children d2 d3 -> same_but_children d1 d3.
Proof. unfold same_but_children. intuition congruence. Qed.

Lemma add_children_frame l : forall d d',
  add_children d l = Ok d' -> same_but_children d d'.
Proof.
  induction l as [|c l IH]; intros d d'; cbn.
  - intros [= <-]. repeat split.
  - destruct (add_child d c) as [d1|e] eqn:E; [|discriminate].
    intros H. eapply same_but_children_trans;
      [eapply add_child_frame; exact E | apply IH; exact H].
Qed.

Lemma init_children_frame cts : forall d kw d' kw',
  init_children d cts kw = Ok (d', kw') -> same_but_children d d'.
Proof.
  induction cts as [|ct cts IH]; intros d kw d' kw'; cbn.
  - intros [= <- _]. repeat split.
  - destruct (assoc (object_type_name ct) kw) as [[v|c|l]|].
    + destruct v as [| | | |items|items|]; try discriminate; try apply IH.
      destruct items; [apply IH | discriminate].
    + destruct (add_child d c) as [d1|e] eqn:E; [|discriminate].
      intros H. eapply same_but_children_trans;
        [eapply add_child_frame; exact E | eapply IH; exact H].
    + destruct (add_children d l) as [d1|e] eqn:E; [|discriminate].
      intros H. eapply same_but_children_trans;
        [eapply add_children_frame; exact E | eapply IH; exact H].
    + apply IH.
Qed.

(** X3.  The attribute loop of [__init__] stores exactly the attributes
    the registry lists for the class, each with the value passed under
    that keyword: reading a registry attribute of the node returns that
    value, and the loop stores nothing under any other name.  The class,
    the old name and the ignore argument are stored as given. *)
Theorem constructed_attributes :
  forall cls name old_name ignore kwargs d,
    DeclaredEntity_init cls name old_name ignore kwargs = Ok d ->
    (forall a, In a (valid_attributes cls) ->
               exists v, assoc a kwargs = Some (KwValue v)
                         /\ declared_getattr d a = Ok v)
    /\ (forall a, ~ In a (valid_attributes cls) ->
                  assoc a (d_attrs d) = None)
    /\ d_type d = cls /\ d_old_name d = old_name /\ d_ignore d = ignore.
Proof.
  intros cls name old_name ignore kwargs d. unfold DeclaredEntity_init.
  destruct name as [name|]; [|discriminate].
  destruct (init_children _ _ _) as [[self kw]|e] eqn:Ec; [|discriminate].
  destruct (init_attributes _ _ _) as [[attrs kw']|e] eqn:Ea; [|discriminate].
  destruct kw'; [|discriminate]. intros [= <-].
  unfold declared_getattr. cbn [d_attrs d_type d_old_name d_ignore].
  split; [|split].
  - intros a Ha.
    destruct (init_attributes_stored _ _ _ _ _ (valid_attributes_NoDup cls)
                Ea a Ha) as (v & Hk & Hv).
    exists v. rewrite Hv. split; [|reflexivity].
    rewrite <- (init_children_kwargs _ _ _ _ _ Ec a
                  (registry_names_not_child_types cls a Ha)).
    exact Hk.
  - intros a Ha. exact (init_attributes_other _ _ _ _ _ _ Ea Ha).
  - apply init_children_frame in Ec.
    destruct Ec as (Ht & _ & Ho & Hi & _). cbn in Ht, Ho, Hi. auto.
Qed.

Lemma constructed_attributes_witness :
  DeclaredEntity_init Columns (Some "c") None IgnoreNone
    [("data_type", KwValue (VStr "datetime")); ("identity", KwValue (VBool false));
     ("nullable", KwValue (VBool false)); ("char_max_len", KwValue VNone);
     ("datetime_precision", KwValue (VInt 7));
     ("numeric_precision", KwValue VNone); ("numeric_scale", KwValue VNone)]
  = Ok declared_column
  /\ declared_getattr declared_column "datetime_precision" = Ok (VInt 7)
  /\ assoc "collation" (d_attrs declared_column) = None.
Proof.
  split; [reflexivity|].
  pose proof (constructed_attributes Columns (Some "c") None IgnoreNone
    [("data_type", KwValue (VStr "datetime")); ("identity", KwValue (VBool false));
     ("nullable", KwValue (VBool false)); ("char_max_len", KwValue VNone);
     ("datetime_precision", KwValue (VInt 7));
     ("numeric_precision", KwValue VNone); ("numeric_scale", KwValue VNone)]
    declared_column eq_refl) as (H1 & H2 & _).
  split.
  - destruct (H1 "datetime_precision") as (v & Hk & Hv).
    + cbn. tauto.
    + cbn in Hk. injection Hk as <-. exact Hv.
  - apply H2. cbn. intuition discriminate.
Defined.

Lemma children_set_in t l : forall c t' l',
  In (t', l') (children_set t l c) -> (t', l') = (t, l) \/ In (t', l') c.
Proof.
  induction c as [|[t0 l0] c IH]; intros t' l'; cbn.
  - intros [H|[]]. left. symmetry. exact H.
  - destruct (ObjType_eqb t t0).
    + intros [H|H]; [left; symmetry; exact H | right; right; exact H].
    + intros [H|H]; [right; left; exact H|].
      destruct (IH _ _ H) as [H'|H']; [left; exact H' | right; right; exact H'].
Qed.

Lemma children_get_in t : forall c l,
  children_get t c = Some l -> In (t, l) c.
Proof.
  induction c as [|[t0 l0] c IH]; intros l; cbn; [discriminate|].
  destruct (ObjType_eqb t t0) eqn:E.
  - intros [= ->]. apply ObjType_eqb_eq in E. subst t0. now left.
  - intros H. right. apply IH. exact H.
Qed.

Lemma add_child_filed d c d' :
  filed_by_type (d_type d) (d_children d) ->
  add_child d c = Ok d' ->
  filed_by_type (d_type d') (d_children d').
Proof.
  intros Hf. unfold add_child.
  destruct (existsb (ObjType_eqb (d_type c)) (declared_child_types (d_type d)))
    eqn:E; [|discriminate].
  cbn [negb]. intros [= <-].
  cbn [d_type d_children set_d_children]. intros t l Hin.
  apply children_set_in in Hin. destruct Hin as [[= -> ->]|Hin];
    [|apply Hf; exact Hin].
  split; [apply existsb_ObjType_In; exact E|].
  split; [destruct (children_get _ _) as [[|]|]; discriminate|].
  apply Forall_app. split; [|repeat constructor].
  destruct (children_get (d_type c) (d_children d)) as [l0|] eqn:Eg;
    [|constructor].
  apply children_get_in in Eg. apply (Hf _ _ Eg).
Qed.

Lemma add_children_filed l : forall d d',
  filed_by_type (d_type d) (d_children d) ->
  add_children d l = Ok d' ->
  filed_by_type (d_type d') (d_children d').
Proof.
  induction l as [|c l IH]; intros d d' Hf; cbn.
  - intros [= <-]. exact Hf.
  - destruct (add_child d c) as [d1|e] eqn:E; [|discriminate].
    apply IH. eapply add_child_filed; eassumption.
Qed.

Lemma init_children_filed cts : forall d kw d' kw',
  filed_by_type (d_type d) (d_children d) ->
  init_children d cts kw = Ok (d', kw') ->
  filed_by_type (d_type d') (d_children d').
Proof.
  induction cts as [|ct cts IH]; intros d kw d' kw' Hf; cbn.
  - intros [= <- _]. exact Hf.
  - destruct (assoc (object_type_name ct) kw) as [[v|c|l]|].
    + destruct v as [| | | |items|items|]; try discriminate;
        try (apply IH; exact Hf).
      destruct items; [apply IH; exact Hf | discriminate].
    + destruct (add_child d c) as [d1|e] eqn:E; [|discriminate].
      apply IH. eapply add_child_filed; eassumption.
    + destruct (add_children d l) as [d1|e] eqn:E; [|discriminate].
      apply IH. eapply add_children_filed; eassumption.
    + apply IH. exact Hf.
Qed.

(** X4.  In a node built by [__init__] every child is stored under its own
    object type, whatever keyword it was passed under, and that type is a
    child type of the class.  [get_children] therefore returns either
    [None] or a non-empty list of nodes of the asked type, never an empty
    list. *)
Theorem constructed_children :
  forall cls name old_name ignore kwargs d t l,
    DeclaredEntity_init cls name old_name ignore kwargs = Ok d ->
    declared_get_children d t = Some l ->
    In t (declared_child_types cls) /\ l <> []
    /\ Forall (fun c => d_type c = t) l.
Proof.
  intros cls name old_name ignore kwargs d t l. unfold DeclaredEntity_init.
  destruct name as [name|]; [|discriminate].
  destruct (init_children _ _ _) as [[self kw]|e] eqn:Ec; [|discriminate].
  destruct (init_attributes _ _ _) as [[attrs kw']|e]; [|discriminate].
  destruct kw'; [|discriminate]. intros [= <-].
  unfold declared_get_children. cbn [d_children]. intros Hg.
  apply children_get_in in Hg.
  pose proof (init_children_frame _ _ _ _ _ Ec) as (Ht & _).
  cbn in Ht. rewrite <- Ht.
  refine (init_children_filed _ _ _ _ _ _ Ec t l Hg).
  intros t' l' [].
Qed.

Lemma constructed_children_witness :
  DeclaredEntity_init Tables (Some "t") None IgnoreNone
    [("primary_keys", KwValue VNone); ("partitions", KwNodes [declared_column])]
  = Ok declared_table_with_column
  /\ declared_get_children declared_table_with_column Columns
     = Some [declared_column]
  /\ In Columns (declared_child_types Tables).
Proof.
  split; [reflexivity|]. split; [reflexivity|].
  exact (proj1 (constructed_children Tables (Some "t") None IgnoreNone
    [("primary_keys", KwValue VNone); ("partitions", KwNodes [declared_column])]
    declared_table_with_column Columns [declared_column] eq_refl eq_refl)).
Defined.

(* ===================================================================== *)
(** ** Live nodes: the attribute cache and missing details                *)
(* ===================================================================== *)

(** X5.  An attribute that was read once is served from the node's cache:
    reading it again returns the same value and leaves the node and the
    world as they are, so no statement is sent a second time. *)
Theorem attribute_read_is_cached :
  forall r a w v r1 w1,
    getattr_reflected r a w = (Ok (v, r1), w1) ->
    r_id r1 = r_id r
    /\ forall w', getattr_reflected r1 a w' = (Ok (v, r1), w').
Proof.
  intros r a w v r1 w1. unfold getattr_reflected at 1. unfold getattr_with.
  destruct (str_in a (valid_attributes (r_type r))) eqn:Hv; [|discriminate].
  cbn [negb]. intros H. apply bind_inv in H.
  destruct H as (det & w0 & _ & H). cbn [r_attributes] in H.
  destruct (assoc a (r_attributes r)) as [v0|] eqn:Ha.
  - injection H as <- <- <-. split; [reflexivity|].
    intros w'. eapply getattr_cached; [reflexivity | exact Ha | exact Hv].
  - apply bind_inv in H. destruct H as (v1 & w2 & _ & H).
    injection H as <- <- <-. split; [reflexivity|].
    intros w'. eapply getattr_cached; [reflexivity | | exact Hv].
    cbn [r_attributes]. rewrite assoc_assoc_set, String.eqb_refl. reflexivity.
Qed.

Lemma attribute_read_is_cached_witness :
  exists v r1 w1,
    getattr_reflected example_column "data_type" (example_world [])
    = (Ok (v, r1), w1)
    /\ v = VStr "datetime2"
    /\ getattr_reflected r1 "data_type" w1 = (Ok (v, r1), w1).
Proof.
  assert (H : exists v r1 w1,
             getattr_reflected example_column "data_type" (example_world [])
             = (Ok (v, r1), w1) /\ v = VStr "datetime2").
  { eexists. eexists. eexists. split; [vm_compute; reflexivity | reflexivity]. }
  destruct H as (v & r1 & w1 & H & Hv).
  exists v, r1, w1. split; [exact H|]. split; [exact Hv|].
  exact (proj2 (attribute_read_is_cached _ _ _ _ _ _ H) w1).
Defined.

Lemma bind_fst_Raise {A B} (m : M A) (f : A -> M B) w e :
  fst (m w) = Raise e -> fst (bind m f w) = Raise e.
Proof.
  unfold bind. destruct (m w) as [[a|e'] w1]; cbn; [discriminate|].
  intros [= ->]. reflexivity.
Qed.

Lemma get_details_ex_missing r p gp w :
  r_type r = Indexes \/ r_type r = PrimaryKeys ->
  h_parent (r_id r) = Some p -> h_parent p = Some gp ->
  (forall hist q, sql_template q = "named_index_details" ->
                  cursor w hist q = Some []) ->
  exists q, get_details_ex r w = (Ok None, add_event (EvExecute q) w).
Proof.
  intros Ht Hp Hgp Hc. unfold get_details_ex.
  unfold self_table_args, table_args, parent_of, ex, cur_execute, bind, ret.
  destruct Ht as [-> | ->]; rewrite Hp, Hgp; cbn;
    rewrite Hc by reflexivity; eexists; reflexivity.
Qed.

Lemma get_details_fuel_missing r p gp :
  r_type r = Indexes \/ r_type r = PrimaryKeys ->
  h_parent (r_id r) = Some p -> h_parent p = Some gp ->
  r_detail_result r = None ->
  forall fuel w,
    (forall hist q, sql_template q = "named_index_details" ->
                    cursor w hist q = Some []) ->
    fst (get_details_fuel fuel r w) = Raise RecursionLimit.
Proof.
  intros Ht Hp Hgp Hd. induction fuel as [|fuel IH]; intros w Hc;
    destruct (get_details_ex_missing r p gp w Ht Hp Hgp Hc) as (q & E);
    cbn [get_details_fuel]; rewrite (bind_Ok _ _ _ _ _ E).
  - destruct Ht as [-> | ->]; reflexivity.
  - assert (Hrec : fst (getattr_with (get_details_fuel fuel) r "columns"
                                     (add_event (EvExecute q) w))
                   = Raise RecursionLimit).
    { unfold getattr_with. rewrite Hd.
      replace (negb (str_in "columns" (valid_attributes (r_type r))))
        with false by (destruct Ht as [-> | ->]; reflexivity).
      apply bind_fst_Raise. apply IH. exact Hc. }
    destruct Ht as [Ht | Ht]; rewrite Ht; apply bind_fst_Raise;
      unfold str_with; rewrite Ht; apply bind_fst_Raise; exact Hrec.
Qed.

(** X6.  For an index or a primary key whose details query finds no row,
    [get_details] does not raise its [DBError]: building the message
    formats the node, which reads [columns], which asks for the details
    again, and so on until the interpreter gives up.  The call, and with it
    any first read of an attribute of such a node, ends in the recursion
    error. *)
Theorem missing_index_details_recurse :
  forall r p gp w,
    r_type r = Indexes \/ r_type r = PrimaryKeys ->
    h_parent (r_id r) = Some p -> h_parent p = Some gp ->
    r_detail_result r = None ->
    (forall hist q, sql_template q = "named_index_details" ->
                    cursor w hist q = Some []) ->
    fst (get_details r w) = Raise RecursionLimit
    /\ (forall a, In a (valid_attributes (r_type r)) ->
                  fst (getattr_reflected r a w) = Raise RecursionLimit).
Proof.
  intros r p gp w Ht Hp Hgp Hd Hc.
  assert (Hg : fst (get_details r w) = Raise RecursionLimit)
    by (unfold get_details; eapply get_details_fuel_missing; eassumption).
  split; [exact Hg|].
  intros a Ha. unfold getattr_reflected, getattr_with. rewrite Hd.
  replace (str_in a (valid_attributes (r_type r))) with true.
  - cbn [negb]. apply bind_fst_Raise. exact Hg.
  - symmetry. unfold str_in. apply existsb_exists. exists a.
    split; [exact Ha | apply String.eqb_refl].
Qed.

Lemma missing_index_details_recurse_witness :
  fst (get_details (of_handle example_index_id) (empty_world []))
  = Raise RecursionLimit.
Proof.
  refine (proj1 (missing_index_details_recurse
                   (of_handle example_index_id) example_table_id example_schema
                   (empty_world []) _ _ _ _ _)).
  - left. reflexivity.
  - reflexivity.
  - reflexivity.
  - reflexivity.
  - intros hist q _. reflexivity.
Defined.

(* ===================================================================== *)
(** ** Deleting live nodes                                                *)
(* ===================================================================== *)

(** X7.  [delete()] never returns a true value: what it returns is
    [False] or nothing ([None]).  A caller that tests the result therefore
    sees a failure also after a successful deletion. *)
Theorem delete_never_returns_true :
  forall r w v r1 w1,
    delete r w = (Ok (v, r1), w1) ->
    (v = VNone \/ v = VBool false) /\ truthy v = false.
Proof.
  intros r w v r1 w1. unfold delete, delete_with. destruct (can_delete r).
  - intros H. apply bind_inv in H. destruct H as (answer & w2 & _ & H).
    destruct (String.eqb answer "y").
    + apply bind_inv in H. destruct H as (? & ? & _ & H).
      apply bind_inv in H. destruct H as (? & ? & _ & H).
      apply bind_inv in H. destruct H as (? & ? & _ & H).
      injection H as <- _ _. split; [left|]; reflexivity.
    + injection H as <- _ _. split; [right|]; reflexivity.
  - intros H. apply bind_inv in H. destruct H as (? & ? & _ & H).
    apply bind_inv in H. destruct H as (? & ? & _ & H).
    injection H as <- _ _. split; [right|]; reflexivity.
Qed.

Lemma delete_never_returns_true_witness :
  exists r1 w1,
    delete (of_handle example_index_id) (example_world ["y"])
    = (Ok (VNone, r1), w1)
    /\ executed "DROP_INDEX" (trace w1) = true
    /\ truthy VNone = false.
Proof.
  assert (H : exists r1 w1,
             delete (of_handle example_index_id) (example_world ["y"])
             = (Ok (VNone, r1), w1)
             /\ executed "DROP_INDEX" (trace w1) = true).
  { eexists. eexists. vm_compute. split; reflexivity. }
  destruct H as (r1 & w1 & H & Hx). exists r1, w1.
  split; [exact H|]. split; [exact Hx|].
  exact (proj2 (delete_never_returns_true _ _ _ _ _ H)).
Defined.

(** X8.  A column that a live index references is never dropped by its
    [_delete_ex]: the first such index is handed to [delete()], and
    whatever happens to it the column is recorded as not deleted, no DROP
    COLUMN is run and the other indexes are not visited. *)
Theorem column_delete_with_index :
  forall r w parent w0 index indexes w1,
    r_type r = Columns ->
    parent_of (r_id r) w = (Ok parent, w0) ->
    get_indexes_for_column parent (r_name r) w0 = (Ok (index :: indexes), w1) ->
    delete_ex r w
    = (delete_with delete_ex_base index ;;
       log (MsgColumnNotDeleted (r_name r)) ;;
       ret r) w1.
Proof.
  intros r w parent w0 index indexes w1 Ht Hp Hi.
  unfold delete_ex. rewrite Ht. unfold drop_associated_indexes.
  unfold bind at 1. unfold bind at 1. rewrite Hp.
  unfold bind at 1. rewrite Hi. cbn [delete_each_index].
  unfold bind.
  destruct (delete_with delete_ex_base index w1) as [[[v r1]|e] w2] eqn:E;
    [|reflexivity].
  rewrite (delete_with_not_truthy _ _ _ _ _ _ E). reflexivity.
Qed.

Lemma column_delete_with_index_witness :
  exists index w1 r1 w2,
    get_indexes_for_column example_table_id "c" (example_world ["y"])
    = (Ok [index], w1)
    /\ delete_ex example_column (example_world ["y"])
       = (delete_with delete_ex_base index ;;
          log (MsgColumnNotDeleted "c") ;;
          ret example_column) w1
    /\ delete example_column (example_world ["y"; "y"]) = (Ok (VNone, r1), w2)
    /\ executed "DROP_INDEX" (trace w2) = true
    /\ executed "DROP_COLUMN" (trace w2) = false.
Proof.
  assert (Hi : exists index w1,
             get_indexes_for_column example_table_id "c"
                                    (example_world ["y"])
             = (Ok [index], w1)).
  { eexists. eexists. vm_compute. reflexivity. }
  destruct Hi as (index & w1 & Hi).
  assert (Hd : exists r1 w2,
             delete example_column (example_world ["y"; "y"])
             = (Ok (VNone, r1), w2)
             /\ executed "DROP_INDEX" (trace w2) = true
             /\ executed "DROP_COLUMN" (trace w2) = false).
  { eexists. eexists. vm_compute. repeat split; reflexivity. }
  destruct Hd as (r1 & w2 & Hd & Hx1 & Hx2).
  exists index, w1, r1, w2.
  split; [exact Hi|]. split; [|auto].
  apply (column_delete_with_index example_column (example_world ["y"])
           example_table_id (example_world ["y"]) index [] w1);
    [reflexivity | reflexivity | exact Hi].
Defined.

(** X9.  A schema can be neither deleted nor renamed.  When the question
    is answered [y], [delete()] and [rename()] write their record and then
    raise [DBError] from [_delete_ex] and [_rename_ex]: nothing is sent to
    the server and nothing is committed. *)
Theorem schema_delete_and_rename_raise :
  forall r new_name w rest,
    r_type r = Schemas ->
    stdin w = "y" :: rest ->
    delete r w
    = (Raise DBError,
       add_event (EvLog (MsgDeleting (r_id r)))
                 (after_input (PromptDelete (r_id r)) rest w))
    /\ rename r new_name w
       = (Raise DBError,
          add_event (EvLog (MsgRenaming (r_id r) new_name))
                    (after_input (PromptRename (r_id r) new_name) rest w)).
Proof.
  intros r new_name w rest Ht Hin. split.
  - unfold delete, delete_with, can_delete. rewrite Ht.
    rewrite (bind_Ok _ _ _ _ _ (input_answer _ _ _ _ Hin)).
    cbn [String.eqb Ascii.eqb Bool.eqb].
    unfold bind at 1. unfold log, emit.
    unfold delete_ex, delete_ex_base. rewrite Ht. reflexivity.
  - unfold rename.
    rewrite (bind_Ok _ _ _ _ _ (input_answer _ _ _ _ Hin)).
    cbn [String.eqb Ascii.eqb Bool.eqb].
    unfold bind at 1. unfold log, emit.
    unfold rename_ex. rewrite Ht. reflexivity.
Qed.

Lemma schema_delete_and_rename_raise_witness :
  fst (delete (of_handle example_schema) (example_world ["y"])) = Raise DBError
  /\ trace (snd (delete (of_handle example_schema) (example_world ["y"])))
     = [EvInput (PromptDelete example_schema); EvLog (MsgDeleting example_schema)].
Proof.
  destruct (schema_delete_and_rename_raise
              (of_handle example_schema) "other" (example_world ["y"]) []
              eq_refl eq_refl) as [H _].
  rewrite H. split; reflexivity.
Defined.

(* ===================================================================== *)
(** ** The loop over the live children                                    *)
(* ===================================================================== *)

Lemma bind_log {B} m (f : unit -> M B) w :
  bind (log m) f w = f tt (add_event (EvLog m) w).
Proof. reflexivity. Qed.

Lemma str_reflected_plain r w :
  r_type r <> PrimaryKeys -> r_type r <> Indexes ->
  str_reflected r w = (Ok r, w).
Proof.
  intros H1 H2. unfold str_reflected, str_with.
  destruct (r_type r); try reflexivity; contradiction.
Qed.

Lemma equated_by_name_plain t :
  equated_by_name t = true -> t <> PrimaryKeys /\ t <> Indexes.
Proof. destruct t; cbn; intros; split; congruence. Qed.

Lemma reflected_eq_by_name c d w :
  equated_by_name (r_type c) = true ->
  reflected_eq c d w
  = (Ok (ObjType_eqb (r_type c) (d_type d) && equate_by_name c d, c), w).
Proof.
  intros H. unfold reflected_eq.
  destruct (ObjType_eqb (r_type c) (d_type d)); [|reflexivity].
  unfold equate_declared. destruct (r_type c); try discriminate; reflexivity.
Qed.

Lemma matches_any_by_name c l w :
  equated_by_name (r_type c) = true ->
  matches_any c l w = (Ok (name_matches c l, c), w).
Proof.
  intros H. induction l as [|d l IH]; cbn; [reflexivity|].
  rewrite (bind_Ok _ _ _ _ _ (reflected_eq_by_name c d w H)).
  destruct (ObjType_eqb (r_type c) (d_type d) && equate_by_name c d);
    [reflexivity | exact IH].
Qed.

Lemma delete_undeclared_matched rp l c w :
  equated_by_name (r_type c) = true ->
  name_matches c l = true ->
  delete_undeclared rp l c w
  = (Ok tt,
     add_event (EvLog (MsgChildMatches rp (r_id c)))
               (add_event (EvLog (MsgFoundChild rp (r_id c))) w)).
Proof.
  intros Hn Hm. unfold delete_undeclared.
  destruct (equated_by_name_plain _ Hn) as [H1 H2].
  rewrite (bind_Ok _ _ _ _ _ (str_reflected_plain c w H1 H2)).
  unfold bind at 1. unfold log, emit.
  rewrite (bind_Ok _ _ _ _ _ (matches_any_by_name c l _ Hn)).
  rewrite Hm.
  rewrite (bind_Ok _ _ _ _ _ (str_reflected_plain c _ H1 H2)).
  reflexivity.
Qed.

(** X10.  For the classes compared by name (every class but primary keys,
    indexes, partitions and users) the loop over the live children keeps a
    child whose lower-cased name is the lower-cased name, or non-empty old
    name, of some declared child of its type: it writes that the child was
    found and that it matches, asks nothing and sends nothing. *)
Theorem name_matched_child_is_kept :
  forall rp l c w,
    equated_by_name (r_type c) = true ->
    name_matches c l = true ->
    delete_undeclared rp l c w
    = (Ok tt,
       add_event (EvLog (MsgChildMatches rp (r_id c)))
                 (add_event (EvLog (MsgFoundChild rp (r_id c))) w)).
Proof.
  intros rp l c w Hn Hm. apply delete_undeclared_matched; assumption.
Qed.

Lemma name_matched_child_is_kept_witness :
  delete_undeclared example_schema [declared_table_with_column]
                    (of_handle (mkHandle Tables "T" (Some example_schema)))
                    (example_world [])
  = (Ok tt,
     add_event (EvLog (MsgChildMatches example_schema
                         (mkHandle Tables "T" (Some example_schema))))
               (add_event (EvLog (MsgFoundChild example_schema
                                    (mkHandle Tables "T" (Some example_schema))))
                          (example_world []))).
Proof.
  apply name_matched_child_is_kept; reflexivity.
Defined.

(** X11.  The loop over the live children never deletes a database and
    never asks to: for a live database the pass only writes records,
    whether or not the database is declared, and ends normally. *)
Theorem database_is_never_deleted :
  forall rp l c w,
    r_type c = Databases ->
    exists T,
      delete_undeclared rp l c w
      = (Ok tt, mkWorld (cursor w) (stdin w) (today w) (recursion_limit w)
                        (trace w ++ T))
      /\ Forall is_record T.
Proof.
  intros rp l c w Ht.
  assert (Hn : equated_by_name (r_type c) = true) by (rewrite Ht; reflexivity).
  destruct (equated_by_name_plain _ Hn) as [H1 H2].
  destruct (name_matches c l) eqn:Hm.
  - rewrite (delete_undeclared_matched rp l c w Hn Hm).
    exists [EvLog (MsgFoundChild rp (r_id c)); EvLog (MsgChildMatches rp (r_id c))].
    split.
    + unfold add_event. cbn. rewrite <- app_assoc. reflexivity.
    + repeat constructor; eexists; reflexivity.
  - exists [EvLog (MsgFoundChild rp (r_id c));
            EvLog (MsgChildNotDeclared rp (r_id c));
            EvLog (MsgDeleteNotAllowed (r_id c))].
    split; [|repeat constructor; eexists; reflexivity].
    unfold delete_undeclared.
    rewrite (bind_Ok _ _ _ _ _ (str_reflected_plain c w H1 H2)).
    cbv beta. rewrite bind_log.
    rewrite (bind_Ok _ _ _ _ _ (matches_any_by_name c l _ Hn)).
    rewrite Hm.
    rewrite (bind_Ok _ _ _ _ _ (str_reflected_plain c _ H1 H2)).
    cbv beta. rewrite bind_log.
    unfold delete, delete_with, can_delete. rewrite Ht.
    rewrite (bind_Ok _ _ _ _ _
               (bind_Ok _ _ _ _ _ (str_reflected_plain c _ H1 H2))).
    unfold bind, ret, add_event. cbn. rewrite <- !app_assoc. reflexivity.
Qed.

Lemma database_is_never_deleted_witness :
  exists T,
    delete_undeclared example_server [] (of_handle example_database)
                      (example_world [])
    = (Ok tt, mkWorld example_cursor [] 738000 1000 ([] ++ T))
    /\ Forall is_record T.
Proof.
  exact (database_is_never_deleted example_server []
           (of_handle example_database) (example_world []) eq_refl).
Defined.

(* ===================================================================== *)
(** ** What never asks the user                                           *)
(* ===================================================================== *)

Lemma covers_no_prompt : covers 0 (fun e => ~ is_prompt e).
Proof.
  intros e He [p ->]. destruct p; cbn in He; lia.
Qed.

Lemma record_no_prompt m : ~ is_prompt (EvLog m).
Proof. intros [p H]. discriminate H. Qed.

Lemma step_no_prompt s : ~ is_prompt (EvStep s).
Proof. intros [p H]. discriminate H. Qed.

Section NoPrompt.

Variable P : Event -> Prop.
Hypothesis reads : covers 0 P.
Hypothesis records : forall m, P (EvLog m).
Hypothesis steps : forall s, P (EvStep s).

Lemma quiet_recreate_new_filegroup r create_on :
  spec P any (recreate_new_filegroup r create_on).
Proof. unfold recreate_new_filegroup. spec_go. Qed.

Lemma quiet_recreate_indexes_on_filegroup self filegroup :
  spec P any (recreate_indexes_on_filegroup self filegroup).
Proof.
  unfold recreate_indexes_on_filegroup. apply spec_table_method.
  eapply (spec_bind _ any); [spec_go|]. intros clustered _.
  eapply (spec_bind _ any).
  { destruct clustered as [index|];
      [apply quiet_recreate_new_filegroup | apply spec_raise]. }
  intros _ _. eapply (spec_bind _ any); [spec_go|]. intros others _.
  eapply (spec_bind _ any);
    [apply spec_for_each; intros; apply quiet_recreate_new_filegroup|].
  intros _ _. spec_go.
Qed.

Lemma quiet_partition_create_ex parent d :
  spec P any (partition_create_ex parent d).
Proof.
  unfold partition_create_ex.
  repeat first
    [ apply quiet_recreate_indexes_on_filegroup
    | apply steps
    | spec_step
    | progress node_facts ].
Qed.

Lemma quiet_create_ex cls parent d : spec P any (create_ex cls parent d).
Proof.
  unfold create_ex. destruct cls;
    try apply quiet_partition_create_ex; spec_go.
  all: try (apply spec_map_m_any; intros; spec_go).
Qed.

Lemma quiet_create cls parent d : spec P any (create cls parent d).
Proof.
  unfold create.
  eapply (spec_bind _ any); [spec_go|]. intros _ _.
  eapply (spec_bind _ any); [apply spec_log; apply records|]. intros _ _.
  eapply (spec_bind _ any); [apply quiet_create_ex|]. intros d1 _.
  spec_go.
Qed.

Lemma quiet_get_or_create cls parent d :
  spec P any (get_or_create cls parent d).
Proof.
  unfold get_or_create. apply spec_try.
  - eapply (spec_bind _ any);
      [eapply spec_any; apply spec_from_declared; exact reads|].
    intros r _. apply spec_ret. exact I.
  - destruct (can_create cls).
    + eapply (spec_bind _ any); [apply quiet_create|]. intros d1 _.
      eapply (spec_bind _ any);
        [eapply spec_any; apply spec_from_declared; exact reads|].
      intros r _. apply spec_ret. exact I.
    + eapply (spec_bind _ any); [spec_go|]. intros _ _.
      eapply (spec_bind _ any); [apply spec_log; apply records|].
      intros _ _. apply spec_ret. exact I.
Qed.

End NoPrompt.

(** X12.  Creation is never confirmed: [get_or_create], and with it
    [create] and every [_create_ex], never calls [input()].  An object
    that is declared and missing on the server is created without a
    question. *)
Theorem creation_never_asks :
  forall cls parent d w,
    Forall (fun e => ~ is_prompt e) (delta (get_or_create cls parent d) w)
    /\ Forall (fun e => ~ is_prompt e) (delta (create cls parent d) w)
    /\ Forall (fun e => ~ is_prompt e)
              (delta (get_or_create_child parent d) w).
Proof.
  intros cls parent d w. split; [|split].
  - refine (proj2 (spec_delta _ any _ w _)).
    apply quiet_get_or_create; [apply covers_no_prompt | apply record_no_prompt
      | apply step_no_prompt].
  - refine (proj2 (spec_delta _ any _ w _)).
    apply quiet_create; [apply covers_no_prompt | apply record_no_prompt
      | apply step_no_prompt].
  - refine (proj2 (spec_delta _ any _ w _)).
    unfold get_or_create_child.
    eapply (spec_bind _ any);
      [eapply spec_any; apply spec_get_child_class_from_name|].
    intros c _.
    apply quiet_get_or_create; [apply covers_no_prompt | apply record_no_prompt
      | apply step_no_prompt].
Qed.

(** X13.  Looking at the live server never asks the user either: listing
    the children of a node, fetching a child by name, matching a declared
    node, comparing a live node with a declared one and reading an
    attribute call [input()] at no point. *)
Theorem lookups_never_ask :
  forall self cls ct name r d a w,
    Forall (fun e => ~ is_prompt e) (delta (get_children self ct) w)
    /\ Forall (fun e => ~ is_prompt e) (delta (get_child self ct name) w)
    /\ Forall (fun e => ~ is_prompt e) (delta (from_declared cls self d) w)
    /\ Forall (fun e => ~ is_prompt e) (delta (reflected_eq r d) w)
    /\ Forall (fun e => ~ is_prompt e) (delta (getattr_reflected r a) w).
Proof.
  intros self cls ct name r d a w.
  pose proof covers_no_prompt as Hc.
  repeat split.
  - exact (proj2 (spec_delta _ _ _ w (spec_get_children _ self ct Hc))).
  - exact (proj2 (spec_delta _ _ _ w (spec_get_child _ self ct name Hc))).
  - exact (proj2 (spec_delta _ _ _ w (spec_from_declared _ cls self d Hc))).
  - exact (proj2 (spec_delta _ _ _ w (spec_reflected_eq _ r d Hc))).
  - exact (proj2 (spec_delta _ _ _ w (spec_getattr_reflected _ r a Hc))).
Qed.

(* ===================================================================== *)
(** ** [align_entity]: the type assertion and the depth of the recursion  *)
(* ===================================================================== *)

Lemma spec_returns {A} P (Q : A -> Prop) (m : M A) : spec P Q m -> returns Q m.
Proof. intros H w a E. destruct (H w) as (T & _ & _ & HQ). apply HQ. exact E. Qed.

Lemma attributes_of_mismatch P d r :
  covers 2 P -> P (EvLog (MsgAligning d (r_id r))) ->
  d_type d <> r_type r ->
  spec P (fun _ => False) (align_entity_attributes d r).
Proof.
  intros Hc Hl Hne. unfold align_entity_attributes.
  eapply (spec_bind _ any); [spec_go|]. intros _ _.
  eapply spec_bind; [apply spec_reflected_display_details; auto with spec|].
  intros r1 H1.
  eapply (spec_bind _ any); [apply spec_log; exact Hl|]. intros _ _.
  replace (r_type r1) with (r_type r)
    by (unfold same_node in H1; unfold r_type; rewrite H1; reflexivity).
  rewrite (ObjType_eqb_neq _ _ Hne). apply spec_raise.
Qed.

(** X14.  [align_entity] on a declared and a live node of different
    object types never returns normally, and stops before anything is
    aligned: no attribute is compared or set and no child pass is
    started. *)
Theorem align_entity_type_mismatch :
  forall d r align_children w,
    d_type d <> r_type r ->
    (forall d', fst (align_entity d r align_children w) <> Ok d')
    /\ Forall (fun e => ~ is_attr_event (r_id r) e /\ ~ is_child_phase e)
              (delta (align_entity d r align_children) w).
Proof.
  intros d r ac w Hne.
  assert (S : spec (fun e => ~ is_attr_event (r_id r) e /\ ~ is_child_phase e)
                   (fun _ : Declared => False) (align_entity d r ac)).
  { unfold align_entity. cbn [align_entity_fuel].
    eapply (spec_bind _ (fun _ => False)); [|intros r2 F; destruct F].
    apply attributes_of_mismatch; [| |exact Hne].
    - intros e He. split; intros H.
      + apply attr_event_level in H. lia.
      + apply child_phase_level in H. lia.
    - split; intros H; exact H. }
  split.
  - intros d' E. exact (spec_returns _ _ _ S w d' E).
  - exact (proj2 (spec_delta _ _ _ w S)).
Qed.

Lemma align_entity_type_mismatch_witness :
  fst (align_entity declared_column example_table true (example_world []))
  = Raise AssertionError
  /\ (forall d', fst (align_entity declared_column example_table true
                                   (example_world [])) <> Ok d').
Proof.
  split; [vm_compute; reflexivity|].
  apply (align_entity_type_mismatch declared_column example_table true
                                    (example_world [])).
  discriminate.
Defined.

Lemma rank_at_most_4 t : rank t <= 4.
Proof. destruct t; cbn; lia. Qed.

(** X15.  The recursion of [align_entity] is bounded by the class
    hierarchy of the live nodes (server, database, schema, table, leaf): a
    call never nests more than five calls deep, whatever the declaration
    and the server.  Any budget of at least five nested calls gives the
    run of the unbounded function, which satisfies the equation of
    align.py: the attributes, then [align_child_type] for every child
    type of the declared class. *)
Theorem align_entity_recursion_is_bounded :
  forall d r align_children w,
    (forall n, 5 <= n ->
               align_entity_fuel n d r align_children w
               = align_entity d r align_children w)
    /\ align_entity d r align_children w
       = (r2 <- align_entity_attributes d r ;;
          if align_children then
            align_child_types align_child_type d r2
                              (declared_child_types (d_type d))
          else ret d) w.
Proof.
  intros d r ac w. split.
  - intros n Hn. unfold align_entity.
    pose proof (rank_at_most_4 (r_type r)).
    apply align_entity_fuel_irrelevant; lia.
  - apply align_entity_unfold.
Qed.

(* ===================================================================== *)
(** ** Listing and fetching live nodes                                    *)
(* ===================================================================== *)

Lemma str_in_In s l : str_in s l = true <-> In s l.
Proof.
  unfold str_in. rewrite existsb_exists. split.
  - intros (x & Hx & E). apply String.eqb_eq in E. subst x. exact Hx.
  - intros H. exists s. split; [exact H | apply String.eqb_refl].
Qed.

Lemma returns_new_reflected cls parent name :
  returns (fun r => name = VStr (r_name r)
                    /\ r = of_handle (mkHandle cls (r_name r) (Some parent)))
          (new_reflected cls parent name).
Proof.
  unfold new_reflected. destruct name; try apply returns_raise.
  apply returns_bind_any. intros _. apply returns_ret. split; reflexivity.
Qed.

Lemma Forall2_filter_names cls parent (names : list Value) l :
  Forall2 (fun name r => name = VStr (r_name r)
                         /\ r = of_handle (mkHandle cls (r_name r) (Some parent)))
          (filter (fun name => negb (is_system_name cls name)) names) l ->
  Forall (fun r => r = of_handle (mkHandle cls (r_name r) (Some parent))
                   /\ ~ In (r_name r) (system_names cls)
                   /\ In (VStr (r_name r)) names) l.
Proof.
  remember (filter _ names) as kept eqn:E. intros H. revert E.
  assert (G : forall kept l,
             Forall2 (fun name r =>
                        name = VStr (r_name r)
                        /\ r = of_handle (mkHandle cls (r_name r) (Some parent)))
                     kept l ->
             (forall name, In name kept ->
                           In name names /\ is_system_name cls name = false) ->
             Forall (fun r => r = of_handle (mkHandle cls (r_name r) (Some parent))
                              /\ ~ In (r_name r) (system_names cls)
                              /\ In (VStr (r_name r)) names) l).
  { clear. induction 1 as [|name r kept l [Hn Hr] _ IH]; intros Hk;
      constructor.
    - destruct (Hk name (or_introl eq_refl)) as [Hin Hs]. subst name.
      split; [exact Hr|]. split; [|exact Hin].
      cbn in Hs. intros Hx. apply str_in_In in Hx. congruence.
    - apply IH. intros n Hn'. apply Hk. now right. }
  intros E. apply (G kept l H). intros name Hin. subst kept.
  apply filter_In in Hin. destruct Hin as [Hin Hs].
  split; [exact Hin|]. destruct (is_system_name cls name); [discriminate|reflexivity].
Qed.

(** X16.  [all_for_parent] returns one node for each name the server
    listed that is not one of the class's system names, in the order of the
    listing: the system schemas, users, databases and logins (such as
    [sys], [master] or [sa]) are invisible to the loop that deletes
    undeclared children.  Every node it returns is a fresh node of the
    class under the given parent. *)
Theorem all_for_parent_skips_system_names :
  forall cls parent w l w1,
    all_for_parent cls parent w = (Ok l, w1) ->
    (exists names w0,
        list_names_ex cls parent w = (Ok names, w0)
        /\ map (fun r => VStr (r_name r)) l
           = filter (fun name => negb (is_system_name cls name)) names)
    /\ Forall (fun r => r = of_handle (mkHandle cls (r_name r) (Some parent))
                        /\ ~ In (r_name r) (system_names cls)) l.
Proof.
  intros cls parent w l w1 H. unfold all_for_parent in H.
  apply bind_inv in H. destruct H as (names & w0 & Hn & H).
  pose proof (returns_map_m _ (new_reflected cls parent)
                (filter (fun name => negb (is_system_name cls name)) names)
                (returns_new_reflected cls parent) w0 l) as R.
  rewrite H in R. specialize (R eq_refl). split.
  - exists names, w0. split; [exact Hn|].
    clear -R. induction R as [|name r kept l [Hname _] _ IH]; [reflexivity|].
    cbn. rewrite IH, Hname. reflexivity.
  - apply Forall2_filter_names in R.
    eapply Forall_impl; [|exact R]. cbn. tauto.
Qed.

Lemma all_for_parent_skips_system_names_witness :
  exists w1,
    all_for_parent Schemas example_database schema_listing_world
    = (Ok [of_handle (mkHandle Schemas "dbo" (Some example_database))], w1)
    /\ Forall (fun r => r = of_handle (mkHandle Schemas (r_name r)
                                                (Some example_database))
                        /\ ~ In (r_name r) (system_names Schemas))
              [of_handle (mkHandle Schemas "dbo" (Some example_database))].
Proof.
  assert (H : exists w1,
             all_for_parent Schemas example_database schema_listing_world
             = (Ok [of_handle (mkHandle Schemas "dbo" (Some example_database))],
                w1))
    by (eexists; vm_compute; reflexivity).
  destruct H as (w1 & H). exists w1. split; [exact H|].
  exact (proj2 (all_for_parent_skips_system_names _ _ _ _ _ H)).
Defined.

(** X17.  Asking a live node for a child type its class does not have
    raises [InvalidDBEntityChildError] before anything is sent to the
    server, in [get_children], [get_child], [get_child_from_declared] and
    [get_or_create_child] alike. *)
Theorem unknown_child_type_is_refused :
  forall self ct name d w,
    ~ In ct (reflected_child_types (h_type self)) ->
    get_children self ct w = (Raise InvalidDBEntityChildError, w)
    /\ get_child self ct name w = (Raise InvalidDBEntityChildError, w)
    /\ (d_type d = ct ->
        get_child_from_declared self d w = (Raise InvalidDBEntityChildError, w)
        /\ get_or_create_child self d w = (Raise InvalidDBEntityChildError, w)).
Proof.
  intros self ct name d w Hn.
  assert (E : get_child_class_from_name self ct w
              = (Raise InvalidDBEntityChildError, w)).
  { unfold get_child_class_from_name.
    destruct (existsb (ObjType_eqb ct) (reflected_child_types (h_type self)))
      eqn:Ex; [|reflexivity].
    exfalso. apply Hn. apply existsb_ObjType_In. exact Ex. }
  split; [|split].
  - unfold get_children. apply bind_Raise. exact E.
  - unfold get_child. apply bind_Raise. exact E.
  - intros <-. split.
    + unfold get_child_from_declared. apply bind_Raise. exact E.
    + unfold get_or_create_child. apply bind_Raise. exact E.
Qed.

Lemma unknown_child_type_is_refused_witness :
  get_children example_table_id Tables (example_world [])
  = (Raise InvalidDBEntityChildError, example_world []).
Proof.
  refine (proj1 (unknown_child_type_is_refused example_table_id Tables ""
                   declared_column (example_world []) _)).
  cbn. intuition discriminate.
Defined.

(* ===================================================================== *)
(** ** The chain lookup on live nodes                                     *)
(* ===================================================================== *)

Lemma returns_by_name cls parent name :
  returns (fun r => r = of_handle (mkHandle cls name (Some parent)))
          (by_name cls parent name).
Proof.
  unfold by_name. destruct (String.eqb name ""); [apply returns_raise|].
  apply returns_bind_any. intros found. destruct found; [|apply returns_raise].
  eapply returns_post; [apply returns_new_reflected|].
  intros r [Hn Hr]. injection Hn as Hn. rewrite Hr, <- Hn. reflexivity.
Qed.

Lemma returns_get_child self ct name :
  returns (fun r => r = of_handle (mkHandle ct name (Some self))
                    /\ In ct (reflected_child_types (h_type self)))
          (get_child self ct name).
Proof.
  unfold get_child.
  eapply returns_bind;
    [apply (spec_returns (fun _ => True));
     apply spec_get_child_class_from_name|].
  intros c [-> Hin]. eapply returns_post; [apply returns_by_name|].
  intros r ->. split; [reflexivity | exact Hin].
Qed.

Lemma returns_find_child_by_name self name cts :
  returns (fun r => exists t, In t (reflected_child_types (r_type self))
                              /\ r = of_handle (mkHandle t name (Some (r_id self))))
          (find_child_by_name self cts name).
Proof.
  induction cts as [|ct cts IH]; cbn.
  - apply returns_bind_any. intros _. apply returns_raise.
  - apply returns_try; [|exact IH].
    eapply returns_post; [apply returns_get_child|].
    intros r [-> Hin]. exists ct. split; [exact Hin | reflexivity].
Qed.

Lemma returns_get_object_by_id names : forall self,
  returns (fun r => names <> [] /\ reached_by (r_id self) names (r_id r)
                    /\ r_attributes r = [] /\ r_detail_result r = None)
          (get_object_by_id self names).
Proof.
  induction names as [|n rest IH]; intros self; cbn [get_object_by_id].
  - apply returns_raise.
  - eapply returns_bind; [apply returns_find_child_by_name|].
    intros c (t & Hin & ->). destruct rest as [|n' rest'].
    + apply returns_ret. split; [discriminate|]. split; [|split; reflexivity].
      exists t. split; [exact Hin | reflexivity].
    + eapply returns_post; [apply IH|].
      intros r (_ & Hr & Ha & Hd). split; [discriminate|].
      split; [|split; assumption].
      exists t. split; [exact Hin | exact Hr].
Qed.

(** X18.  [get_object_by_id] on a live node returns the node reached by
    going down through children called as the chain says, each of a child
    class of the node above it, with nothing cached yet; an empty chain
    raises [IndexError]. *)
Theorem get_object_by_id_follows_the_chain :
  forall self names w,
    (forall r w1,
        get_object_by_id self names w = (Ok r, w1) ->
        names <> [] /\ reached_by (r_id self) names (r_id r)
        /\ r_attributes r = [] /\ r_detail_result r = None)
    /\ get_object_by_id self [] w = (Raise IndexError, w).
Proof.
  intros self names w. split; [|reflexivity].
  intros r w1 H. apply (returns_get_object_by_id names self w r).
  rewrite H. reflexivity.
Qed.

Lemma get_object_by_id_follows_the_chain_witness :
  exists r w1,
    get_object_by_id (of_handle example_schema) ["t"; "c"] schema_listing_world
    = (Ok r, w1)
    /\ r_id r = mkHandle Columns "c" (Some example_table_id)
    /\ reached_by example_schema ["t"; "c"] (r_id r).
Proof.
  assert (H : exists r w1,
             get_object_by_id (of_handle example_schema) ["t"; "c"]
                              schema_listing_world = (Ok r, w1)
             /\ r_id r = mkHandle Columns "c" (Some example_table_id))
    by (eexists; eexists; vm_compute; split; reflexivity).
  destruct H as (r & w1 & H & Hid). exists r, w1.
  split; [exact H|]. split; [exact Hid|].
  destruct (get_object_by_id_follows_the_chain
              (of_handle example_schema) ["t"; "c"] schema_listing_world)
    as [G _].
  exact (proj1 (proj2 (G r w1 H))).
Defined.

Lemma bind_congr {A B} (m : M A) (f g : A -> M B) w :
  (forall a w', f a w' = g a w') -> bind m f w = bind m g w.
Proof.
  intros H. unfold bind. destruct (m w) as [[a|e] w1]; [apply H | reflexivity].
Qed.

Lemma bind_assoc {A B C} (m : M A) (f : A -> M B) (g : B -> M C) w :
  bind (bind m f) g w = bind m (fun a => bind (f a) g) w.
Proof.
  unfold bind. destruct (m w) as [[a|e] w1]; reflexivity.
Qed.

(** X19.  Chains compose: resolving the chain [l1 ++ l2], both parts
    non-empty, is resolving [l1] and then resolving [l2] from the node
    found, with the same statements sent in the same order and the same
    error when a step fails. *)
Theorem get_object_by_id_composes :
  forall l1 l2 self w,
    l1 <> [] -> l2 <> [] ->
    get_object_by_id self (l1 ++ l2) w
    = (c <- get_object_by_id self l1 ;; get_object_by_id c l2) w.
Proof.
  induction l1 as [|n l1 IH]; intros l2 self w H1 H2; [contradiction|].
  destruct l1 as [|n' l1'].
  - destruct l2 as [|m l2]; [contradiction|].
    change (get_object_by_id self ([n] ++ m :: l2) w)
      with ((c <- get_child_by_name self n ;; get_object_by_id c (m :: l2)) w).
    change (get_object_by_id self [n])
      with (c <- get_child_by_name self n ;; ret c).
    rewrite bind_assoc. apply bind_congr. intros c w'. reflexivity.
  - change (get_object_by_id self ((n :: n' :: l1') ++ l2) w)
      with ((c <- get_child_by_name self n ;;
             get_object_by_id c ((n' :: l1') ++ l2)) w).
    change (get_object_by_id self (n :: n' :: l1'))
      with (c <- get_child_by_name self n ;; get_object_by_id c (n' :: l1')).
    rewrite bind_assoc. apply bind_congr. intros c w'.
    apply IH; [discriminate | exact H2].
Qed.

Lemma get_object_by_id_composes_witness :
  get_object_by_id (of_handle example_schema) (["t"] ++ ["c"]) (example_world [])
  = (c <- get_object_by_id (of_handle example_schema) ["t"] ;;
     get_object_by_id c ["c"]) (example_world []).
Proof.
  apply get_object_by_id_composes; discriminate.
Defined.

(* ===================================================================== *)
(** ** Which attributes alignment can set                                 *)
(* ===================================================================== *)

(** X20.  The registry attributes that no [set_attr_] method covers are
    the type and password of a login, the sizes of a database, every
    attribute of a foreign key, the columns of a primary key, the columns
    and uniqueness of an index, the login of a user and the column of a
    partition.  For exactly these [set_attribute] finds no setter. *)
Theorem attributes_without_setter :
  forall cls a,
    In a (valid_attributes cls) ->
    (setter cls a = None <-> In (cls, a) unsettable).
Proof.
  intros cls a Ha. unfold unsettable.
  destruct cls; cbn in Ha;
    repeat (destruct Ha as [<-|Ha]; [|try contradiction]);
    cbn; split; intros H; try reflexivity; try discriminate H;
    try (repeat (destruct H as [H|H]; [discriminate H|]); contradiction);
    intuition.
Qed.

Lemma attributes_without_setter_witness :
  setter Databases "data_size" = None
  /\ (setter Columns "nullable" = None -> False).
Proof.
  split.
  - apply (attributes_without_setter Databases "data_size"); cbn; intuition.
  - intros H.
    apply (attributes_without_setter Columns "nullable") in H;
      [|cbn; intuition].
    cbn in H. intuition discriminate.
Defined.

(* ===================================================================== *)
(** ** Edge cases of matching and re-creating                             *)
(* ===================================================================== *)

(** X21.  Matching a primary key declared on no column against a table
    that has no primary key does not report that nothing matches: the two
    empty column lists compare equal and the name is then read from the
    first row of an empty result, which raises [IndexError].
    [get_or_create] does not catch it, so nothing is created. *)
Theorem primary_key_without_columns :
  forall parent gp d w,
    h_parent parent = Some gp ->
    declared_getattr d "columns" = Ok (VTuple []) ->
    (forall a, cursor w (trace w) (fmt "TABLE_PK_COLUMNS" a) = Some []) ->
    fst (from_declared PrimaryKeys parent d w) = Raise IndexError
    /\ fst (get_or_create PrimaryKeys parent d w) = Raise IndexError
    /\ executed "CREATE_PK" (delta (get_or_create PrimaryKeys parent d) w)
       = false.
Proof.
  intros parent gp d w Hp Hd Hc.
  assert (E : exists q, from_declared PrimaryKeys parent d w
                        = (Raise IndexError, add_event (EvExecute q) w)
                        /\ sql_template q = "TABLE_PK_COLUMNS").
  { unfold from_declared, table_args, parent_of, ex, cur_execute, bind, ret.
    rewrite Hp. cbn. rewrite Hc. cbn. rewrite Hd. cbn.
    eexists. split; reflexivity. }
  destruct E as (q & E & Hq).
  assert (G : get_or_create PrimaryKeys parent d w
              = (Raise IndexError, add_event (EvExecute q) w)).
  { unfold get_or_create, try_except.
    rewrite (bind_Raise _ _ _ _ _ E). reflexivity. }
  split; [rewrite E; reflexivity|]. split; [rewrite G; reflexivity|].
  unfold delta. rewrite G. cbn.
  rewrite skipn_app, skipn_all, Nat.sub_diag. cbn. rewrite Hq. reflexivity.
Qed.

Lemma primary_key_without_columns_witness :
  fst (get_or_create PrimaryKeys example_table_id declared_empty_primary_key
                     (empty_world []))
  = Raise IndexError.
Proof.
  refine (proj1 (proj2 (primary_key_without_columns example_table_id
                          example_schema declared_empty_primary_key
                          (empty_world []) eq_refl eq_refl _))).
  intros a. reflexivity.
Defined.

(** X22.  [recreate_indexes_on_filegroup] needs a clustered index: on a
    table that has none, [get_clustered_index] returns [None] and the call
    of [recreate_new_filegroup] on it raises [AttributeError] before any
    index is re-created.  Creating a partition runs this after the
    partition function and scheme were created and committed. *)
Theorem no_clustered_index_no_filegroup :
  forall self filegroup w w1,
    h_type self = Tables ->
    get_clustered_index self w = (Ok None, w1) ->
    recreate_indexes_on_filegroup self filegroup w = (Raise AttributeError, w1).
Proof.
  intros self filegroup w w1 Ht Hg.
  unfold recreate_indexes_on_filegroup, table_method. rewrite Ht.
  rewrite (bind_Ok _ _ _ _ _ Hg). reflexivity.
Qed.

Lemma no_clustered_index_no_filegroup_witness :
  exists w1 w2,
    get_clustered_index example_table_id example_world_without_index
    = (Ok None, w1)
    /\ recreate_indexes_on_filegroup example_table_id "[PRIMARY]"
                                     example_world_without_index
       = (Raise AttributeError, w1)
    /\ create Partitions example_table_id declared_partition
              example_world_without_index
       = (Raise AttributeError, w2)
    /\ executed "CREATE_PARTITION_SCHEME" (trace w2) = true.
Proof.
  assert (H : exists w1,
             get_clustered_index example_table_id example_world_without_index
             = (Ok None, w1)) by (eexists; vm_compute; reflexivity).
  destruct H as (w1 & H).
  assert (G : exists w2,
             create Partitions example_table_id declared_partition
                    example_world_without_index
             = (Raise AttributeError, w2)
             /\ executed "CREATE_PARTITION_SCHEME" (trace w2) = true)
    by (eexists; vm_compute; split; reflexivity).
  destruct G as (w2 & G1 & G2).
  exists w1, w2. split; [exact H|]. split; [|split; assumption].
  exact (no_clustered_index_no_filegroup example_table_id "[PRIMARY]"
           example_world_without_index w1 eq_refl H).
Defined.

(** X23.  [set_attr_identity] refuses to work on a table that has a
    primary key: it raises before the column is deleted, so nothing is
    asked and nothing is dropped. *)
Theorem identity_change_needs_no_primary_key :
  forall r d w parent pk_fields w1,
    r_type r = Columns ->
    h_parent (r_id r) = Some parent ->
    get_pk_fields parent w = (Ok pk_fields, w1) ->
    truthy pk_fields = true ->
    set_attr_identity r d w = (Raise PyException, w1).
Proof.
  intros r d w parent pk_fields w1 Ht Hp Hg Hv.
  unfold set_attr_identity, parent_of. rewrite Hp.
  unfold bind at 1. cbn [ret].
  rewrite (bind_Ok _ _ _ _ _ Hg). rewrite Hv.
  assert (H1 : r_type r <> PrimaryKeys) by (rewrite Ht; discriminate).
  assert (H2 : r_type r <> Indexes) by (rewrite Ht; discriminate).
  rewrite (bind_Ok _ _ _ _ _ (str_reflected_plain r w1 H1 H2)).
  reflexivity.
Qed.

Lemma identity_change_needs_no_primary_key_witness :
  exists w1,
    get_pk_fields example_table_id (example_world_with_key ["y"])
    = (Ok (VTuple ["c"]), w1)
    /\ set_attr_identity example_column declared_column
                         (example_world_with_key ["y"])
       = (Raise PyException, w1)
    /\ stdin w1 = ["y"].
Proof.
  assert (H : exists w1,
             get_pk_fields example_table_id (example_world_with_key ["y"])
             = (Ok (VTuple ["c"]), w1) /\ stdin w1 = ["y"])
    by (eexists; vm_compute; split; reflexivity).
  destruct H as (w1 & H & Hs). exists w1.
  split; [exact H|]. split; [|exact Hs].
  exact (identity_change_needs_no_primary_key example_column declared_column
           (example_world_with_key ["y"]) example_table_id (VTuple ["c"]) w1
           eq_refl eq_refl H eq_refl).
Defined.


(* ===================================================================== *)
(** ** Aligning roles                                                     *)
(* ===================================================================== *)

Lemma after_events_nil w : after_events [] w = w.
Proof. destruct w. unfold after_events. cbn. rewrite app_nil_r. reflexivity. Qed.

Lemma after_events_app T1 T2 w :
  after_events T2 (after_events T1 w) = after_events (T1 ++ T2) w.
Proof. unfold after_events. cbn. rewrite app_assoc. reflexivity. Qed.

Lemma ex_commit_answered q w :
  answers_all w ->
  exists rows, ex q true w = (Ok rows, after_events [EvExecute q; EvCommit] w).
Proof.
  intros Ha. unfold ex, cur_execute, cur_commit, emit, bind, ret.
  destruct (cursor w (trace w) q) as [rows|] eqn:E.
  - exists rows. unfold after_events, add_event. cbn.
    rewrite <- app_assoc. reflexivity.
  - exfalso. exact (Ha _ _ E).
Qed.

Lemma for_each_roles template name_key action name roles : forall w,
  answers_all w ->
  for_each roles
    (fun role_name =>
       ex (fmt template [("role", AStr role_name); ("action", AStr action);
                         (name_key, AStr name)]) true ;;
       ret tt) w
  = (Ok tt, after_events (role_events template name_key action name roles) w).
Proof.
  induction roles as [|role roles IH]; intros w Ha.
  - cbn. rewrite after_events_nil. reflexivity.
  - cbn [for_each role_events flat_map].
    destruct (ex_commit_answered
                (fmt template [("role", AStr role); ("action", AStr action);
                               (name_key, AStr name)]) w Ha) as (rows & E).
    rewrite (bind_Ok _ _ _ _ _ (bind_Ok _ _ _ _ _ E)).
    cbv beta. rewrite IH by exact Ha.
    rewrite after_events_app. reflexivity.
Qed.

(** X24.  The role setters add the roles that are declared and not held,
    then drop the roles that are held and not declared, each with one
    statement followed by a commit; a role that is both declared and held
    is not touched.  (The server answers every statement; the declared and
    the live roles are given without repetitions, in the order the two
    loops visit them.) *)
Theorem roles_are_added_then_dropped :
  forall template name_key r attr d w det mine wanted,
    answers_all w ->
    NoDup wanted -> NoDup mine ->
    str_in attr (valid_attributes (r_type r)) = true ->
    r_detail_result r = Some det ->
    assoc attr (r_attributes r) = Some (VSet mine) ->
    declared_getattr d attr = Ok (VSet wanted)
    \/ declared_getattr d attr = Ok (VTuple wanted) ->
    alter_roles template name_key r attr d w
    = (Ok r,
       after_events
         (role_events template name_key "ADD" (r_name r)
                      (filter (fun role => negb (str_in role mine)) wanted)
          ++ role_events template name_key "DROP" (r_name r)
                         (filter (fun role => negb (str_in role wanted)) mine))
         w).
Proof.
  intros template name_key r attr d w det mine wanted Ha _ _ Hv Hd Hm Hw.
  unfold alter_roles.
  destruct Hw as [Hw|Hw]; rewrite Hw; unfold bind at 1;
    cbn [lift ret];
    unfold bind at 1;
    cbn [iter_strs ret];
    rewrite (bind_Ok _ _ _ _ _ (getattr_cached r attr det _ w Hd Hm Hv));
    cbv beta iota;
    unfold bind at 1;
    cbn [iter_strs ret];
    rewrite (bind_Ok _ _ _ _ _ (for_each_roles _ _ _ _ _ w Ha));
    cbv beta;
    rewrite (bind_Ok _ _ _ _ _ (getattr_cached r attr det _ _ Hd Hm Hv));
    cbv beta iota;
    unfold bind at 1;
    cbn [iter_strs ret];
    unfold bind at 1;
    cbn [lift ret];
    unfold bind at 1;
    cbn [iter_strs ret];
    rewrite (bind_Ok _ _ _ _ _ (for_each_roles _ _ _ _ _ (after_events _ w) Ha));
    cbv beta;
    rewrite after_events_app;
    reflexivity.
Qed.

Lemma roles_are_added_then_dropped_witness :
  alter_roles "ALTER_SERVER_ROLE" "login_name" example_login "server_roles"
              declared_login_with_roles (example_world [])
  = (Ok example_login,
     after_events
       (role_events "ALTER_SERVER_ROLE" "login_name" "ADD" "app" ["bulkadmin"]
        ++ role_events "ALTER_SERVER_ROLE" "login_name" "DROP" "app"
                       ["sysadmin"])
       (example_world [])).
Proof.
  apply (roles_are_added_then_dropped "ALTER_SERVER_ROLE" "login_name"
           example_login "server_roles" declared_login_with_roles
           (example_world []) [("name", VStr "app")]
           ["sysadmin"; "dbcreator"] ["dbcreator"; "bulkadmin"]).
  - intros hist q. unfold example_world, example_cursor. cbn [cursor].
    repeat (destruct (String.eqb _ _); try discriminate);
      repeat (destruct (executed _ _); try discriminate).
  - repeat (constructor; [cbn; intuition discriminate|]). constructor.
  - repeat (constructor; [cbn; intuition discriminate|]). constructor.
  - reflexivity.
  - reflexivity.
  - reflexivity.
  - left. reflexivity.
Defined.

(* ===================================================================== *)
(** ** Names of live nodes                                                *)
(* ===================================================================== *)

Lemma full_name_list_upto n : forall h,
  depth h <= n ->
  last (full_name_list h) "" = h_name h
  /\ (forall name, ancestor_name h Databases = Some name ->
                   hd_error (full_name_list h) = Some name)
  /\ full_name_list h <> [].
Proof.
  induction n as [|n IH]; intros [t name p] Hd; cbn in Hd.
  - destruct p as [p|]; [lia|].
    destruct t; cbn; repeat split; try discriminate;
      intros x H; try discriminate H; exact H.
  - destruct p as [p|].
    + destruct (IH p ltac:(lia)) as (Hl & Hh & Hne).
      destruct t; cbn [full_name_list h_type h_parent h_name ancestor_name
                       ObjType_eqb];
        try (split; [apply last_last|];
             split; [|intros H; apply app_eq_nil in H; destruct H; discriminate];
             intros x Hx; specialize (Hh x Hx);
             destruct (full_name_list p); [contradiction | exact Hh]).
      cbn. repeat split; try discriminate. intros x H. exact H.
    + destruct t; cbn; repeat split; try discriminate;
        intros x H; try discriminate H; exact H.
Qed.

(** X25.  The full name of a live node ends with the node's own name and,
    for a node at or below a database, starts with the name
    [ancestor_name('databases')] returns: the server is never part of it.
    [ancestor_name] for the node's own type is the node's own name. *)
Theorem full_name_starts_at_the_database :
  forall h,
    last (full_name_list h) "" = h_name h
    /\ (forall name, ancestor_name h Databases = Some name ->
                     hd_error (full_name_list h) = Some name)
    /\ ancestor_name h (h_type h) = Some (h_name h).
Proof.
  intros h. destruct (full_name_list_upto (depth h) h (le_n _)) as (H1 & H2 & _).
  split; [exact H1|]. split; [exact H2|].
  destruct h as [t name p]. cbn. rewrite ObjType_eqb_refl. reflexivity.
Qed.

(* ===================================================================== *)
(** ** Column attributes and column definitions                           *)
(* ===================================================================== *)

(** X26.  A live column reports a numeric precision, a numeric scale, a
    datetime precision or a maximal length only when its data type is one
    that carries it; for every other data type the attribute reads [None]
    whatever the details row holds.  A declaration that gives such a value
    for a data type that does not carry it can therefore never compare
    equal to the live column. *)
Theorem column_attribute_needs_its_data_type :
  forall r detail attr data_type w,
    r_type r = Columns ->
    In attr ["numeric_precision"; "numeric_scale"; "datetime_precision";
             "char_max_len"] ->
    assoc "data_type" detail = Some (VStr data_type) ->
    ~ In data_type (carrying_types attr) ->
    read_attribute r detail attr w = (Ok VNone, w)
    /\ forall declared, declared <> VNone -> py_eq declared VNone = false.
Proof.
  intros r detail attr data_type w Ht Ha Hd Hn. split.
  - assert (Hs : str_in data_type (carrying_types attr) = false).
    { destruct (str_in data_type (carrying_types attr)) eqn:E; [|reflexivity].
      exfalso. apply Hn. apply str_in_In. exact E. }
    unfold read_attribute. rewrite Ht.
    cbn in Ha.
    repeat (destruct Ha as [<-|Ha]; [|try contradiction]);
      cbv [carrying_types] in Hs;
      cbn [String.eqb Ascii.eqb Bool.eqb] in Hs;
      cbn [getter String.eqb Ascii.eqb Bool.eqb]; unfold column_precision, field;
      rewrite Hd; unfold bind, ret, value_in; rewrite Hs;
      reflexivity.
  - intros declared Hne. destruct declared; try reflexivity. contradiction.
Qed.

Lemma column_attribute_needs_its_data_type_witness :
  read_attribute example_column
                 [("data_type", VStr "datetime"); ("datetime_precision", VInt 3)]
                 "datetime_precision" (example_world [])
  = (Ok VNone, example_world [])
  /\ py_eq (VInt 7) VNone = false.
Proof.
  destruct (column_attribute_needs_its_data_type example_column
              [("data_type", VStr "datetime"); ("datetime_precision", VInt 3)]
              "datetime_precision" "datetime" (example_world []))
    as [H1 H2].
  - reflexivity.
  - cbn. tauto.
  - reflexivity.
  - cbn. intuition discriminate.
  - split; [exact H1 | apply H2; discriminate].
Defined.

(** X27.  [data_type_representation] never touches the server and raises
    nothing but [ValueError]: for a data type it does not know, for a
    numeric or approximate type without a precision and for a character
    type without a length.  A type that takes no parameter is rendered as
    its name.  A datetime type with a precision is rendered with whatever
    precision it is given ([None], a boolean, an integer or text), so a
    missing one is not refused: it renders as [(None)]. *)
Theorem data_type_representation_cases :
  forall data_type char_max_len datetime_precision numeric_precision
         numeric_scale w,
    let run := data_type_representation (VStr data_type) char_max_len
                 datetime_precision numeric_precision numeric_scale w in
    snd run = w
    /\ (forall e, fst run = Raise e -> e = ValueError)
    /\ (In data_type (INT_TYPES ++ MONEY_TYPES ++ DATETIME_NO_PRECISION_TYPES) ->
        fst run = Ok data_type)
    /\ (In data_type DATETIME_PRECISION_TYPES ->
        is_scalar datetime_precision = true ->
        fst run = Ok (data_type ++ "(" ++ format_value datetime_precision ++ ")")%string
        /\ (datetime_precision = VNone ->
            fst run = Ok (data_type ++ "(None)")%string))
    /\ (In data_type (NUMERIC_TYPES ++ APPROX_NUMBER_TYPES) ->
        numeric_precision = VNone -> fst run = Raise ValueError)
    /\ (In data_type CHAR_TYPES ->
        char_max_len = VNone -> fst run = Raise ValueError)
    /\ (~ In data_type (INT_TYPES ++ MONEY_TYPES ++ DATETIME_NO_PRECISION_TYPES
                        ++ NUMERIC_TYPES ++ APPROX_NUMBER_TYPES
                        ++ DATETIME_PRECISION_TYPES ++ CHAR_TYPES) ->
        fst run = Raise ValueError).
Proof.
  intros data_type cl dp np ns w run. subst run.
  unfold data_type_representation, value_in, bind, ret, raise.
  split; [|split; [|split; [|split; [|split; [|split]]]]].
  - repeat (match goal with
            | |- context [if ?b then _ else _] => destruct b
            | |- context [match ?v with VNone => _ | _ => _ end] => destruct v
            end; cbn [fst snd]); reflexivity.
  - intros e.
    repeat (match goal with
            | |- context [if ?b then _ else _] => destruct b
            | |- context [match ?v with VNone => _ | _ => _ end] => destruct v
            end; cbn [fst snd]); intros [= <-] || discriminate; reflexivity.
  - intros H. apply str_in_In in H. rewrite H. reflexivity.
  - intros H _. cbn in H.
    repeat (destruct H as [<-|H];
            [split; [reflexivity | intros ->; reflexivity]|]).
    contradiction.
  - intros H ->. cbn in H.
    repeat (destruct H as [<-|H]; [reflexivity|]). contradiction.
  - intros H ->. cbn in H.
    repeat (destruct H as [<-|H]; [reflexivity|]). contradiction.
  - intros H.
    assert (forall l, (forall x, In x l -> In x
              (INT_TYPES ++ MONEY_TYPES ++ DATETIME_NO_PRECISION_TYPES
               ++ NUMERIC_TYPES ++ APPROX_NUMBER_TYPES
               ++ DATETIME_PRECISION_TYPES ++ CHAR_TYPES)) ->
            str_in data_type l = false) as G.
    { intros l Hl. destruct (str_in data_type l) eqn:E; [|reflexivity].
      exfalso. apply H. apply Hl. apply str_in_In. exact E. }
    rewrite (G (INT_TYPES ++ MONEY_TYPES ++ DATETIME_NO_PRECISION_TYPES))
      by (cbn; tauto).
    rewrite (G (NUMERIC_TYPES ++ APPROX_NUMBER_TYPES)) by (cbn; tauto).
    rewrite (G DATETIME_PRECISION_TYPES) by (cbn; tauto).
    rewrite (G CHAR_TYPES) by (cbn; tauto).
    reflexivity.
Qed.

Lemma data_type_representation_cases_witness :
  data_type_representation (VStr "datetime2") VNone VNone VNone VNone
                           (example_world [])
  = (Ok "datetime2(None)", example_world [])
  /\ fst (data_type_representation (VStr "decimal") VNone (VInt 7) VNone VNone
                                   (example_world []))
     = Raise ValueError
  /\ fst (data_type_representation (VStr "geography") VNone (VInt 7) VNone
                                   VNone (example_world []))
     = Raise ValueError.
Proof.
  pose proof (data_type_representation_cases "datetime2" VNone VNone VNone
                VNone (example_world [])) as (Hw & _ & _ & Hd & _).
  pose proof (data_type_representation_cases "decimal" VNone (VInt 7) VNone
                VNone (example_world [])) as (_ & _ & _ & _ & Hn & _).
  pose proof (data_type_representation_cases "geography" VNone (VInt 7) VNone
                VNone (example_world [])) as (_ & _ & _ & _ & _ & _ & Hu).
  cbv zeta in *. split; [|split].
  - destruct (data_type_representation (VStr "datetime2") VNone VNone VNone
                                        VNone (example_world []))
      as [o w'] eqn:E.
    cbn [fst snd] in *. subst w'. f_equal.
    exact (proj2 (Hd ltac:(cbn; tauto) eq_refl) eq_refl).
  - apply Hn; [cbn; tauto | reflexivity].
  - apply Hu. cbn. intuition discriminate.
Defined.

(* ===================================================================== *)
(** ** The table shortcuts of a declared database                         *)
(* ===================================================================== *)

Lemma find_name_app_old n l x c :
  find (fun y => String.eqb (d_name y) n) l = Some c ->
  find (fun y => String.eqb (d_name y) n) (l ++ [x]) = Some c.
Proof.
  induction l as [|y l IH]; cbn; [discriminate|].
  destruct (String.eqb (d_name y) n); [trivial | exact IH].
Qed.

Lemma find_name_app_new n l x :
  find (fun y => String.eqb (d_name y) n) l = None -> d_name x = n ->
  find (fun y => String.eqb (d_name y) n) (l ++ [x]) = Some x.
Proof.
  intros Hn Hx. induction l as [|y l IH]; cbn in *.
  - rewrite Hx, String.eqb_refl. reflexivity.
  - destruct (String.eqb (d_name y) n); [discriminate | apply IH; exact Hn].
Qed.

Lemma find_replace_first n new l c :
  find (fun y => String.eqb (d_name y) n) l = Some c -> d_name new = n ->
  find (fun y => String.eqb (d_name y) n) (replace_first n new l) = Some new.
Proof.
  intros Hf Hx. induction l as [|y l IH]; cbn in *; [discriminate|].
  destruct (String.eqb (d_name y) n) eqn:E; cbn.
  - rewrite Hx, String.eqb_refl. reflexivity.
  - rewrite E. apply IH. exact Hf.
Qed.

(** What [get_child] finds in a node that just received [c]. *)
Lemma get_child_after_add_child d c d' :
  add_child d c = Ok d' ->
  declared_get_child d' (d_type c) (d_name c)
  = Ok match declared_get_child d (d_type c) (d_name c) with
       | Ok old => old
       | Raise _ => c
       end.
Proof.
  unfold add_child. destruct (negb _); [discriminate|]. intros [= <-].
  unfold declared_get_child, declared_get_children.
  cbn [d_children set_d_children]. rewrite children_get_set_same.
  destruct (children_get (d_type c) (d_children d)) as [l|]; cbn [app find].
  - destruct (find _ l) as [old|] eqn:E.
    + rewrite (find_name_app_old _ _ _ _ E). reflexivity.
    + rewrite (find_name_app_new _ _ _ E eq_refl). reflexivity.
  - rewrite String.eqb_refl. reflexivity.
Qed.

Lemma Schema_init_value schema_name :
  Schema_init schema_name
  = Ok (mkDeclared Schemas (slice_to 128 schema_name) None IgnoreNone [] []).
Proof. reflexivity. Qed.



(** X29.  Whether [add_table] works on a database built by the constructor
    depends on the database having been given a schema: with a list of
    schemas, [add_table] succeeds for every table and every schema name,
    adding the schema when it is missing; with none, [get_child] iterates
    over [None] and the call ends in a [TypeError], which the [except]
    clause for a missing schema does not catch, so no schema is created. *)
Theorem add_table_needs_a_schema_list :
  forall name old_name ignore kwargs db table schema_name,
    DeclaredEntity_init Databases name old_name ignore kwargs = Ok db ->
    d_type table = Tables ->
    match declared_get_children db Schemas with
    | None => Database_add_table db table schema_name = Raise TypeError
    | Some _ => exists db', Database_add_table db table schema_name = Ok db'
    end.
Proof.
  intros name old_name ignore kwargs db table s Hinit Htab.
  assert (Hdb : d_type db = Databases
                /\ filed_by_type Databases (d_children db)).
  { revert Hinit. unfold DeclaredEntity_init.
    destruct name as [name|]; [|discriminate].
    destruct (init_children _ _ _) as [[self kw]|e] eqn:Ec; [|discriminate].
    destruct (init_attributes _ _ _) as [[attrs kw']|e]; [|discriminate].
    destruct kw'; [|discriminate]. intros [= <-].
    pose proof (init_children_frame _ _ _ _ _ Ec) as (Ht & _).
    cbn in Ht. cbn [d_type d_children]. split; [exact Ht|].
    rewrite <- Ht. refine (init_children_filed _ _ _ _ _ _ Ec).
    intros t' l' []. }
  destruct Hdb as [Hty Hfiled].
  unfold Database_add_table, declared_get_child.
  destruct (declared_get_children db Schemas) as [l|] eqn:El; [|reflexivity].
  assert (Hadd : forall schema, d_type schema = Schemas ->
                                exists schema', add_child schema table = Ok schema').
  { intros schema Hs. unfold add_child. rewrite Htab, Hs. cbn. eexists.
    reflexivity. }
  destruct (find _ l) as [schema|] eqn:Ef.
  - apply find_name_some in Ef. destruct Ef as [Hin _].
    apply children_get_in in El. destruct (Hfiled _ _ El) as (_ & _ & Hall).
    rewrite Forall_forall in Hall.
    destruct (Hadd schema (Hall _ Hin)) as (schema' & ->). eexists. reflexivity.
  - rewrite Schema_init_value.
    destruct (Hadd (mkDeclared Schemas (slice_to 128 s) None IgnoreNone [] [])
                   eq_refl) as (schema' & ->).
    unfold add_child. rewrite Hty. cbn. eexists. reflexivity.
Qed.

Lemma add_table_needs_a_schema_list_witness :
  DeclaredEntity_init Databases (Some "db") None IgnoreNone
    [("owner", KwValue (VStr "sa")); ("data_file_path", KwValue VNone);
     ("log_file_path", KwValue VNone); ("data_size", KwValue VNone);
     ("log_size", KwValue VNone); ("recovery_model_desc", KwValue (VStr "FULL"))]
  = Ok declared_bare_database
  /\ Database_add_table declared_bare_database declared_table_with_column "dbo"
     = Raise TypeError.
Proof.
  split; [reflexivity|].
  refine (add_table_needs_a_schema_list (Some "db") None IgnoreNone
            [("owner", KwValue (VStr "sa")); ("data_file_path", KwValue VNone);
             ("log_file_path", KwValue VNone); ("data_size", KwValue VNone);
             ("log_size", KwValue VNone);
             ("recovery_model_desc", KwValue (VStr "FULL"))]
            declared_bare_database declared_table_with_column "dbo" _ _).
  - reflexivity.
  - reflexivity.
Defined.
